(** * django-ca: ACME request handling and certificate profiles

  A shallow embedding of the parts of [ca/django_ca/acme/views.py] and
  [ca/django_ca/profiles.py] that carry the ACME nonce store, request
  authentication, the order life cycle and the profile engine, together
  with the properties the specification states about them. *)

From Stdlib Require Import ZArith Lia Bool List Ascii.
From stdpp Require Import base option list strings gmap fin_maps.

Local Open Scope string_scope.
Local Open Scope list_scope.
Local Open Scope Z_scope.

(** ** Strings as Python uses them *)

Module PyStr.

(** [c in s] for a one-character needle. *)
Fixpoint contains_char (c : Ascii.ascii) (s : string) : bool :=
  match s with
  | EmptyString => false
  | String a s' => if Ascii.eqb a c then true else contains_char c s'
  end.

(** [s.startswith(p)]. *)
Fixpoint startswith (p s : string) : bool :=
  match p, s with
  | EmptyString, _ => true
  | String a p', String b s' => if Ascii.eqb a b then startswith p' s' else false
  | String _ _, EmptyString => false
  end.

(** [s[n:]]. *)
Fixpoint drop (n : nat) (s : string) : string :=
  match n, s with
  | O, _ => s
  | S n', String _ s' => drop n' s'
  | S _, EmptyString => EmptyString
  end.

(** [s.split(c, 1)]: the text before the first [c] and the text after
    it, or the whole string alone when [c] does not occur. *)
Fixpoint split1 (c : Ascii.ascii) (s : string) : string * option string :=
  match s with
  | EmptyString => (EmptyString, None)
  | String a s' =>
      if Ascii.eqb a c then (EmptyString, Some s')
      else let '(h, t) := split1 c s' in (String a h, t)
  end.

End PyStr.

(** ** The nonce store ([AcmeGetNonceViewMixin]) *)

Module NonceStore.

(** Django's cache as the views use it: string keys, integer values. *)
Abbreviation cache := (gmap string Z).

Definition dash : Ascii.ascii := Ascii.Ascii true false true true false true false false.

(** [f"acme-nonce-{serial}-{nonce}"] *)
Definition cache_key (serial nonce : string) : string :=
  "acme-nonce-" +:+ serial +:+ "-" +:+ nonce.

(** [cache.set(key, value)] *)
Definition cache_set (key : string) (v : Z) (c : cache) : cache := <[key := v]> c.

(** [cache.incr(key)]: the new value, or [None] for the [ValueError]
    Django raises when the key is not set. *)
Definition cache_incr (key : string) (c : cache) : option (Z * cache) :=
  match c !! key with
  | Some v => Some (v + 1, <[key := v + 1]> c)
  | None => None
  end.

(** [get_nonce]: [nonce] stands for the base64url text of the 32 bytes
    drawn from [secrets.token_bytes]. *)
Definition get_nonce (serial nonce : string) (c : cache) : string * cache :=
  (nonce, cache_set (cache_key serial nonce) 0 c).

(** [validate_nonce] *)
Definition validate_nonce (serial nonce : string) (c : cache) : bool * cache :=
  match cache_incr (cache_key serial nonce) c with
  | None => (false, c)
  | Some (count, c') => if 1 <? count then (false, c') else (true, c')
  end.

(** A history of calls on the store of one process. *)
Inductive call :=
| GetNonce (serial nonce : string)
| ValidateNonce (serial nonce : string).

Definition call_serial (e : call) : string :=
  match e with GetNonce s _ | ValidateNonce s _ => s end.

(** One call: the new cache and, for [validate_nonce], its answer. *)
Definition step (c : cache) (e : call) : cache * option bool :=
  match e with
  | GetNonce s n => ((get_nonce s n c).2, None)
  | ValidateNonce s n => let '(b, c') := validate_nonce s n c in (c', Some b)
  end.

Fixpoint run (c : cache) (es : list call) : cache * list (option bool) :=
  match es with
  | [] => (c, [])
  | e :: es' =>
      let '(c1, r) := step c e in
      let '(c2, rs) := run c1 es' in
      (c2, r :: rs)
  end.

(** Serials come out of the URL converter as hexadecimal text; all the
    store needs is that they carry no dash. *)
Definition serial_ok (s : string) : bool := negb (PyStr.contains_char dash s).

Definition serials_ok (es : list call) : bool :=
  forallb (fun e => serial_ok (call_serial e)) es.

(** The counter the store keeps for one nonce of one authority, read off
    the history alone: unset until the nonce is issued, reset by an issue,
    one more with every validation. *)
Definition counter_step (s n : string) (o : option Z) (e : call) : option Z :=
  match e with
  | GetNonce s' n' => if decide (s' = s /\ n' = n) then Some 0 else o
  | ValidateNonce s' n' => if decide (s' = s /\ n' = n) then Z.succ <$> o else o
  end.

Definition counter (s n : string) (es : list call) : option Z :=
  foldl (counter_step s n) None es.

End NonceStore.

(** ** ACME data model

    The rows of [models.py] as the views read and write them: of each
    model, the fields the views touch. *)

Module CertificateAuthority.
Record row := {
  serial : string;
  acme_requires_contact : bool;
}.
End CertificateAuthority.

Module AcmeAccount.
Inductive status := STATUS_VALID | STATUS_DEACTIVATED | STATUS_REVOKED.
#[global] Instance status_eq_dec : EqDecision status.
Proof. solve_decision. Defined.

(** [messages.STATUS_DEACTIVATED.name], the text a [Registration]
    message carries in its plain [status] field. *)
Definition STATUS_DEACTIVATED_name : string := "deactivated".

Record row := {
  pk : nat;
  slug : string;
  ca : string;
  kid : string;
  status_ : status;
  contact : string;
  terms_of_service_agreed : bool;
  thumbprint : string;
  pem : string;
}.

Definition set_status (s : status) (a : row) : row :=
  {| pk := pk a; slug := slug a; ca := ca a; kid := kid a; status_ := s;
     contact := contact a; terms_of_service_agreed := terms_of_service_agreed a;
     thumbprint := thumbprint a; pem := pem a |}.

Definition set_contact (c : string) (a : row) : row :=
  {| pk := pk a; slug := slug a; ca := ca a; kid := kid a; status_ := status_ a;
     contact := c; terms_of_service_agreed := terms_of_service_agreed a;
     thumbprint := thumbprint a; pem := pem a |}.
End AcmeAccount.

Module AcmeOrder.
Inductive status :=
  STATUS_INVALID | STATUS_PENDING | STATUS_PROCESSING | STATUS_READY | STATUS_VALID.
#[global] Instance status_eq_dec : EqDecision status.
Proof. solve_decision. Defined.

Record row := {
  pk : nat;
  slug : string;
  account : nat;
  status_ : status;
  expires : Z;
  not_before : option Z;
  not_after : option Z;
}.

Definition set_status (s : status) (o : row) : row :=
  {| pk := pk o; slug := slug o; account := account o; status_ := s;
     expires := expires o; not_before := not_before o; not_after := not_after o |}.
End AcmeOrder.

Module AcmeAuthorization.
Inductive status :=
  STATUS_PENDING | STATUS_VALID | STATUS_INVALID | STATUS_DEACTIVATED
| STATUS_EXPIRED | STATUS_REVOKED.
#[global] Instance status_eq_dec : EqDecision status.
Proof. solve_decision. Defined.

Record row := {
  pk : nat;
  slug : string;
  order : nat;
  type : string;
  value : string;
  status_ : status;
  expires : Z;
}.

Definition set_status (s : status) (a : row) : row :=
  {| pk := pk a; slug := slug a; order := order a; type := type a;
     value := value a; status_ := s; expires := expires a |}.
End AcmeAuthorization.

Module AcmeChallenge.
Inductive status := STATUS_PENDING | STATUS_PROCESSING | STATUS_VALID | STATUS_INVALID.
#[global] Instance status_eq_dec : EqDecision status.
Proof. solve_decision. Defined.

Record row := {
  pk : nat;
  slug : string;
  auth : nat;
  type : string;
  status_ : status;
  validated : option Z;
}.

Definition set_status (s : status) (c : row) : row :=
  {| pk := pk c; slug := slug c; auth := auth c; type := type c;
     status_ := s; validated := validated c |}.
End AcmeChallenge.

Module AcmeCertificate.
Record row := {
  pk : nat;
  slug : string;
  order : nat;
  csr : string;
  (** the PEM bundle of the issued certificate, once there is one *)
  cert : option (list string);
}.
End AcmeCertificate.

(** ** Errors and responses ([acme/errors.py], [acme/responses.py])

    Of both modules the views use the classes only: an error or a
    response is kept as its class with the [typ] and [message] the views
    pass in.  A [message] of [None] is the class's default text. *)

Module Errors.

(** What a view can raise: the [AcmeException] classes, and the Python and
    Django exceptions that are no [AcmeException]. *)
Inductive exn :=
| AcmeException (message : string)
| AcmeMalformed (typ : string) (message : string)
| AcmeUnauthorized (message : option string)
| AcmeForbidden (typ : string) (message : string)
| AcmeBadCSR (message : string)
| ValueError (message : string)
| AttributeError (message : string)
| DoesNotExist
| MultipleObjectsReturned.

Definition is_AcmeException (e : exn) : bool :=
  match e with
  | AcmeException _ | AcmeMalformed _ _ | AcmeUnauthorized _
  | AcmeForbidden _ _ | AcmeBadCSR _ => true
  | _ => false
  end.

(** Either a raised exception or a returned value. *)
Definition result (A : Type) : Type := exn + A.
Definition raise {A} (e : exn) : result A := inl e.
Definition ret {A} (a : A) : result A := inr a.
Definition bind {A B} (m : result A) (k : A -> result B) : result B :=
  match m with inl e => inl e | inr a => k a end.

(** The default [typ] of [AcmeMalformed] and of [AcmeResponseMalformed]. *)
Definition malformed : string := "malformed".

End Errors.

Export Errors.

Notation "'let!' x ':=' m 'in' k" := (bind m (fun x => k))
  (at level 10, x pattern, m at level 100, k at level 200).
Notation "'check!' m 'in' k" := (bind m (fun _ : unit => k))
  (at level 10, m at level 100, k at level 200).

Module Responses.

(** The document of an order response. *)
Record order_document := {
  doc_status : AcmeOrder.status;
  doc_expires : Z;
  doc_identifiers : list (string * string);
  doc_authorizations : list string;
  doc_certificate : option string;
  doc_location : string;
}.

Inductive response :=
| AcmeResponseUnsupportedMediaType
| AcmeResponseMalformed (typ : string) (message : string)
| AcmeResponseMalformedPayload (message : string)
| AcmeResponseNotFound (message : string)
| AcmeResponseUnauthorized (message : option string)
| AcmeResponseForbidden (typ : string) (message : string)
| AcmeResponseBadCSR (message : string)
| AcmeResponseBadNonce
| AcmeResponseError (message : string)
| AcmeResponseAccount (account : AcmeAccount.row)
| AcmeResponseAccountCreated (account : AcmeAccount.row)
| AcmeResponseOrderCreated (doc : order_document)
| AcmeResponseOrder (doc : order_document)
| AcmeResponseAuthorization (identifier : string * string)
    (challenges : list (string * AcmeChallenge.status))
    (status : AcmeAuthorization.status) (expires : Z)
| AcmeResponseChallenge (slug : string) (status : AcmeChallenge.status)
    (validated : option Z)
| HttpResponse (content : string) (content_type : string).

(** [AcmeException.get_response]. *)
Definition get_response (e : exn) : response :=
  match e with
  | AcmeMalformed typ m => AcmeResponseMalformed typ m
  | AcmeUnauthorized m => AcmeResponseUnauthorized m
  | AcmeForbidden typ m => AcmeResponseForbidden typ m
  | AcmeBadCSR m => AcmeResponseBadCSR m
  | AcmeException m => AcmeResponseError m
  | ValueError m | AttributeError m => AcmeResponseError m
  | DoesNotExist | MultipleObjectsReturned => AcmeResponseError ""
  end.

End Responses.

Export Responses.

(** ** The database and the querysets *)

Module DB.

Record db := {
  cas : list CertificateAuthority.row;
  accounts : list AcmeAccount.row;
  orders : list AcmeOrder.row;
  authorizations : list AcmeAuthorization.row;
  challenges : list AcmeChallenge.row;
  certificates : list AcmeCertificate.row;
}.

Definition with_accounts (l : list AcmeAccount.row) (d : db) : db :=
  {| cas := cas d; accounts := l; orders := orders d;
     authorizations := authorizations d; challenges := challenges d;
     certificates := certificates d |}.

Definition with_orders (l : list AcmeOrder.row) (d : db) : db :=
  {| cas := cas d; accounts := accounts d; orders := l;
     authorizations := authorizations d; challenges := challenges d;
     certificates := certificates d |}.

Definition with_authorizations (l : list AcmeAuthorization.row) (d : db) : db :=
  {| cas := cas d; accounts := accounts d; orders := orders d;
     authorizations := l; challenges := challenges d;
     certificates := certificates d |}.

Definition with_challenges (l : list AcmeChallenge.row) (d : db) : db :=
  {| cas := cas d; accounts := accounts d; orders := orders d;
     authorizations := authorizations d; challenges := l;
     certificates := certificates d |}.

Definition with_certificates (l : list AcmeCertificate.row) (d : db) : db :=
  {| cas := cas d; accounts := accounts d; orders := orders d;
     authorizations := authorizations d; challenges := challenges d;
     certificates := l |}.

(** [QuerySet.get()]: the one row of the queryset. *)
Definition get {A} (qs : list A) : result A :=
  match qs with
  | [] => raise DoesNotExist
  | [x] => ret x
  | _ => raise MultipleObjectsReturned
  end.

(** [QuerySet.update(...)]: rewrite the rows the filter selects, in place. *)
Definition update {A} (sel : A -> bool) (f : A -> A) (table : list A) : list A :=
  map (fun r => if sel r then f r else r) table.

(** [Model.save()] of a row that exists: the row with that primary key is
    overwritten. *)
Definition save {A} (key : A -> nat) (r : A) (table : list A) : list A :=
  map (fun r' => if Nat.eqb (key r') (key r) then r else r') table.

(** The next primary key of a table. *)
Definition next_pk {A} (key : A -> nat) (table : list A) : nat :=
  S (foldr Nat.max O (map key table)).

(** Following a foreign key. *)
Definition by_pk {A} (key : A -> nat) (k : nat) (table : list A) : option A :=
  List.find (fun r => Nat.eqb (key r) k) table.

End DB.

Export DB.

(** ** Contact validation ([ContactValidationMixin]) *)

Module ContactValidationMixin.

(** [messages.Registration.email_prefix] *)
Definition email_prefix : string := "mailto:".

Definition quote_char : Ascii.ascii := Ascii.ascii_of_nat 34.

Section validate_contacts.

(** [utils.validate_email], kept as what the view sees of it: [false] when
    it raises [ValueError]. *)
Variable validate_email : string -> bool.

(** The body of the loop of [validate_contacts], for one contact. *)
Definition validate_contact (contact : string) : result unit :=
  if PyStr.startswith email_prefix contact then
    let addr := PyStr.drop (String.length email_prefix) contact in
    if PyStr.startswith (String quote_char EmptyString) addr then
      raise (AcmeMalformed "invalidContact" "Quoted local part in email is not allowed.")
    else if PyStr.contains_char ","%char addr then
      raise (AcmeMalformed "invalidContact" "More than one addr-spec is not allowed.")
    else
      (* [_local, domain = addr.split("@", 1)] *)
      match PyStr.split1 "@"%char addr with
      | (_, None) => raise (ValueError "not enough values to unpack (expected 2, got 1)")
      | (_local, Some domain) =>
          if PyStr.contains_char "?"%char domain then
            raise (AcmeMalformed "invalidContact" (domain +:+ ": hfields are not allowed."))
          else if validate_email addr then ret tt
          else raise (AcmeMalformed "invalidContact" (domain +:+ ": Not a valid email address."))
      end
  else
    raise (AcmeMalformed "unsupportedContact" (contact +:+ ": Unsupported address scheme.")).

(** [validate_contacts]: the first contact that fails raises. *)
Fixpoint validate_contacts (contacts : list string) : result unit :=
  match contacts with
  | [] => ret tt
  | contact :: rest =>
      check! validate_contact contact in validate_contacts rest
  end.

End validate_contacts.

End ContactValidationMixin.

(** ** Request authentication ([AcmeBaseView]) *)

Module AcmeBaseView.

(** The protected header of the one signature ([jws.signature.combined]).
    [nonce] is the header's base64url text, which is what
    [jose.encode_b64jose(combined.nonce)] gives back. *)
Record header := {
  jwk : option string;
  kid : option string;
  alg : option string;
  nonce : string;
  url : string;
}.

Record JWS := {
  signatures : nat;
  combined : header;
  payload : string;
}.

Record HttpRequest := {
  content_type : string;
  body : string;
  (** [request.build_absolute_uri()] *)
  absolute_uri : string;
}.

(** Work handed to [run_task] once the transaction commits. *)
Inductive task :=
| acme_issue_certificate (acme_certificate_pk : nat)
| acme_validate_challenge (challenge_pk : nat).

(** What a request can read and write. *)
Record state := {
  st_db : db;
  st_cache : NonceStore.cache;
  st_tasks : list task;
}.

Definition with_db (d : db) (s : state) : state :=
  {| st_db := d; st_cache := st_cache s; st_tasks := st_tasks s |}.
Definition with_cache (c : NonceStore.cache) (s : state) : state :=
  {| st_db := st_db s; st_cache := c; st_tasks := st_tasks s |}.
Definition on_commit (t : task) (s : state) : state :=
  {| st_db := st_db s; st_cache := st_cache s; st_tasks := st_tasks s ++ [t] |}.

(** The attributes a view instance holds once [post] has authenticated the
    request. [account] is set only on the [kid] path. *)
Record self := {
  self_ca : CertificateAuthority.row;
  self_jwk : string;
  self_account : option AcmeAccount.row;
  self_jws : JWS;
  self_request : HttpRequest;
}.

(** A view class: its [requires_key] and its [process_acme_request]. *)
Record view := {
  requires_key : bool;
  process_acme_request : self -> option string -> state -> result (response * state);
}.

(** Python truth of an optional object and of an optional string. *)
Definition truthy_obj {A} (o : option A) : bool :=
  match o with Some _ => true | None => false end.
Definition truthy_str (o : option string) : bool :=
  match o with Some s => negb (String.eqb s "") | None => false end.

(** The end of [post]: [try: return self.process_acme_request(slug=slug)]
    [except AcmeException as e: return e.get_response()].  An
    [AcmeException] becomes its response and leaves the state as it was
    before the view ran; anything else goes on to [dispatch], which also
    sees the state as it was before the view ran. *)
Definition respond (r : result (response * state)) (st : state)
  : result response * state :=
  match r with
  | inr (response, st') => (ret response, st')
  | inl e => (if is_AcmeException e then ret (get_response e) else raise e, st)
  end.

Section post.

(** [acme.jws.JWS.json_loads]: [None] for a [DeserializationError] or a
    [TypeError]. *)
Variable json_loads : string -> option JWS.
(** [CertificateAuthority.objects.acme().usable()] *)
Variable ca_acme_usable : CertificateAuthority.row -> bool.
(** [AcmeAccount.objects.viewable()] and [account.usable] *)
Variable account_viewable : db -> AcmeAccount.row -> bool.
Variable account_usable : db -> AcmeAccount.row -> bool.
(** [jose.JWK.load(account.pem.encode("utf-8"))] *)
Variable JWK_load : string -> string.
(** [jws.verify(jwk)]: [None] when it raises. *)
Variable verify : JWS -> string -> option bool.

Definition get_ca (serial : string) (d : db) : result CertificateAuthority.row :=
  get (filter (fun c => ca_acme_usable c && String.eqb (CertificateAuthority.serial c) serial)
         (cas d)).

Definition get_account (ca : CertificateAuthority.row) (kid : string) (d : db)
  : result AcmeAccount.row :=
  get (filter (fun a => account_viewable d a
                        && String.eqb (AcmeAccount.ca a) (CertificateAuthority.serial ca)
                        && String.eqb (AcmeAccount.kid a) kid)
         (accounts d)).

(** The tail of [post], once the key of the request is known. *)
Definition post_verified (v : view) (request : HttpRequest) (serial : string)
    (slug : option string) (jws : JWS) (ca : CertificateAuthority.row)
    (key : string) (account : option AcmeAccount.row) (st : state)
  : result response * state :=
  let combined := combined jws in
  if negb (Nat.eqb (signatures jws) 1) then
    (ret (AcmeResponseMalformed malformed "Multiple JWS signatures encountered."), st)
  else if negb (truthy_str (alg combined)) then
    (ret (AcmeResponseMalformed malformed "No algorithm specified."), st)
  else
    match verify jws key with
    | None | Some false => (ret (AcmeResponseMalformed malformed "JWS signature invalid."), st)
    | Some true =>
        let '(ok, c') := NonceStore.validate_nonce serial (nonce combined) (st_cache st) in
        let st := with_cache c' st in
        if negb ok then (ret AcmeResponseBadNonce, st)
        else if negb (String.eqb (url combined) (absolute_uri request)) then
          (ret (AcmeResponseUnauthorized (Some "URL does not match.")), st)
        else
          let this := {| self_ca := ca; self_jwk := key; self_account := account;
                         self_jws := jws; self_request := request |} in
          respond (process_acme_request v this slug st) st
    end.

(** [AcmeBaseView.post]: the response, or the exception that escapes, and
    the state the request leaves behind. *)
Definition post (v : view) (request : HttpRequest) (serial : string)
    (slug : option string) (st : state) : result response * state :=
  if negb (String.eqb (content_type request) "application/jose+json") then
    (ret AcmeResponseUnsupportedMediaType, st)
  else
    match json_loads (body request) with
    | None => (ret (AcmeResponseMalformed malformed "Could not parse JWS token."), st)
    | Some jws =>
        let combined := combined jws in
        if truthy_obj (jwk combined) && truthy_str (kid combined) then
          (ret (AcmeResponseMalformed malformed "jwk and kid are mutually exclusive."), st)
        else
          match get_ca serial (st_db st) with
          | inl DoesNotExist =>
              (ret (AcmeResponseNotFound "The requested CA cannot be found."), st)
          | inl e => (raise e, st)
          | inr ca =>
              match jwk combined, truthy_str (kid combined) with
              | Some key, _ =>
                  if negb (requires_key v) then
                    (ret (AcmeResponseMalformed malformed "Request requires a JWK key ID."), st)
                  else post_verified v request serial slug jws ca key None st
              | None, true =>
                  if requires_key v then
                    (ret (AcmeResponseMalformed malformed "Request requires a full JWK key."),
                     st)
                  else
                    match get_account ca (default "" (kid combined)) (st_db st) with
                    | inl DoesNotExist =>
                        (ret (AcmeResponseUnauthorized (Some "Account not found.")), st)
                    | inl e => (raise e, st)
                    | inr account =>
                        if negb (account_usable (st_db st) account) then
                          (ret (AcmeResponseUnauthorized (Some "Account not usable.")), st)
                        else
                          post_verified v request serial slug jws ca
                            (JWK_load (AcmeAccount.pem account)) (Some account) st
                    end
              | None, false =>
                  (ret (AcmeResponseMalformed malformed
                          "JWS contained neither key nor key ID."), st)
              end
          end
    end.

(** [django.http.Http404]: raised before any handler runs, it leaves
    [dispatch] as an exception, so that nothing is answered, no nonce is
    drawn and the state stays as it was. *)
Inductive Http404 := Http404_raised (message : string).

(** [AcmeBaseView.dispatch] around [post], for [ca_settings.CA_ENABLE_ACME]
    as given: with ACME disabled it raises [Http404]; otherwise whatever
    escapes [post] is answered as an internal error, and every answer
    carries a fresh nonce ([nonce] is the text [get_nonce] draws). *)
Definition dispatch (CA_ENABLE_ACME : bool) (v : view) (request : HttpRequest)
    (serial : string) (slug : option string) (nonce : string) (st : state)
  : Http404 + response * string * state :=
  if negb CA_ENABLE_ACME then inl (Http404_raised "Page not found.")
  else
    let '(r, st) := post v request serial slug st in
    let response :=
      match r with
      | inr response => response
      | inl _ => AcmeResponseError "Internal server error"
      end in
    let '(n, c) := NonceStore.get_nonce serial nonce (st_cache st) in
    inr (response, n, with_cache c st).

End post.

End AcmeBaseView.

Export AcmeBaseView.

(** ** Settings ([ca_settings.py]) *)

Module ca_settings.

(** A [timedelta], in microseconds. *)
Definition timedelta (days hours : Z) : Z :=
  (days * 24 + hours) * 3600 * 1000000.

(** A validity setting is given as a number of days or as a [timedelta]. *)
Inductive validity_setting :=
| Days (n : Z)
| Timedelta (microseconds : Z).

(** [getattr(settings, name, default)] followed by the [isinstance(.., int)]
    conversion at the end of the module. *)
Definition validity (configured : option validity_setting) (default : Z) : Z :=
  match configured with
  | None => default
  | Some (Days n) => timedelta n 0
  | Some (Timedelta d) => d
  end.

Definition ACME_ORDER_VALIDITY (configured : option validity_setting) : Z :=
  validity configured (timedelta 0 1).

Definition ACME_MAX_CERT_VALIDITY (configured : option validity_setting) : Z :=
  validity configured (timedelta 90 0).

End ca_settings.

(** ** X.509 values as the views compare them *)

Module x509.

Inductive GeneralName :=
| DNSName (value : string)
| RFC822Name (value : string)
| UniformResourceIdentifier (value : string)
| IPAddress (value : string)
| DirectoryName (value : string)
| RegisteredID (value : string)
| OtherName (value : string).

#[global] Instance GeneralName_eq_dec : EqDecision GeneralName.
Proof. solve_decision. Defined.

Definition GeneralName_encode (g : GeneralName) : nat * string :=
  match g with
  | DNSName v => (0%nat, v) | RFC822Name v => (1%nat, v)
  | UniformResourceIdentifier v => (2%nat, v) | IPAddress v => (3%nat, v)
  | DirectoryName v => (4%nat, v) | RegisteredID v => (5%nat, v)
  | OtherName v => (6%nat, v)
  end.

Definition GeneralName_decode (p : nat * string) : GeneralName :=
  match p with
  | (0%nat, v) => DNSName v | (1%nat, v) => RFC822Name v
  | (2%nat, v) => UniformResourceIdentifier v | (3%nat, v) => IPAddress v
  | (4%nat, v) => DirectoryName v | (5%nat, v) => RegisteredID v
  | (_, v) => OtherName v
  end.

#[global] Instance GeneralName_countable : Countable GeneralName.
Proof.
  refine (inj_countable' GeneralName_encode GeneralName_decode _).
  intros []; reflexivity.
Defined.

Inductive HashAlgorithm := MD5 | SHA1 | SHA224 | SHA256 | SHA384 | SHA512.
#[global] Instance HashAlgorithm_eq_dec : EqDecision HashAlgorithm.
Proof. solve_decision. Defined.

Definition hash_name (h : HashAlgorithm) : string :=
  match h with
  | MD5 => "md5" | SHA1 => "sha1" | SHA224 => "sha224"
  | SHA256 => "sha256" | SHA384 => "sha384" | SHA512 => "sha512"
  end.

Inductive NameOID := COMMON_NAME | COUNTRY_NAME | ORGANIZATION_NAME | OTHER_OID (dotted : string).
#[global] Instance NameOID_eq_dec : EqDecision NameOID.
Proof. solve_decision. Defined.

Record NameAttribute := { oid : NameOID; value : string }.

(** A certificate signing request, as far as [validate_csr] looks at it. *)
Record CertificateSigningRequest := {
  is_signature_valid : bool;
  signature_hash_algorithm : HashAlgorithm;
  subject : list NameAttribute;
  (** the value of the SubjectAlternativeName extension, when there is one *)
  subject_alternative_name : option (list GeneralName);
  (** [public_bytes(Encoding.PEM).decode("utf-8")] *)
  public_bytes : string;
}.

End x509.

(** ** The resource views *)

Module Views.

(** The messages of the views that take a payload. *)
Record Registration := {
  reg_status : option string;
  reg_contact : list string;
}.

Record NewOrder := {
  identifiers : list (string * string);
  not_before : option Z;
  not_after : option Z;
}.

Record CertificateRequest := { csr : string }.

Definition slug_is {A} (slug_of : A -> string) (slug : option string) (r : A) : bool :=
  match slug with Some s => String.eqb (slug_of r) s | None => false end.

(** Modelled from the spec: the [account(...)] filters of the querysets
    are defined in [querysets.py], not in the views.  An order belongs to
    one account, an authorization to one order, a challenge to one
    authorization and a certificate to one order, and the filter keeps the
    rows that hang from the given account. *)
Definition order_of_account (account : AcmeAccount.row) (o : AcmeOrder.row) : bool :=
  Nat.eqb (AcmeOrder.account o) (AcmeAccount.pk account).

Definition auth_of_account (d : db) (account : AcmeAccount.row)
    (a : AcmeAuthorization.row) : bool :=
  match by_pk AcmeOrder.pk (AcmeAuthorization.order a) (orders d) with
  | Some o => order_of_account account o
  | None => false
  end.

Definition challenge_of_account (d : db) (account : AcmeAccount.row)
    (c : AcmeChallenge.row) : bool :=
  match by_pk AcmeAuthorization.pk (AcmeChallenge.auth c) (authorizations d) with
  | Some a => auth_of_account d account a
  | None => false
  end.

Definition cert_of_account (d : db) (account : AcmeAccount.row)
    (c : AcmeCertificate.row) : bool :=
  match by_pk AcmeOrder.pk (AcmeCertificate.order c) (orders d) with
  | Some o => order_of_account account o
  | None => false
  end.

(** [order.authorizations.all()] *)
Definition order_authorizations (d : db) (o : AcmeOrder.row) : list AcmeAuthorization.row :=
  filter (fun a => Nat.eqb (AcmeAuthorization.order a) (AcmeOrder.pk o)) (authorizations d).

(** [try: ...get(...) except DoesNotExist: raise AcmeUnauthorized()] *)
Definition get_or_unauthorized {A} (qs : list A) : result A :=
  match get qs with
  | inl DoesNotExist => raise (AcmeUnauthorized None)
  | r => r
  end.

Definition identifier_of (a : AcmeAuthorization.row) : string * string :=
  (AcmeAuthorization.type a, AcmeAuthorization.value a).

Definition newline : string := String (Ascii.ascii_of_nat 10) EmptyString.

Section views.

(** The [viewable()] filters of [querysets.py] and the [usable] property
    and [get_challenges] of [models.py], as the views call them;
    [get_challenges] gives the challenges and the database as the method
    leaves it. *)
Variable order_viewable : db -> AcmeOrder.row -> bool.
Variable auth_viewable : db -> AcmeAuthorization.row -> bool.
Variable challenge_viewable : db -> AcmeChallenge.row -> bool.
Variable cert_viewable : db -> AcmeCertificate.row -> bool.
Variable challenge_usable : db -> AcmeChallenge.row -> bool.
Variable get_challenges : db -> AcmeAuthorization.row -> list AcmeChallenge.row * db.

(** [utils.validate_email], [utils.check_name], [acme.utils.parse_acme_csr]
    and the general name [SubjectAlternativeName] parses out of
    [auth.subject_alternative_name]. *)
Variable validate_email : string -> bool.
Variable check_name : list x509.NameAttribute -> result unit.
Variable parse_acme_csr : string -> x509.CertificateSigningRequest.
Variable authorization_general_name : AcmeAuthorization.row -> x509.GeneralName.
(** [x509.DNSName(value)] of the cryptography library, which raises for a
    text it does not take as a DNS name. *)
Variable x509_DNSName : string -> result x509.GeneralName.

(** *** [AcmeAccountView.acme_request] *)
Definition AcmeAccountView_acme_request (message : Registration) (slug : option string)
    (st : state) : result (response * state) :=
  let d := st_db st in
  let! account := get (filter (slug_is AcmeAccount.slug slug) (accounts d)) in
  if bool_decide (reg_status message = Some AcmeAccount.STATUS_DEACTIVATED_name) then
    let account := AcmeAccount.set_status AcmeAccount.STATUS_DEACTIVATED account in
    let d := with_accounts (save AcmeAccount.pk account (accounts d)) d in
    (* account.orders.filter(status=PENDING).update(status=INVALID) *)
    let d := with_orders
               (update (fun o => order_of_account account o
                                 && bool_decide (AcmeOrder.status_ o = AcmeOrder.STATUS_PENDING))
                       (AcmeOrder.set_status AcmeOrder.STATUS_INVALID) (orders d)) d in
    (* AcmeAuthorization.objects.filter(order__account=account, status=PENDING)
         .update(status=DEACTIVATED) *)
    let d := with_authorizations
               (update (fun a => auth_of_account d account a
                                 && bool_decide (AcmeAuthorization.status_ a
                                                 = AcmeAuthorization.STATUS_PENDING))
                       (AcmeAuthorization.set_status AcmeAuthorization.STATUS_DEACTIVATED)
                       (authorizations d)) d in
    ret (AcmeResponseAccount account, with_db d st)
  else
    match reg_contact message with
    | _ :: _ =>
        check! ContactValidationMixin.validate_contacts validate_email (reg_contact message) in
        let account := AcmeAccount.set_contact
                         (String.concat newline (reg_contact message)) account in
        let d := with_accounts (save AcmeAccount.pk account (accounts d)) d in
        ret (AcmeResponseAccount account, with_db d st)
    | [] => raise (AcmeMalformed malformed "Only contact information can be updated.")
    end.

(** *** [AcmeOrderView.acme_request] *)
Definition AcmeOrderView_acme_request (account : AcmeAccount.row) (slug : string)
    (st : state) : result (response * state) :=
  let d := st_db st in
  let! order := get_or_unauthorized
      (filter (fun o => order_viewable d o && order_of_account account o
                        && slug_is AcmeOrder.slug (Some slug) o) (orders d)) in
  let authorizations := order_authorizations d order in
  let authorizations :=
    if bool_decide (AcmeOrder.status_ order = AcmeOrder.STATUS_VALID
                    \/ AcmeOrder.status_ order = AcmeOrder.STATUS_INVALID)
    then filter (fun a => bool_decide (AcmeAuthorization.status_ a
                                       = AcmeAuthorization.STATUS_VALID)) authorizations
    else authorizations in
  let! cert_url :=
    match get (filter (fun c => Nat.eqb (AcmeCertificate.order c) (AcmeOrder.pk order))
                 (certificates d)) with
    | inr cert =>
        if truthy_obj (AcmeCertificate.cert cert)
           && bool_decide (AcmeOrder.status_ order = AcmeOrder.STATUS_VALID)
        then ret (Some (AcmeCertificate.slug cert)) else ret None
    | inl DoesNotExist => ret None
    | inl e => raise e
    end in
  ret (AcmeResponseOrder
         {| doc_status := AcmeOrder.status_ order;
            doc_expires := AcmeOrder.expires order;
            doc_identifiers := map identifier_of authorizations;
            doc_authorizations := map AcmeAuthorization.slug authorizations;
            doc_certificate := cert_url;
            doc_location := AcmeOrder.slug order |}, st).

(** *** [AcmeOrderFinalizeView.validate_csr] *)
Definition validate_csr (message : CertificateRequest)
    (authorizations : list AcmeAuthorization.row) : result string :=
  let csr := parse_acme_csr (csr message) in
  if negb (x509.is_signature_valid csr) then
    raise (AcmeBadCSR "CSR signature is not valid.")
  else if bool_decide (x509.signature_hash_algorithm csr = x509.MD5
                       \/ x509.signature_hash_algorithm csr = x509.SHA1) then
    raise (AcmeBadCSR (x509.hash_name (x509.signature_hash_algorithm csr)
                       +:+ ": Insecure hash algorithm."))
  else
    let names_from_order : gset x509.GeneralName :=
      list_to_set (map authorization_general_name authorizations) in
    check!
      match x509.subject csr with
      | [] => ret tt
      | _ :: _ =>
          check! check_name (x509.subject csr) in
          match List.find (fun attr => bool_decide (x509.oid attr = x509.COMMON_NAME))
                  (x509.subject csr) with
          | Some common_name =>
              let! name := x509_DNSName (x509.value common_name) in
              if bool_decide (name ∉ names_from_order)
              then raise (AcmeBadCSR "CommonName was not in order.")
              else ret tt
          | None => ret tt
          end
      end in
    match x509.subject_alternative_name csr with
    | None => raise (AcmeBadCSR "No subject alternative names found in CSR.")
    | Some names =>
        let names_from_csr : gset x509.GeneralName := list_to_set names in
        if bool_decide (names_from_order ≠ names_from_csr) then
          raise (AcmeBadCSR "Names in CSR do not match.")
        else ret (x509.public_bytes csr)
    end.

(** *** [AcmeOrderFinalizeView.acme_request]

    [cert_slug] is the random slug the new [AcmeCertificate] row gets. *)
Definition AcmeOrderFinalizeView_acme_request (account : AcmeAccount.row)
    (message : CertificateRequest) (slug : option string) (cert_slug : string)
    (st : state) : result (response * state) :=
  let d := st_db st in
  let! order := get_or_unauthorized
      (filter (fun o => order_viewable d o && order_of_account account o
                        && slug_is AcmeOrder.slug slug o) (orders d)) in
  if bool_decide (AcmeOrder.status_ order ≠ AcmeOrder.STATUS_READY) then
    raise (AcmeForbidden "orderNotReady" "This order is not yet ready.")
  else
    let authorizations := order_authorizations d order in
    if existsb (fun auth => bool_decide (AcmeAuthorization.status_ auth
                                         ≠ AcmeAuthorization.STATUS_VALID)) authorizations
    then raise (AcmeForbidden "orderNotReady" "This order is not yet ready.")
    else
      let! csr := validate_csr message authorizations in
      let cert := {| AcmeCertificate.pk := next_pk AcmeCertificate.pk (certificates d);
                     AcmeCertificate.slug := cert_slug;
                     AcmeCertificate.order := AcmeOrder.pk order;
                     AcmeCertificate.csr := csr;
                     AcmeCertificate.cert := None |} in
      let d := with_certificates (certificates d ++ [cert]) d in
      let order := AcmeOrder.set_status AcmeOrder.STATUS_PROCESSING order in
      let d := with_orders (save AcmeOrder.pk order (orders d)) d in
      let st := on_commit (acme_issue_certificate (AcmeCertificate.pk cert)) (with_db d st) in
      ret (AcmeResponseOrder
             {| doc_status := AcmeOrder.status_ order;
                doc_expires := AcmeOrder.expires order;
                doc_identifiers := map identifier_of authorizations;
                doc_authorizations := map AcmeAuthorization.slug authorizations;
                doc_certificate := None;
                doc_location := AcmeOrder.slug order |}, st).

(** Modelled from the spec: [AcmeOrder.objects.create] and
    [AcmeOrder.add_authorizations] are defined in [models.py], not in the
    views.  A new order starts out pending; "on creation,
    one Authorization per distinct Identifier is created in pending
    status".  [order_slug] and [auth_slug] stand for the random slugs the
    rows get, [expires] for the expiry the model computes. *)
Definition AcmeOrder_create (d : db) (account : AcmeAccount.row)
    (not_before not_after : option Z) (order_slug : string) (expires : Z) : AcmeOrder.row :=
  {| AcmeOrder.pk := next_pk AcmeOrder.pk (orders d);
     AcmeOrder.slug := order_slug;
     AcmeOrder.account := AcmeAccount.pk account;
     AcmeOrder.status_ := AcmeOrder.STATUS_PENDING;
     AcmeOrder.expires := expires;
     AcmeOrder.not_before := not_before;
     AcmeOrder.not_after := not_after |}.

Definition add_authorizations (d : db) (order : AcmeOrder.row)
    (identifiers : list (string * string)) (auth_slug : nat -> string) (expires : Z)
  : list AcmeAuthorization.row :=
  let base := next_pk AcmeAuthorization.pk (authorizations d) in
  imap (fun i ident =>
          {| AcmeAuthorization.pk := (base + i)%nat;
             AcmeAuthorization.slug := auth_slug (base + i)%nat;
             AcmeAuthorization.order := AcmeOrder.pk order;
             AcmeAuthorization.type := ident.1;
             AcmeAuthorization.value := ident.2;
             AcmeAuthorization.status_ := AcmeAuthorization.STATUS_PENDING;
             AcmeAuthorization.expires := expires |})
       (remove_dups identifiers).

(** *** [AcmeNewOrderView.acme_request]

    [now] is [timezone.now()]; times are absolute microseconds, so the
    conversions between naive and aware values leave them as they are.
    [max_validity] and [order_validity] are the configured
    [CA_ACME_MAX_CERT_VALIDITY] and [CA_ACME_ORDER_VALIDITY], if any. *)
Definition AcmeNewOrderView_acme_request (now : Z)
    (max_validity order_validity : option ca_settings.validity_setting)
    (account : AcmeAccount.row) (message : NewOrder)
    (order_slug : string) (auth_slug : nat -> string)
    (st : state) : result (response * state) :=
  let d := st_db st in
  if match not_before message with Some nb => nb <? now | None => false end then
    raise (AcmeMalformed malformed "Certificate cannot be valid before now.")
  else if match not_after message with
          | Some na => now + ca_settings.ACME_MAX_CERT_VALIDITY max_validity <? na
          | None => false end then
    raise (AcmeMalformed malformed "Certificate cannot be valid that long.")
  else if match not_before message, not_after message with
          | Some nb, Some na => na <? nb
          | _, _ => false end then
    raise (AcmeMalformed malformed "notBefore must be before notAfter.")
  else
    match identifiers message with
    | [] => raise (AcmeMalformed malformed "The following fields are required: identifiers")
    | _ :: _ =>
        let expires := now + ca_settings.ACME_ORDER_VALIDITY order_validity in
        let order := AcmeOrder_create d account (not_before message) (not_after message)
                       order_slug expires in
        let d := with_orders (orders d ++ [order]) d in
        let authzs := add_authorizations d order (identifiers message) auth_slug expires in
        let d := with_authorizations (authorizations d ++ authzs) d in
        ret (AcmeResponseOrderCreated
               {| doc_status := AcmeOrder.status_ order;
                  doc_expires := AcmeOrder.expires order;
                  doc_identifiers := identifiers message;
                  doc_authorizations := map AcmeAuthorization.slug authzs;
                  doc_certificate := None;
                  doc_location := AcmeOrder.slug order |}, with_db d st)
    end.

(** *** [AcmeCertificateView.acme_request] *)
Definition AcmeCertificateView_acme_request (account : AcmeAccount.row) (slug : string)
    (st : state) : result (response * state) :=
  let d := st_db st in
  let! cert := get_or_unauthorized
      (filter (fun c => cert_viewable d c && cert_of_account d account c
                        && slug_is AcmeCertificate.slug (Some slug) c) (certificates d)) in
  match AcmeCertificate.cert cert with
  | None => raise (AttributeError "'NoneType' object has no attribute 'bundle'")
  | Some bundle =>
      ret (HttpResponse (String.concat newline bundle) "application/pem-certificate-chain", st)
  end.

(** *** [AcmeAuthorizationView.acme_request] *)
Definition AcmeAuthorizationView_acme_request (account : AcmeAccount.row) (slug : string)
    (st : state) : result (response * state) :=
  let d := st_db st in
  let! auth := get_or_unauthorized
      (filter (fun a => auth_viewable d a && auth_of_account d account a
                        && slug_is AcmeAuthorization.slug (Some slug) a) (authorizations d)) in
  let '(challenges, d) := get_challenges d auth in
  let challenges :=
    if bool_decide (AcmeAuthorization.status_ auth = AcmeAuthorization.STATUS_VALID)
    then filter (fun c => bool_decide (AcmeChallenge.status_ c = AcmeChallenge.STATUS_VALID))
           challenges
    else challenges in
  ret (AcmeResponseAuthorization (identifier_of auth)
         (map (fun c => (AcmeChallenge.slug c, AcmeChallenge.status_ c)) challenges)
         (AcmeAuthorization.status_ auth) (AcmeAuthorization.expires auth), with_db d st).

(** *** [AcmeChallengeView.acme_request] *)
Definition AcmeChallengeView_acme_request (account : AcmeAccount.row) (slug : string)
    (st : state) : result (response * state) :=
  let d := st_db st in
  let! challenge := get_or_unauthorized
      (filter (fun c => challenge_viewable d c && challenge_of_account d account c
                        && slug_is AcmeChallenge.slug (Some slug) c) (challenges d)) in
  let '(challenge, st) :=
    if challenge_usable d challenge then
      let challenge := AcmeChallenge.set_status AcmeChallenge.STATUS_PROCESSING challenge in
      let d := with_challenges (save AcmeChallenge.pk challenge (challenges d)) d in
      (challenge, on_commit (acme_validate_challenge (AcmeChallenge.pk challenge)) (with_db d st))
    else (challenge, st) in
  ret (AcmeResponseChallenge (AcmeChallenge.slug challenge) (AcmeChallenge.status_ challenge)
         (AcmeChallenge.validated challenge), st).

(** *** The views as [view]s

    [AcmeMessageBaseView.process_acme_request]: [json_loads] is the
    [json_loads] of the view's message class, [None] for a
    [DeserializationError] (whose text is not kept). *)
Definition AcmeMessageBaseView {M} (json_loads : string -> option M)
    (acme_request : self -> M -> option string -> state -> result (response * state))
  : view :=
  {| requires_key := false;
     process_acme_request := fun this slug st =>
       match json_loads (payload (self_jws this)) with
       | None => ret (AcmeResponseMalformedPayload "", st)
       | Some message => acme_request this message slug st
       end |}.

(** [AcmePostAsGetView.process_acme_request] *)
Definition AcmePostAsGetView (ignore_body : bool)
    (acme_request : self -> string -> state -> result (response * state)) : view :=
  {| requires_key := false;
     process_acme_request := fun this slug st =>
       if negb ignore_body && negb (String.eqb (payload (self_jws this)) "") then
         ret (AcmeResponseMalformed malformed "Non-empty payload in get-as-post request.", st)
       else
         match slug with
         | None => ret (AcmeResponseError "PostAsGet view called with slug.", st)
         | Some slug => acme_request this slug st
         end |}.

(** [self.account], which only the [kid] path of [post] sets. *)
Definition the_account (this : self) : result AcmeAccount.row :=
  match self_account this with
  | Some account => ret account
  | None => raise (AttributeError "account")
  end.

Definition AcmeAccountView (Registration_json_loads : string -> option Registration) : view :=
  AcmeMessageBaseView Registration_json_loads
    (fun _ message slug st => AcmeAccountView_acme_request message slug st).

Definition AcmeOrderView : view :=
  AcmePostAsGetView false
    (fun this slug st =>
       let! account := the_account this in AcmeOrderView_acme_request account slug st).

Definition AcmeOrderFinalizeView (CertificateRequest_json_loads : string -> option CertificateRequest)
    (cert_slug : string) : view :=
  AcmeMessageBaseView CertificateRequest_json_loads
    (fun this message slug st =>
       let! account := the_account this in
       AcmeOrderFinalizeView_acme_request account message slug cert_slug st).

Definition AcmeCertificateView : view :=
  AcmePostAsGetView false
    (fun this slug st =>
       let! account := the_account this in AcmeCertificateView_acme_request account slug st).

Definition AcmeAuthorizationView : view :=
  AcmePostAsGetView false
    (fun this slug st =>
       let! account := the_account this in AcmeAuthorizationView_acme_request account slug st).

Definition AcmeChallengeView : view :=
  AcmePostAsGetView true
    (fun this slug st =>
       let! account := the_account this in AcmeChallengeView_acme_request account slug st).

Definition AcmeNewOrderView (NewOrder_json_loads : string -> option NewOrder) (now : Z)
    (max_validity order_validity : option ca_settings.validity_setting)
    (order_slug : string) (auth_slug : nat -> string) : view :=
  AcmeMessageBaseView NewOrder_json_loads
    (fun this message _ st =>
       let! account := the_account this in
       AcmeNewOrderView_acme_request now max_validity order_validity account message
         order_slug auth_slug st).

End views.

End Views.

(** ** Certificate profiles ([profiles.py]) *)

Module Profiles.

(** *** Extension objects

    An extension object of [django_ca.extensions] is kept as its class,
    its value and its criticality. *)
Inductive ExtensionValue :=
| AuthorityKeyIdentifier (key_identifier : string)
| BasicConstraints (ca : bool) (pathlen : option nat)
| CRLDistributionPoints (value : list (list string))
| AuthorityInformationAccess (issuers ocsp : list x509.GeneralName)
| IssuerAlternativeName (value : list x509.GeneralName)
| SubjectAlternativeName (value : list x509.GeneralName)
| SubjectKeyIdentifier (digest : string)
| OtherExtension (key : string) (serialized : string).

Record Extension := { critical : bool; ext : ExtensionValue }.

#[global] Instance ExtensionValue_eq_dec : EqDecision ExtensionValue.
Proof. solve_decision. Defined.
#[global] Instance Extension_eq_dec : EqDecision Extension.
Proof. solve_decision. Defined.

(** The [key] of each extension class. *)
Definition AuthorityKeyIdentifier_key : string := "authority_key_identifier".
Definition BasicConstraints_key : string := "basic_constraints".
Definition CRLDistributionPoints_key : string := "crl_distribution_points".
Definition AuthorityInformationAccess_key : string := "authority_information_access".
Definition IssuerAlternativeName_key : string := "issuer_alternative_name".
Definition SubjectAlternativeName_key : string := "subject_alternative_name".
Definition SubjectKeyIdentifier_key : string := "subject_key_identifier".

Definition key (e : Extension) : string :=
  match ext e with
  | AuthorityKeyIdentifier _ => AuthorityKeyIdentifier_key
  | BasicConstraints _ _ => BasicConstraints_key
  | CRLDistributionPoints _ => CRLDistributionPoints_key
  | AuthorityInformationAccess _ _ => AuthorityInformationAccess_key
  | IssuerAlternativeName _ => IssuerAlternativeName_key
  | SubjectAlternativeName _ => SubjectAlternativeName_key
  | SubjectKeyIdentifier _ => SubjectKeyIdentifier_key
  | OtherExtension k _ => k
  end.

(** The extension classes called with no argument. *)
Definition new (v : ExtensionValue) : Extension := {| critical := false; ext := v |}.

(** Python truth of [extension.value]. *)
Definition value_truthy (v : ExtensionValue) : bool :=
  match v with
  | CRLDistributionPoints l => negb (Nat.eqb (List.length l) 0)
  | IssuerAlternativeName l | SubjectAlternativeName l => negb (Nat.eqb (List.length l) 0)
  | AuthorityInformationAccess i o => negb (Nat.eqb (List.length (i ++ o)%list) 0)
  | AuthorityKeyIdentifier s | SubjectKeyIdentifier s => negb (String.eqb s "")
  | BasicConstraints _ _ | OtherExtension _ _ => true
  end.

(** *** Objects and references

    Extension objects are mutable and shared: the dictionaries of
    [create_cert] hold references into a store of objects.  A reference is
    an index into the store; a new object goes to its end. *)
Abbreviation loc := nat.
Abbreviation store := (list Extension).

Definition alloc (e : Extension) (h : store) : loc * store := (List.length h, (h ++ [e])%list).

(** Change the object behind a reference in place. *)
Definition mutate (l : loc) (f : ExtensionValue -> result ExtensionValue) (h : store)
  : result store :=
  match h !! l with
  | None => raise (AttributeError "no such object")
  | Some e =>
      let! v := f (ext e) in
      ret (<[l := {| critical := critical e; ext := v |}]> h)
  end.

(** A dictionary of references read as a dictionary of values. *)
Definition view (h : store) (d : gmap string loc) : gmap string Extension :=
  omap (fun l => h !! l) d.

(** [dict.setdefault(key, default)] on a dictionary of references. *)
Definition setdefault (k : string) (default : Extension) (d : gmap string loc) (h : store)
  : gmap string loc * store :=
  match d !! k with
  | Some _ => (d, h)
  | None => let '(l, h) := alloc default h in (<[k := l]> d, h)
  end.

(** [deepcopy] of a dictionary of extension objects: a fresh object for
    every entry. *)
Fixpoint deepcopy_items (items : list (string * Extension)) (acc : gmap string loc)
    (h : store) : gmap string loc * store :=
  match items with
  | [] => (acc, h)
  | (k, e) :: rest =>
      let '(l, h) := alloc e h in deepcopy_items rest (<[k := l]> acc) h
  end.

Definition deepcopy (d : gmap string Extension) (h : store) : gmap string loc * store :=
  deepcopy_items (map_to_list d) ∅ h.

(** *** Subjects ([subject.py]): a mapping from field to value. *)
Abbreviation Subject := (gmap string string).

(** Python truth of [subject.get("CN")]. *)
Definition has_CN (s : Subject) : bool :=
  match s !! "CN" with Some v => negb (String.eqb v "") | None => false end.

(** *** Profiles and authorities *)
Record Profile := {
  name : string;
  subject : Subject;
  algorithm : x509.HashAlgorithm;
  (** the profile's own extension objects; [create_cert] only ever works
      on copies of them *)
  extensions : gmap string Extension;
  cn_in_san : bool;
  expires : Z;
  issuer_name : option string;
  add_crl_url : bool;
  add_ocsp_url : bool;
  add_issuer_url : bool;
  add_issuer_alternative_name : bool;
  description : string;
}.

Record CertificateAuthority := {
  (** [ca.get_authority_key_identifier_extension()] *)
  authority_key_identifier : Extension;
  crl_url : string;
  ocsp_url : string;
  issuer_url : string;
  issuer_alt_name : string;
  (** [ca.x509_cert.subject] *)
  x509_subject : string;
}.

(** A value of the [extensions] dictionary a caller passes: an extension
    object of the caller's, [None], or a serialized value. *)
Inductive override_value :=
| OvExtension (l : loc)
| OvNone
| OvSerialized (raw : string).

(** The [extensions] argument of [create_cert]: [None], a dictionary (its
    items in order) or a list of the caller's extension objects. *)
Inductive extensions_arg :=
| ExtNone
| ExtDict (items : list (string * override_value))
| ExtList (exts : list loc).

(** Lines 255 to 257 of [create_cert]: [cert_extensions.update(extensions)]
    and the comprehension that drops the [None] values. *)
Definition merge_extensions {V} (cert_extensions : gmap string V)
    (extensions : gmap string (option V)) : gmap string V :=
  omap id (extensions ∪ (Some <$> cert_extensions)).

(** What [create_cert] hands to the signal and to the certificate builder. *)
Record resolved := {
  cert_subject : Subject;
  cert_extensions : gmap string Extension;
  cert_issuer : string;
  cert_expires : Z;
  cert_algorithm : x509.HashAlgorithm;
}.

Definition must_name : string := "Must name at least a CN or a subjectAlternativeName.".

Fixpoint mapM {A B} (f : A -> result B) (l : list A) : result (list B) :=
  match l with
  | [] => ret []
  | x :: l' => let! y := f x in let! ys := mapM f l' in ret (y :: ys)
  end.

Section create_cert.

(** [KEY_TO_EXTENSION[key](value)], [utils.parse_general_name],
    [str.split()], [utils.shlex_split(.., ",")], [utils.parse_hash_algorithm]
    and [utils.parse_expires]: library and helper code [profiles.py]
    calls.  The fallible ones give the exception they raise. *)
Variable KEY_TO_EXTENSION : string -> string -> result Extension.
Variable parse_general_name : string -> result x509.GeneralName.
Variable str_split : string -> list string.
Variable shlex_split : string -> list string.
Variable parse_hash_algorithm : string -> result x509.HashAlgorithm.
Variable parse_expires : Z -> Z.

(** Modelled from the spec: [SubjectAlternativeName.get_common_name] is
    defined in [extensions], not in [profiles.py]; the spec has the subject
    "adopt the first SAN value's bare string as the Common Name". *)
Definition general_name_text (g : x509.GeneralName) : string :=
  match g with
  | x509.DNSName v | x509.RFC822Name v | x509.UniformResourceIdentifier v
  | x509.IPAddress v | x509.DirectoryName v | x509.RegisteredID v
  | x509.OtherName v => v
  end.

Definition get_common_name (names : list x509.GeneralName) : option string :=
  match names with
  | [] => None
  | g :: _ => Some (general_name_text g)
  end.

(** [Profile._parse_extension_value] *)
Definition _parse_extension_value (k : string) (value : override_value) (h : store)
  : result (option loc * store) :=
  match value with
  | OvExtension l => ret (Some l, h)
  | OvNone => ret (None, h)
  | OvSerialized raw =>
      let! e := KEY_TO_EXTENSION k raw in
      let '(l, h) := alloc e h in ret (Some l, h)
  end.

(** [{k: self._parse_extension_value(k, v) for k, v in extensions.items()}] *)
Fixpoint parse_items (items : list (string * override_value))
    (acc : gmap string (option loc)) (h : store)
  : result (gmap string (option loc) * store) :=
  match items with
  | [] => ret (acc, h)
  | (k, v) :: rest =>
      let! (x, h) := _parse_extension_value k v h in
      parse_items rest (<[k := x]> acc) h
  end.

(** [{e.key: e for e in extensions}] *)
Fixpoint key_items (exts : list loc) (acc : gmap string (option loc)) (h : store)
  : result (gmap string (option loc)) :=
  match exts with
  | [] => ret acc
  | l :: rest =>
      match h !! l with
      | None => raise (AttributeError "no such object")
      | Some e => key_items rest (<[key e := Some l]> acc) h
      end
  end.

(** Lines 236 to 241 of [create_cert]. *)
Definition normalize_extensions (extensions : extensions_arg) (h : store)
  : result (gmap string (option loc) * store) :=
  match extensions with
  | ExtNone => ret (∅, h)
  | ExtDict items => parse_items items ∅ h
  | ExtList exts => let! d := key_items exts ∅ h in ret (d, h)
  end.

(** [extensions[key].value.append(...)] and its siblings: the object has
    to be of the class that goes with the key. *)
Definition append_distribution_point (full_name : list string) (v : ExtensionValue)
  : result ExtensionValue :=
  match v with
  | CRLDistributionPoints l => ret (CRLDistributionPoints (l ++ [full_name])%list)
  | _ => raise (AttributeError "value")
  end.

Definition append_ocsp (g : x509.GeneralName) (v : ExtensionValue) : result ExtensionValue :=
  match v with
  | AuthorityInformationAccess i o => ret (AuthorityInformationAccess i (o ++ [g])%list)
  | _ => raise (AttributeError "ocsp")
  end.

Definition append_issuers (g : x509.GeneralName) (v : ExtensionValue) : result ExtensionValue :=
  match v with
  | AuthorityInformationAccess i o => ret (AuthorityInformationAccess (i ++ [g])%list o)
  | _ => raise (AttributeError "issuers")
  end.

Definition extend_names (gs : list x509.GeneralName) (v : ExtensionValue)
  : result ExtensionValue :=
  match v with
  | IssuerAlternativeName l => ret (IssuerAlternativeName (l ++ gs)%list)
  | SubjectAlternativeName l => ret (SubjectAlternativeName (l ++ gs)%list)
  | _ => raise (AttributeError "extend")
  end.

(** [common_name not in san_ext] followed by [san_ext.append(common_name)] *)
Definition append_if_missing (g : x509.GeneralName) (v : ExtensionValue)
  : result ExtensionValue :=
  match v with
  | SubjectAlternativeName l =>
      if bool_decide (g ∈ l) then ret v else ret (SubjectAlternativeName (l ++ [g])%list)
  | IssuerAlternativeName l =>
      if bool_decide (g ∈ l) then ret v else ret (IssuerAlternativeName (l ++ [g])%list)
  | _ => raise (AttributeError "append")
  end.

Definition truthy (s : string) : bool := negb (String.eqb s "").

(** One [setdefault] followed by a change of the object under the key. *)
Definition setdefault_mutate (k : string) (default : ExtensionValue)
    (f : ExtensionValue -> result ExtensionValue) (d : gmap string loc) (h : store)
  : result (gmap string loc * store) :=
  let '(d, h) := setdefault k (new default) d h in
  match d !! k with
  | None => raise (AttributeError "no such key")
  | Some l => let! h := mutate l f h in ret (d, h)
  end.

(** [Profile._update_from_ca] *)
Definition _update_from_ca (self : Profile) (ca : CertificateAuthority)
    (extensions : gmap string loc)
    (add_crl_url add_ocsp_url add_issuer_url add_issuer_alternative_name : bool)
    (h : store) : result (string * gmap string loc * store) :=
  let '(d, h) := setdefault AuthorityKeyIdentifier_key (authority_key_identifier ca)
                   extensions h in
  let! (d, h) :=
    if add_crl_url && truthy (crl_url ca) then
      setdefault_mutate CRLDistributionPoints_key (CRLDistributionPoints [])
        (append_distribution_point (str_split (crl_url ca))) d h
    else ret (d, h) in
  let! (d, h) :=
    if add_ocsp_url && truthy (ocsp_url ca) then
      let '(d, h) := setdefault AuthorityInformationAccess_key
                       (new (AuthorityInformationAccess [] [])) d h in
      let! g := parse_general_name (ocsp_url ca) in
      match d !! AuthorityInformationAccess_key with
      | None => raise (AttributeError "no such key")
      | Some l => let! h := mutate l (append_ocsp g) h in ret (d, h)
      end
    else ret (d, h) in
  let! (d, h) :=
    if add_issuer_url && truthy (issuer_url ca) then
      let '(d, h) := setdefault AuthorityInformationAccess_key
                       (new (AuthorityInformationAccess [] [])) d h in
      let! g := parse_general_name (issuer_url ca) in
      match d !! AuthorityInformationAccess_key with
      | None => raise (AttributeError "no such key")
      | Some l => let! h := mutate l (append_issuers g) h in ret (d, h)
      end
    else ret (d, h) in
  let! (d, h) :=
    if add_issuer_alternative_name && truthy (issuer_alt_name ca) then
      let '(d, h) := setdefault IssuerAlternativeName_key
                       (new (IssuerAlternativeName [])) d h in
      let! gs := mapM parse_general_name (shlex_split (issuer_alt_name ca)) in
      match d !! IssuerAlternativeName_key with
      | None => raise (AttributeError "no such key")
      | Some l => let! h := mutate l (extend_names gs) h in ret (d, h)
      end
    else ret (d, h) in
  match issuer_name self with
  | Some n => if truthy n then ret (n, d, h) else ret (x509_subject ca, d, h)
  | None => ret (x509_subject ca, d, h)
  end.

(** [Profile._update_san_from_cn] *)
Definition _update_san_from_cn (cn_in_san : bool) (subject : Subject)
    (extensions : gmap string loc) (h : store)
  : result (Subject * gmap string loc * store) :=
  if has_CN subject && cn_in_san then
    let! common_name :=
      match parse_general_name (default "" (subject !! "CN")) with
      | inl (ValueError _) =>
          raise (ValueError (default "" (subject !! "CN")
                             +:+ ": Could not parse CommonName as subjectAlternativeName."))
      | r => r
      end in
    let! (d, h) := setdefault_mutate SubjectAlternativeName_key (SubjectAlternativeName [])
                      (append_if_missing common_name) extensions h in
    ret (subject, d, h)
  else if negb (has_CN subject) then
    match extensions !! SubjectAlternativeName_key with
    | Some l =>
        match h !! l with
        | Some {| ext := SubjectAlternativeName names |}
        | Some {| ext := IssuerAlternativeName names |} =>
            match get_common_name names with
            | Some cn_from_san => ret (<["CN" := cn_from_san]> subject, extensions, h)
            | None => ret (subject, extensions, h)
            end
        | _ => raise (AttributeError "get_common_name")
        end
    | None => ret (subject, extensions, h)
    end
  else ret (subject, extensions, h).


(** The extension dictionary of [create_cert] as lines 236 to 257 build
    it: the caller's [extensions] made a dictionary, and merged over a deep
    copy of the profile's.  Also gives back the caller's dictionary, which
    the last check of [create_cert] reads.  (The defaults of lines 244 to
    253, which sit in between, touch neither.) *)
Definition create_cert_extensions (self : Profile) (extensions : extensions_arg) (h : store)
  : result (gmap string loc * gmap string (option loc) * store) :=
  let! (extensions, h) := normalize_extensions extensions h in
  let '(cert_extensions, h) := deepcopy (Profiles.extensions self) h in
  ret (merge_extensions cert_extensions extensions, extensions, h).

(** [Profile.create_cert], up to the point where the resolved values go to
    the [pre_issue_cert] signal and the certificate builder.  [h] holds
    the caller's extension objects. *)
Definition create_cert (self : Profile) (ca : CertificateAuthority)
    (subject : option Subject) (expires : option Z) (algorithm : option string)
    (extensions : extensions_arg) (cn_in_san : option bool)
    (add_crl_url add_ocsp_url add_issuer_url add_issuer_alternative_name : option bool)
    (h : store) : result (resolved * store) :=
  let! (cert_extensions, extensions, h) := create_cert_extensions self extensions h in
  let cn_in_san := default (Profiles.cn_in_san self) cn_in_san in
  let add_crl_url := default (Profiles.add_crl_url self) add_crl_url in
  let add_ocsp_url := default (Profiles.add_ocsp_url self) add_ocsp_url in
  let add_issuer_url := default (Profiles.add_issuer_url self) add_issuer_url in
  let add_issuer_alternative_name :=
    default (Profiles.add_issuer_alternative_name self) add_issuer_alternative_name in
  let cert_subject := Profiles.subject self in
  let! (issuer_name, cert_extensions, h) :=
    _update_from_ca self ca cert_extensions add_crl_url add_ocsp_url add_issuer_url
      add_issuer_alternative_name h in
  let subject := default ∅ subject in
  let cert_subject := subject ∪ cert_subject in
  let expires := default (Profiles.expires self) expires in
  let! algorithm :=
    match algorithm with
    | None => ret (Profiles.algorithm self)
    | Some a => parse_hash_algorithm a
    end in
  let expires := parse_expires expires in
  let! (cert_subject, cert_extensions, h) :=
    _update_san_from_cn cn_in_san cert_subject cert_extensions h in
  check!
    if has_CN subject then ret tt
    else
      match extensions !! SubjectAlternativeName_key with
      | None => raise (ValueError must_name)
      | Some None => raise (AttributeError "'NoneType' object has no attribute 'value'")
      | Some (Some l) =>
          match h !! l with
          | None => raise (AttributeError "no such object")
          | Some e => if value_truthy (ext e) then ret tt else raise (ValueError must_name)
          end
      end in
  ret ({| cert_subject := cert_subject;
          cert_extensions := view h cert_extensions;
          cert_issuer := issuer_name;
          cert_expires := expires;
          cert_algorithm := algorithm |}, h).

End create_cert.

End Profiles.

(** ** Registering an account ([AcmeNewAccountView]) *)

Module NewAccountView.

(** [messages.Registration] as [AcmeNewAccountView] reads it: the contacts
    and the two flags.  ([AcmeAccountView] reads the status and the
    contacts, see [Views.Registration].) *)
Record Registration := {
  contact : list string;
  only_return_existing : bool;
  terms_of_service_agreed : bool;
}.

Section acme_request.

(** [utils.validate_email], as in [ContactValidationMixin]. *)
Variable validate_email : string -> bool.
(** Of the key of the request, [self.jwk]: the PEM text of its public key
    and the base64url text of its thumbprint. *)
Variable jwk_pem : string -> string.
Variable jwk_thumbprint : string -> string.
(** [message.emails], a property of the [acme] library's message class. *)
Variable emails : Registration -> list string.
(** [AcmeAccount.set_kid] and [AcmeAccount.full_clean] of [models.py]: the
    key id the account gets for a request, from the serial of its authority
    and its slug; and the model validation, [Some] of the listed problems
    when it raises [ValidationError]. *)
Variable kid_url : HttpRequest -> string -> string -> string.
Variable full_clean : db -> AcmeAccount.row -> option string.

(** [AcmeAccount.objects.get(thumbprint=thumbprint, pem=pem)] *)
Definition get_by_key (thumbprint pem : string) (d : db) : result AcmeAccount.row :=
  get (filter (fun a => String.eqb (AcmeAccount.thumbprint a) thumbprint
                        && String.eqb (AcmeAccount.pem a) pem) (accounts d)).

(** [AcmeNewAccountView.acme_request].  [account_slug] is the random slug
    the new [AcmeAccount] gets. *)
Definition acme_request (this : self) (message : Registration) (account_slug : string)
    (st : state) : result (response * state) :=
  let d := st_db st in
  let pem := jwk_pem (self_jwk this) in
  let thumbprint := jwk_thumbprint (self_jwk this) in
  if only_return_existing message then
    match get_by_key thumbprint pem d with
    | inr account => ret (AcmeResponseAccount account, st)
    | inl DoesNotExist =>
        raise (AcmeMalformed "accountDoesNotExist" "Account does not exist.")
    | inl e => raise e
    end
  else
    match get_by_key thumbprint pem d with
    | inr account => ret (AcmeResponseAccount account, st)
    | inl DoesNotExist =>
        if CertificateAuthority.acme_requires_contact (self_ca this)
           && match emails message with [] => true | _ :: _ => false end
        then raise (AcmeUnauthorized (Some "Must provide at least one contact address."))
        else
          check! ContactValidationMixin.validate_contacts validate_email (contact message) in
          let account :=
            {| AcmeAccount.pk := next_pk AcmeAccount.pk (accounts d);
               AcmeAccount.slug := account_slug;
               AcmeAccount.ca := CertificateAuthority.serial (self_ca this);
               AcmeAccount.kid :=
                 kid_url (self_request this) (CertificateAuthority.serial (self_ca this))
                   account_slug;
               AcmeAccount.status_ := AcmeAccount.STATUS_VALID;
               AcmeAccount.contact := String.concat Views.newline (contact message);
               AcmeAccount.terms_of_service_agreed := terms_of_service_agreed message;
               AcmeAccount.thumbprint := thumbprint;
               AcmeAccount.pem := pem |} in
          match full_clean d account with
          | Some subproblems =>
              raise (AcmeMalformed malformed ("Invalid account: " +:+ subproblems +:+ "."))
          | None =>
              ret (AcmeResponseAccountCreated account,
                   with_db (with_accounts (accounts d ++ [account]) d) st)
          end
    | inl e => raise e
    end.

(** The view: [requires_key = True], and the [process_acme_request] of
    [AcmeMessageBaseView]. *)
Definition AcmeNewAccountView (Registration_json_loads : string -> option Registration)
    (account_slug : string) : view :=
  {| requires_key := true;
     process_acme_request :=
       process_acme_request
         (Views.AcmeMessageBaseView Registration_json_loads
            (fun this message _ st => acme_request this message account_slug st)) |}.

End acme_request.

End NewAccountView.

(** ** The directory ([AcmeDirectory]) *)

Module Directory.

(** The values of the directory object and of its [meta] object. *)
Inductive meta_value :=
| MetaText (text : string)
| MetaList (texts : list string).

Inductive entry :=
| Url (url : string)
| Meta (fields : gmap string meta_value).

(** What [get] does: raise [Http404] or let another exception escape, or
    return one of its two responses. *)
Inductive outcome :=
| Http404 (message : string)
| Raises (e : exn)
| AcmeResponseNotFound (message : string)
| JsonResponse (directory : gmap string entry).

Definition random_entries : string :=
  "https://community.letsencrypt.org/t/adding-random-entries-to-the-directory/33417".

Section get.

(** [ca_settings.CA_ENABLE_ACME] *)
Variable CA_ENABLE_ACME : bool.
(** [CertificateAuthority.objects.acme().usable()] and
    [CertificateAuthority.objects.acme().default()], [None] where the
    latter raises [ImproperlyConfigured]. *)
Variable ca_acme_usable : CertificateAuthority.row -> bool.
Variable default_ca : db -> option CertificateAuthority.row.
(** The fields of the authority the directory shows. *)
Variable website : CertificateAuthority.row -> string.
Variable terms_of_service : CertificateAuthority.row -> string.
Variable caa_identity : CertificateAuthority.row -> string.
(** [request.build_absolute_uri(reverse(f"django_ca:{name}", kwargs={"serial": serial}))] *)
Variable reverse_uri : HttpRequest -> string -> string -> string.

(** [AcmeDirectory._url] *)
Definition _url (request : HttpRequest) (name : string) (ca : CertificateAuthority.row)
  : string :=
  reverse_uri request name (CertificateAuthority.serial ca).

(** The [meta] object: a field for every attribute of the authority that
    is set. *)
Definition meta_of (ca : CertificateAuthority.row) : gmap string meta_value :=
  let meta : gmap string meta_value := ∅ in
  let meta := if Profiles.truthy (website ca)
              then <["website" := MetaText (website ca)]> meta else meta in
  let meta := if Profiles.truthy (terms_of_service ca)
              then <["termsOfService" := MetaText (terms_of_service ca)]> meta else meta in
  let meta := if Profiles.truthy (caa_identity ca)
              then <["caaIdentities" := MetaList [caa_identity ca]]> meta else meta in
  meta.

(** [AcmeDirectory.get].  [rnd] is the base64url text of the 16 random
    bytes.  The dictionary display lists [rnd] first, so that a later key
    of the same name would replace it. *)
Definition get (request : HttpRequest) (serial : option string) (rnd : string) (d : db)
  : outcome :=
  if negb CA_ENABLE_ACME then Http404 "Page not found."
  else
    let found :=
      match serial with
      | None =>
          match default_ca d with
          | Some ca => inr ca
          | None => inl (AcmeResponseNotFound "No (usable) default CA configured.")
          end
      | Some serial =>
          match get_ca ca_acme_usable serial d with
          | inr ca => inr ca
          | inl DoesNotExist => inl (AcmeResponseNotFound (serial +:+ ": CA not found."))
          | inl e => inl (Raises e)
          end
      end in
    match found with
    | inl response => response
    | inr ca =>
        let directory : gmap string entry :=
          <["revokeCert" := Url "http://localhost:8000/django_ca/acme/todo/revoke-cert"]>
            (<["newOrder" := Url (_url request "acme-new-order" ca)]>
               (<["newNonce" := Url (_url request "acme-new-nonce" ca)]>
                  (<["newAccount" := Url (_url request "acme-new-account" ca)]>
                     (<["keyChange" :=
                          Url "http://localhost:8000/django_ca/acme/todo/key-change"]>
                        (<[rnd := Url random_entries]> ∅))))) in
        let meta := meta_of ca in
        let directory :=
          if bool_decide (meta = ∅) then directory else <["meta" := Meta meta]> directory in
        JsonResponse directory
    end.

End get.

End Directory.

(** ** Building a profile ([Profile.__init__], [Profiles.__getitem__]) *)

Module ProfileInit.

Import Profiles.

(** A value of the [extensions] argument of [Profile]: an extension
    object, or a serialized value that is cast to the class of its key. *)
Inductive extension_arg :=
| ArgExtension (e : Extension)
| ArgSerialized (raw : string).

Section init.

(** [KEY_TO_EXTENSION[key](value)] and [utils.parse_hash_algorithm]; the
    [BasicConstraints()] object of [extensions]; [CA_DEFAULT_SUBJECT] and
    [CA_DEFAULT_EXPIRES] of [ca_settings]. *)
Variable KEY_TO_EXTENSION : string -> string -> result Extension.
Variable parse_hash_algorithm : option string -> result x509.HashAlgorithm.
Variable BasicConstraints_new : Extension.
Variable CA_DEFAULT_SUBJECT : Subject.
Variable CA_DEFAULT_EXPIRES : Z.

(** The loop that casts the extensions to their classes, over the items
    of the dictionary in their order. *)
Fixpoint cast_extensions (items : list (string * extension_arg))
    (acc : gmap string Extension) : result (gmap string Extension) :=
  match items with
  | [] => ret acc
  | (k, ArgExtension e) :: rest => cast_extensions rest (<[k := e]> acc)
  | (k, ArgSerialized raw) :: rest =>
      let! e := KEY_TO_EXTENSION k raw in cast_extensions rest (<[k := e]> acc)
  end.

(** [dict.setdefault(key, default)] on a dictionary of values. *)
Definition setdefault_value (k : string) (default : Extension) (d : gmap string Extension)
  : gmap string Extension :=
  match d !! k with Some _ => d | None => <[k := default]> d end.

(** [Profile.__init__].  [extensions] is [None] or the items of the
    dictionary; [expires] is [None], a number of days or a [timedelta].
    The [autogenerated] flag, which nothing in [profiles.py] reads, is not
    kept. *)
Definition __init__ (name : string) (subject : option Subject) (algorithm : option string)
    (extensions : option (list (string * extension_arg))) (cn_in_san : bool)
    (expires : option ca_settings.validity_setting) (issuer_name : option string)
    (description : string)
    (add_crl_url add_ocsp_url add_issuer_url add_issuer_alternative_name : bool)
  : result Profile :=
  let expires :=
    match expires with
    | Some (ca_settings.Days n) => Some (ca_settings.timedelta n 0)
    | Some (ca_settings.Timedelta d) => Some d
    | None => None
    end in
  let subject := match subject with Some s => s | None => CA_DEFAULT_SUBJECT end in
  let! algorithm := parse_hash_algorithm algorithm in
  let! extensions := cast_extensions (default [] extensions) ∅ in
  let extensions := setdefault_value BasicConstraints_key BasicConstraints_new extensions in
  ret {| Profiles.name := name;
         Profiles.subject := subject;
         Profiles.algorithm := algorithm;
         Profiles.extensions := extensions;
         Profiles.cn_in_san := cn_in_san;
         Profiles.expires :=
           match expires with
           | Some t => if Z.eqb t 0 then CA_DEFAULT_EXPIRES else t
           | None => CA_DEFAULT_EXPIRES
           end;
         Profiles.issuer_name := issuer_name;
         Profiles.add_crl_url := add_crl_url;
         Profiles.add_ocsp_url := add_ocsp_url;
         Profiles.add_issuer_url := add_issuer_url;
         Profiles.add_issuer_alternative_name := add_issuer_alternative_name;
         Profiles.description := description |}.

End init.

(** *** The profile handler ([Profiles])

    [self._profiles] is an object local to the thread; its [profiles]
    attribute, the dictionary of the profiles built so far, is missing
    until the first lookup. *)
Abbreviation handler := (option (gmap string Profile)).

Section getitem.

(** [ca_settings.CA_DEFAULT_PROFILE], and [get_profile] as the handler
    calls it: the profile built from the settings, or what it raises. *)
Variable CA_DEFAULT_PROFILE : string.
Variable get_profile : string -> result Profile.

(** [Profiles.__getitem__]: the profile or the exception, and the handler
    afterwards. *)
Definition __getitem__ (name : option string) (this : handler) : result Profile * handler :=
  let name := default CA_DEFAULT_PROFILE name in
  let cached := match this with Some profiles => profiles !! name | None => None end in
  match cached with
  | Some profile => (ret profile, this)
  | None =>
      (* [except AttributeError: self._profiles.profiles = {}] *)
      let profiles := default ∅ this in
      match get_profile name with
      | inl e => (raise e, Some profiles)
      | inr profile => (ret profile, Some (<[name := profile]> profiles))
      end
  end.

(** [Profiles._reset] *)
Definition _reset (this : handler) : handler := None.

End getitem.

End ProfileInit.

(** ** More settings ([ca_settings.py]) *)

Module Settings.

(** What the module raises while it is imported. *)
Inductive error :=
| ImproperlyConfigured (message : string)
| KeyError (key : string).

(** *** [CA_DEFAULT_CA] *)

(** [s.replace(":", "")] *)
Fixpoint remove_colons (s : string) : string :=
  match s with
  | EmptyString => EmptyString
  | String a s' => if Ascii.eqb a ":" then remove_colons s' else String a (remove_colons s')
  end.

(** [s.lstrip("0")] *)
Fixpoint lstrip_zeros (s : string) : string :=
  match s with
  | String a s' => if Ascii.eqb a "0" then lstrip_zeros s' else s
  | EmptyString => EmptyString
  end.

(** A character of the class [[0-9A-F]]. *)
Definition is_hex (a : Ascii.ascii) : bool :=
  let n := Ascii.nat_of_ascii a in
  ((48 <=? n) && (n <=? 57))%nat || ((65 <=? n) && (n <=? 70))%nat.

(** [re.search("[^0-9A-F]", s)], as a truth value. *)
Fixpoint has_invalid_character (s : string) : bool :=
  match s with
  | EmptyString => false
  | String a s' => negb (is_hex a) || has_invalid_character s'
  end.

Section CA_DEFAULT_CA.

(** [str.upper] *)
Variable upper : string -> string.

(** The sanitised [CA_DEFAULT_CA], for the configured value if there is
    one. *)
Definition CA_DEFAULT_CA (configured : option string) : error + string :=
  let serial := upper (remove_colons (default "" configured)) in
  let serial := if negb (String.eqb serial "0") then lstrip_zeros serial else serial in
  if has_invalid_character serial then
    inl (ImproperlyConfigured
           ("CA_DEFAULT_CA: " +:+ serial +:+ ": Serial contains invalid characters."))
  else inr serial.

End CA_DEFAULT_CA.

(** *** [CA_PROFILES] *)

Section CA_PROFILES.

(** The values of the settings of a profile; [tuple(subject.items())] for
    a subject given as a dictionary, which leaves other values alone; and
    the two defaults as such values. *)
Variable V : Type.
Variable subject_as_tuple : V -> V.
Variable CA_DEFAULT_SUBJECT : V.
Variable True_ : V.

Abbreviation profile := (gmap string V).

(** One round of the loop over [settings.CA_PROFILES]: [None] removes the
    profile, with [KeyError] if there is none of the name; a dictionary
    updates the profile of the name, or becomes it. *)
Definition override (profiles : gmap string profile) (name : string)
    (override : option profile) : error + gmap string profile :=
  match override with
  | None =>
      match profiles !! name with
      | Some _ => inr (delete name profiles)
      | None => inl (KeyError name)
      end
  | Some given =>
      let given := alter subject_as_tuple "subject" given in
      match profiles !! name with
      | Some builtin => inr (<[name := given ∪ builtin]> profiles)
      | None => inr (<[name := given]> profiles)
      end
  end.

Fixpoint overrides (profiles : gmap string profile)
    (items : list (string * option profile)) : error + gmap string profile :=
  match items with
  | [] => inr profiles
  | (name, o) :: rest =>
      match override profiles name o with
      | inl e => inl e
      | inr profiles => overrides profiles rest
      end
  end.

(** The second loop: [setdefault] of the subject and of [cn_in_san]. *)
Definition with_defaults (p : profile) : profile :=
  let p := match p !! "subject" with
           | Some _ => p | None => <["subject" := CA_DEFAULT_SUBJECT]> p end in
  match p !! "cn_in_san" with Some _ => p | None => <["cn_in_san" := True_]> p end.

(** [CA_PROFILES] once the module is imported: [builtin] is the dictionary
    the module starts from, [configured] the items of
    [settings.CA_PROFILES], if set. *)
Definition CA_PROFILES (builtin : gmap string profile)
    (configured : option (list (string * option profile))) : error + gmap string profile :=
  match overrides builtin (default [] configured) with
  | inl e => inl e
  | inr profiles => inr (with_defaults <$> profiles)
  end.

End CA_PROFILES.

End Settings.

(** ** Example data *)

Module Examples.

Definition empty_db : db :=
  {| cas := []; accounts := []; orders := []; authorizations := [];
     challenges := []; certificates := [] |}.
Definition with_cas_example : db :=
  {| cas := [{| CertificateAuthority.serial := "3A5F";
                CertificateAuthority.acme_requires_contact := true |}];
     accounts := []; orders := []; authorizations := [];
     challenges := []; certificates := [] |}.
Definition empty_state : state := {| st_db := empty_db; st_cache := ∅; st_tasks := [] |}.
Definition jose_request (body uri : string) : HttpRequest :=
  {| content_type := "application/jose+json"; body := body; absolute_uri := uri |}.
Definition jws_without_key : JWS :=
  {| signatures := 1;
     combined := {| jwk := None; kid := None; alg := Some "RS256"; nonce := "Zm9v";
                    url := "https://ca.example.com/acme/3A5F/new-order/" |};
     payload := "" |}.


Definition alice : AcmeAccount.row :=
  {| AcmeAccount.pk := 1; AcmeAccount.slug := "acct-alice"; AcmeAccount.ca := "3A5F";
     AcmeAccount.kid := "https://ca.example.com/acme/3A5F/acct/acct-alice/";
     AcmeAccount.status_ := AcmeAccount.STATUS_VALID;
     AcmeAccount.contact := "mailto:alice@example.com";
     AcmeAccount.terms_of_service_agreed := true;
     AcmeAccount.thumbprint := "dGh1bWIx"; AcmeAccount.pem := "PEM-alice" |}.

Definition bob : AcmeAccount.row :=
  {| AcmeAccount.pk := 2; AcmeAccount.slug := "acct-bob"; AcmeAccount.ca := "3A5F";
     AcmeAccount.kid := "https://ca.example.com/acme/3A5F/acct/acct-bob/";
     AcmeAccount.status_ := AcmeAccount.STATUS_VALID;
     AcmeAccount.contact := "mailto:bob@example.net";
     AcmeAccount.terms_of_service_agreed := true;
     AcmeAccount.thumbprint := "dGh1bWIy"; AcmeAccount.pem := "PEM-bob" |}.

Definition an_order (pk account : nat) (slug : string) (status : AcmeOrder.status)
  : AcmeOrder.row :=
  {| AcmeOrder.pk := pk; AcmeOrder.slug := slug; AcmeOrder.account := account;
     AcmeOrder.status_ := status; AcmeOrder.expires := 3600000000;
     AcmeOrder.not_before := None; AcmeOrder.not_after := None |}.

Definition an_authorization (pk order : nat) (slug value : string)
    (status : AcmeAuthorization.status) : AcmeAuthorization.row :=
  {| AcmeAuthorization.pk := pk; AcmeAuthorization.slug := slug;
     AcmeAuthorization.order := order; AcmeAuthorization.type := "dns";
     AcmeAuthorization.value := value; AcmeAuthorization.status_ := status;
     AcmeAuthorization.expires := 3600000000 |}.

Definition a_challenge (pk auth : nat) (slug : string) (status : AcmeChallenge.status)
  : AcmeChallenge.row :=
  {| AcmeChallenge.pk := pk; AcmeChallenge.slug := slug; AcmeChallenge.auth := auth;
     AcmeChallenge.type := "http-01"; AcmeChallenge.status_ := status;
     AcmeChallenge.validated := None |}.

(** Alice has a ready order (1), a pending one (2) and a finished one (3);
    Bob has a pending order (4). *)
Definition two_accounts : db :=
  {| cas := [{| CertificateAuthority.serial := "3A5F";
                CertificateAuthority.acme_requires_contact := true |}];
     accounts := [alice; bob];
     orders := [an_order 1 1 "order-1" AcmeOrder.STATUS_READY;
                an_order 2 1 "order-2" AcmeOrder.STATUS_PENDING;
                an_order 3 1 "order-3" AcmeOrder.STATUS_VALID;
                an_order 4 2 "order-4" AcmeOrder.STATUS_PENDING];
     authorizations :=
       [an_authorization 1 1 "authz-1" "a.example.com" AcmeAuthorization.STATUS_VALID;
        an_authorization 2 2 "authz-2" "b.example.com" AcmeAuthorization.STATUS_PENDING;
        an_authorization 3 2 "authz-3" "c.example.com" AcmeAuthorization.STATUS_VALID;
        an_authorization 4 3 "authz-4" "d.example.com" AcmeAuthorization.STATUS_VALID;
        an_authorization 5 4 "authz-5" "e.example.net" AcmeAuthorization.STATUS_PENDING];
     challenges := [a_challenge 1 2 "chall-1" AcmeChallenge.STATUS_PENDING;
                    a_challenge 2 5 "chall-2" AcmeChallenge.STATUS_PENDING];
     certificates :=
       [{| AcmeCertificate.pk := 1; AcmeCertificate.slug := "cert-1";
           AcmeCertificate.order := 3; AcmeCertificate.csr := "CSR-3";
           AcmeCertificate.cert := Some ["PEM-leaf"; "PEM-root"] |}] |}.

Definition two_accounts_state : state :=
  {| st_db := two_accounts; st_cache := ∅; st_tasks := [] |}.

(** A well-signed request with no subject and the given alternative names. *)
Definition a_csr (names : list x509.GeneralName) : x509.CertificateSigningRequest :=
  {| x509.is_signature_valid := true;
     x509.signature_hash_algorithm := x509.SHA256;
     x509.subject := [];
     x509.subject_alternative_name := Some names;
     x509.public_bytes := "CSR-PEM" |}.

(** Alice's request to her account resource, signed with her key id and
    carrying a nonce the cache holds unused. *)
Definition update_contact_jws : JWS :=
  {| signatures := 1;
     combined := {| jwk := None;
                    kid := Some "https://ca.example.com/acme/3A5F/acct/acct-alice/";
                    alg := Some "RS256"; nonce := "Zm9v";
                    url := "https://ca.example.com/acme/3A5F/acct/acct-alice/" |};
     payload := "contact" |}.

Definition update_contact_state : state :=
  {| st_db := two_accounts;
     st_cache := (NonceStore.get_nonce "3A5F" "Zm9v" ∅).2;
     st_tasks := [] |}.

(** A profile and an authority for [create_cert]. *)
Definition a_profile (subject : Profiles.Subject)
    (extensions : gmap string Profiles.Extension) (cn_in_san : bool) : Profiles.Profile :=
  {| Profiles.name := "example"; Profiles.subject := subject;
     Profiles.algorithm := x509.SHA512; Profiles.extensions := extensions;
     Profiles.cn_in_san := cn_in_san; Profiles.expires := 730;
     Profiles.issuer_name := None;
     Profiles.add_crl_url := true; Profiles.add_ocsp_url := true;
     Profiles.add_issuer_url := true; Profiles.add_issuer_alternative_name := true;
     Profiles.description := "" |}.

Definition an_authority : Profiles.CertificateAuthority :=
  {| Profiles.authority_key_identifier :=
       Profiles.new (Profiles.AuthorityKeyIdentifier "AA:BB");
     Profiles.crl_url := ""; Profiles.ocsp_url := ""; Profiles.issuer_url := "";
     Profiles.issuer_alt_name := ""; Profiles.x509_subject := "/CN=ca.example.com" |}.

Definition basic_constraints : gmap string Profiles.Extension :=
  {[ Profiles.BasicConstraints_key := Profiles.new (Profiles.BasicConstraints false None) ]}.

Definition with_san : gmap string Profiles.Extension :=
  <[ Profiles.SubjectAlternativeName_key :=
       Profiles.new (Profiles.SubjectAlternativeName [x509.DNSName "example.com"]) ]>
    basic_constraints.

Definition with_ocsp_no_check : gmap string Profiles.Extension :=
  <[ "ocsp_no_check" := Profiles.new (Profiles.OtherExtension "ocsp_no_check" "") ]>
    basic_constraints.

(** An authority that publishes a CRL, an OCSP responder, its own
    certificate and an alternative name. *)
Definition a_publishing_authority : Profiles.CertificateAuthority :=
  {| Profiles.authority_key_identifier :=
       Profiles.new (Profiles.AuthorityKeyIdentifier "AA:BB");
     Profiles.crl_url := "http://crl.example.com/ca.crl";
     Profiles.ocsp_url := "http://ocsp.example.com";
     Profiles.issuer_url := "http://ca.example.com/ca.der";
     Profiles.issuer_alt_name := "https://ca.example.com";
     Profiles.x509_subject := "/CN=ca.example.com" |}.

(** A request for a new account at the authority, signed with Carol's
    key, which no account has. *)
Definition carol_jws : JWS :=
  {| signatures := 1;
     combined := {| jwk := Some "JWK-carol"; kid := None; alg := Some "RS256";
                    nonce := "Zm9v";
                    url := "https://ca.example.com/acme/3A5F/new-account/" |};
     payload := "registration" |}.

Definition carol_request : self :=
  {| self_ca := {| CertificateAuthority.serial := "3A5F";
                   CertificateAuthority.acme_requires_contact := true |};
     self_jwk := "JWK-carol";
     self_account := None;
     self_jws := carol_jws;
     self_request := jose_request "" "https://ca.example.com/acme/3A5F/new-account/" |}.

Definition carol_registration : NewAccountView.Registration :=
  {| NewAccountView.contact := ["mailto:carol@example.org"];
     NewAccountView.only_return_existing := false;
     NewAccountView.terms_of_service_agreed := true |}.

(** The account the request creates in [two_accounts] under the slug
    [acct-carol]. *)
Definition carol : AcmeAccount.row :=
  {| AcmeAccount.pk := 3; AcmeAccount.slug := "acct-carol"; AcmeAccount.ca := "3A5F";
     AcmeAccount.kid := "https://ca.example.com/acme/3A5F/acct/acct-carol/";
     AcmeAccount.status_ := AcmeAccount.STATUS_VALID;
     AcmeAccount.contact := "mailto:carol@example.org";
     AcmeAccount.terms_of_service_agreed := true;
     AcmeAccount.thumbprint := "thumb-JWK-carol"; AcmeAccount.pem := "PEM-JWK-carol" |}.

(** The mail contacts of a registration, without their scheme. *)
Definition mail_addresses (m : NewAccountView.Registration) : list string :=
  map (PyStr.drop 7)
    (filter (fun c => PyStr.startswith "mailto:" c) (NewAccountView.contact m)).

Definition account_url (_ : HttpRequest) (serial slug : string) : string :=
  "https://ca.example.com/acme/" +:+ serial +:+ "/acct/" +:+ slug +:+ "/".

(** Absolute addresses as a test server builds them, and the directory of
    the authority ["3A5F"] with a website and a CAA identity. *)
Definition uri_of (request : HttpRequest) (name serial : string) : string :=
  absolute_uri request +:+ name +:+ "/" +:+ serial.

Definition a_meta : gmap string Directory.meta_value :=
  {[ "website" := Directory.MetaText "https://ca.example.com";
     "caaIdentities" := Directory.MetaList ["example.com"] ]}.

Definition a_directory : gmap string Directory.entry :=
  <["meta" := Directory.Meta a_meta]>
    {[ "keyChange" := Directory.Url "http://localhost:8000/django_ca/acme/todo/key-change";
       "newAccount" := Directory.Url "https://ca.example.com/acme-new-account/3A5F";
       "newNonce" := Directory.Url "https://ca.example.com/acme-new-nonce/3A5F";
       "newOrder" := Directory.Url "https://ca.example.com/acme-new-order/3A5F";
       "revokeCert" := Directory.Url "http://localhost:8000/django_ca/acme/todo/revoke-cert";
       "cmFuZG9t" := Directory.Url Directory.random_entries ]}.

(** The profile [Profile("example", subject="/C=AT",
    extensions={"ocsp_no_check": {}})] with SHA-512 as the default
    algorithm and two years as the default validity. *)
Definition a_built_profile : Profiles.Profile :=
  {| Profiles.name := "example"; Profiles.subject := {[ "C" := "AT" ]};
     Profiles.algorithm := x509.SHA512;
     Profiles.extensions :=
       <[ Profiles.BasicConstraints_key :=
            Profiles.new (Profiles.BasicConstraints false None) ]>
         {[ "ocsp_no_check" := Profiles.new (Profiles.OtherExtension "ocsp_no_check" "{}") ]};
     Profiles.cn_in_san := true; Profiles.expires := 730;
     Profiles.issuer_name := None;
     Profiles.add_crl_url := true; Profiles.add_ocsp_url := true;
     Profiles.add_issuer_url := true; Profiles.add_issuer_alternative_name := true;
     Profiles.description := "" |}.

(** [str.upper] on texts of ASCII characters. *)
Definition ascii_upper_char (a : Ascii.ascii) : Ascii.ascii :=
  let n := Ascii.nat_of_ascii a in
  if ((97 <=? n) && (n <=? 122))%nat then Ascii.ascii_of_nat (n - 32) else a.

Fixpoint ascii_upper (s : string) : string :=
  match s with
  | EmptyString => EmptyString
  | String a s' => String (ascii_upper_char a) (ascii_upper s')
  end.

(** Built-in profiles with a description each, and settings that remove
    the first and set [cn_in_san] of the second; the values are written as
    Python displays them. *)
Definition builtin_profiles : gmap string (gmap string string) :=
  {[ "client" := {[ "description" := "A certificate for a client." ]};
     "server" := {[ "description" := "A certificate for a server." ]} ]}.

Definition configured_profiles : list (string * option (gmap string string)) :=
  [("client", None); ("server", Some {[ "cn_in_san" := "False" ]})].

Definition configured_server : gmap string string :=
  {[ "description" := "A certificate for a server.";
     "cn_in_san" := "False";
     "subject" := "()" ]}.

(** Alice's request to finalize her ready order 1, signed with her key id
    and carrying a nonce the cache holds unused. *)
Definition finalize_jws : JWS :=
  {| signatures := 1;
     combined := {| jwk := None;
                    kid := Some "https://ca.example.com/acme/3A5F/acct/acct-alice/";
                    alg := Some "RS256"; nonce := "Zm9v";
                    url := "https://ca.example.com/acme/3A5F/order/order-1/finalize/" |};
     payload := "csr" |}.

(** A well-signed request whose subject names two common names and that
    carries no SubjectAlternativeName extension, and a name check that
    refuses a subject with more than one common name. *)
Definition a_csr_without_san : x509.CertificateSigningRequest :=
  {| x509.is_signature_valid := true;
     x509.signature_hash_algorithm := x509.SHA256;
     x509.subject := [{| x509.oid := x509.COMMON_NAME; x509.value := "a.example.com" |};
                      {| x509.oid := x509.COMMON_NAME; x509.value := "b.example.com" |}];
     x509.subject_alternative_name := None;
     x509.public_bytes := "CSR-PEM" |}.

Definition one_common_name (subject : list x509.NameAttribute) : result unit :=
  if (1 <? length (filter (fun a => bool_decide (x509.oid a = x509.COMMON_NAME)) subject))%nat
  then raise (ValueError "Subject contains multiple commonName fields.")
  else ret tt.

End Examples.

(** * Properties *)

Import Examples.

(** ** Tables as lists *)

Section tables.

Lemma lookup_map {A B} (f : A -> B) (l : list A) (i : nat) :
  map f l !! i = f <$> l !! i.
Proof. revert i. induction l as [|x l IH]; intros [|i]; simpl; auto. Qed.

Lemma find_map_pk {A} (key : A -> nat) (g : A -> A) (k : nat) (l : list A) :
  (forall r, key (g r) = key r) ->
  by_pk key k (map g l) = g <$> by_pk key k l.
Proof.
  intros Hkey. unfold by_pk. induction l as [|x l IH]; simpl; [done|].
  rewrite Hkey. by destruct (Nat.eqb (key x) k).
Qed.

Lemma filter_all_false {A} (f : A -> bool) (l : list A) :
  (forall x, x ∈ l -> f x = false) -> filter f l = [].
Proof.
  induction l as [|x l IH]; intros H; [done|].
  rewrite filter_cons_False.
  - apply IH. intros y Hy. apply H. by right.
  - rewrite (H x) by left. intros Hf. exact Hf.
Qed.

End tables.

(** ** The nonce store *)

Section nonce_store.
Import NonceStore.

Lemma append_dash_free_inj (s1 s2 n1 n2 : string) :
  serial_ok s1 = true -> serial_ok s2 = true ->
  s1 +:+ "-" +:+ n1 = s2 +:+ "-" +:+ n2 -> s1 = s2 /\ n1 = n2.
Proof.
  unfold serial_ok. revert s2.
  induction s1 as [|a s1 IH]; intros [|b s2]; simpl.
  - intros _ _ H. by injection H.
  - intros _ H2 H. injection H as <- _.
    change (Ascii.eqb "-" dash) with true in H2. discriminate.
  - intros H1 _ H. injection H as -> _.
    change (Ascii.eqb "-" dash) with true in H1. discriminate.
  - intros H1 H2 H. injection H as -> H.
    destruct (Ascii.eqb b dash); [discriminate|].
    destruct (IH s2 H1 H2 H) as [-> ->]. done.
Qed.

Lemma cache_key_inj (s1 s2 n1 n2 : string) :
  serial_ok s1 = true -> serial_ok s2 = true ->
  cache_key s1 n1 = cache_key s2 n2 -> s1 = s2 /\ n1 = n2.
Proof.
  intros H1 H2 H. unfold cache_key in H. simpl in H.
  apply (append_dash_free_inj s1 s2 n1 n2 H1 H2).
  by repeat (injection H as H).
Qed.

Lemma step_lookup (c : cache) (e : call) (s n : string) :
  serial_ok (call_serial e) = true -> serial_ok s = true ->
  (step c e).1 !! cache_key s n = counter_step s n (c !! cache_key s n) e.
Proof.
  intros He Hs. destruct e as [s' n'|s' n']; simpl in *.
  - unfold cache_set. case_decide as Heq.
    + destruct Heq as [-> ->]. by rewrite lookup_insert_eq.
    + rewrite lookup_insert_ne; [done|].
      intros Hk. apply Heq. by apply cache_key_inj.
  - unfold validate_nonce, cache_incr.
    case_decide as Heq.
    + destruct Heq as [-> ->].
      destruct (c !! cache_key s n) as [v|] eqn:Hv; simpl; [|by rewrite Hv].
      destruct (1 <? v + 1); simpl; by rewrite lookup_insert_eq.
    + assert (cache_key s' n' <> cache_key s n) as Hne.
      { intros Hk. apply Heq. by apply cache_key_inj. }
      destruct (c !! cache_key s' n') as [v|]; simpl; [|done].
      destruct (1 <? v + 1); simpl; by rewrite lookup_insert_ne.
Qed.

Lemma run_cons (c : cache) (e : call) (es : list call) :
  run c (e :: es) = ((run (step c e).1 es).1, (step c e).2 :: (run (step c e).1 es).2).
Proof.
  simpl. destruct (step c e) as [c1 r]. simpl. by destruct (run c1 es).
Qed.

Lemma run_lookup_cache (c : cache) (es : list call) (s n : string) :
  serials_ok es = true -> serial_ok s = true ->
  (run c es).1 !! cache_key s n = foldl (counter_step s n) (c !! cache_key s n) es.
Proof.
  revert c. induction es as [|e es IH]; intros c Hes Hs; [done|].
  simpl in Hes. apply andb_prop in Hes as [He Hes].
  rewrite run_cons. simpl. rewrite IH by done. by rewrite step_lookup.
Qed.

Lemma run_answer (c : cache) (es : list call) (i : nat) (s n : string) :
  es !! i = Some (ValidateNonce s n) ->
  (run c es).2 !! i = Some (Some (validate_nonce s n (run c (take i es)).1).1).
Proof.
  revert c i. induction es as [|e es IH]; intros c i Hi; [done|].
  rewrite run_cons. destruct i as [|i]; simpl in Hi.
  - injection Hi as ->. simpl. by destruct (validate_nonce s n c).
  - change (take (S i) (e :: es)) with (e :: take i es).
    rewrite run_cons. simpl. by apply IH.
Qed.

Lemma serials_ok_take (es : list call) (i : nat) :
  serials_ok es = true -> serials_ok (take i es) = true.
Proof.
  unfold serials_ok. rewrite !forallb_forall. intros H e He.
  apply H. apply list_elem_of_In. apply list_elem_of_In in He.
  by apply (subseteq_take i es).
Qed.

Lemma serials_ok_lookup (es : list call) (i : nat) (e : call) :
  serials_ok es = true -> es !! i = Some e -> serial_ok (call_serial e) = true.
Proof.
  unfold serials_ok. rewrite forallb_forall. intros H Hi.
  apply H, list_elem_of_In. by eapply list_elem_of_lookup_2.
Qed.

(** Counters never go below zero. *)
Lemma counter_fold_nonneg (s n : string) (es : list call) (o : option Z) (v : Z) :
  (forall w, o = Some w -> 0 <= w) ->
  foldl (counter_step s n) o es = Some v -> 0 <= v.
Proof.
  revert o. induction es as [|e es IH]; intros o Ho; simpl.
  - intros H. by apply Ho.
  - apply IH. intros w.
    destruct e as [s' n'|s' n']; simpl; case_decide; try apply Ho.
    + intros [= <-]. lia.
    + destruct o as [u|]; simpl; [|done]. intros [= <-].
      specialize (Ho u eq_refl). lia.
Qed.

Lemma counter_nonneg (s n : string) (es : list call) (v : Z) :
  counter s n es = Some v -> 0 <= v.
Proof. apply counter_fold_nonneg. intros w [=]. Qed.

(** Without a new issue a counter stays unset, or does not shrink. *)
Lemma counter_fold_no_issue (s n : string) (es : list call) (o : option Z) :
  GetNonce s n ∉ es ->
  match o with
  | None => foldl (counter_step s n) o es = None
  | Some v => exists w, foldl (counter_step s n) o es = Some w /\ v <= w
  end.
Proof.
  revert o. induction es as [|e es IH]; intros o Hno.
  - destruct o; simpl; [eexists; split; [done|lia]|done].
  - apply not_elem_of_cons in Hno as [Hne Hno]. simpl.
    specialize (IH (counter_step s n o e) Hno).
    destruct e as [s' n'|s' n']; simpl in *.
    + case_decide as Heq; [destruct Heq as [-> ->]; done|]. exact IH.
    + case_decide as Heq; [|exact IH].
      destruct o as [v|]; simpl in *; [|exact IH].
      destruct IH as (w & Hw & Hle). exists w. split; [done|lia].
Qed.


(** A counter stands at zero exactly when the nonce was issued and no
    validation of it followed the issue. *)
Lemma counter_zero (s n : string) (p : list call) :
  counter s n p = Some 0 <->
  exists j, p !! j = Some (GetNonce s n)
            /\ forall k, (j < k)%nat -> p !! k <> Some (ValidateNonce s n).
Proof.
  induction p as [|e p IH] using rev_ind.
  - split; [done|]. by intros (j & Hj & _).
  - unfold counter in *. rewrite foldl_app. simpl.
    assert (forall j x, (p ++ [e]) !! j = Some x ->
              (p !! j = Some x /\ (j < List.length p)%nat) \/ (j = List.length p /\ x = e)) as Hsnoc.
    { intros j x Hj. apply lookup_snoc_Some in Hj.
      destruct Hj as [[Hlt Hj]|[-> ->]]; [by left|by right]. }
    assert ((p ++ [e]) !! List.length p = Some e) as Hlast by apply list_lookup_middle, eq_refl.
    destruct e as [s' n'|s' n']; simpl; case_decide as Heq.
    + destruct Heq as [-> ->]. split; [|done]. intros _. exists (List.length p).
      split; [done|]. intros k Hk. rewrite lookup_ge_None_2; [done|].
      rewrite length_app. simpl. lia.
    + rewrite IH. split.
      * intros (j & Hj & Hno). exists j. split.
        { by apply lookup_app_l_Some. }
        intros k Hk Hv. apply Hsnoc in Hv as [[Hv _]|[_ [=]]]. by apply (Hno k).
      * intros (j & Hj & Hno). apply Hsnoc in Hj as [[Hj Hlt]|[_ [= Hs Hn]]].
        2: { exfalso. by apply Heq. }
        exists j. split; [done|]. intros k Hk Hv. apply (Hno k Hk).
        by apply lookup_app_l_Some.
    + destruct Heq as [-> ->]. split.
      * intros H. destruct (foldl (counter_step s n) None p) as [v|] eqn:Hv; [|done].
        apply counter_nonneg in Hv. simpl in H. injection H as H. lia.
      * intros (j & Hj & Hno). apply Hsnoc in Hj as [[Hj Hlt]|[_ [=]]].
        exfalso. by apply (Hno (List.length p) Hlt).
    + rewrite IH. split.
      * intros (j & Hj & Hno). exists j. split.
        { by apply lookup_app_l_Some. }
        intros k Hk Hv. apply Hsnoc in Hv as [[Hv _]|[_ [= Hs Hn]]].
        2: { by apply Heq. }
        by apply (Hno k).
      * intros (j & Hj & Hno). apply Hsnoc in Hj as [[Hj Hlt]|[_ [=]]].
        exists j. split; [done|]. intros k Hk Hv. apply (Hno k Hk).
        by apply lookup_app_l_Some.
Qed.

Lemma validate_nonce_true (s n : string) (c : cache) :
  (forall v, c !! cache_key s n = Some v -> 0 <= v) ->
  (validate_nonce s n c).1 = true <-> c !! cache_key s n = Some 0.
Proof.
  intros Hpos. unfold validate_nonce, cache_incr.
  destruct (c !! cache_key s n) as [v|]; simpl; [|done].
  specialize (Hpos v eq_refl).
  destruct (1 <? v + 1) eqn:Hlt; simpl.
  - apply Z.ltb_lt in Hlt. split; [done|]. intros [= ->]. lia.
  - apply Z.ltb_ge in Hlt. split; [|done]. intros _. f_equal. lia.
Qed.

(** C1. Nonce consumption is one-shot.  In any history of [get_nonce] and
    [validate_nonce] calls on a cache that holds nothing under the nonce's
    key at the start, a [validate_nonce] answers true exactly when its
    increment brings the nonce's counter to 1, which is exactly when the
    nonce was issued for that authority and not validated since; a nonce
    that was never issued is refused, and after any validation of a nonce
    every later one is refused for as long as the store does not draw the
    very same nonce again. *)
Theorem validate_nonce_one_shot (c0 : cache) (es : list call) (i : nat) (s n : string) :
  c0 !! cache_key s n = None ->
  serials_ok es = true ->
  es !! i = Some (ValidateNonce s n) ->
  let answer := (run c0 es).2 !! i in
  (exists b, answer = Some (Some b))
  /\ (answer = Some (Some true) <->
      (run c0 (take (S i) es)).1 !! cache_key s n = Some 1)
  /\ (answer = Some (Some true) <->
      exists j, (j < i)%nat /\ es !! j = Some (GetNonce s n)
                /\ forall k, (j < k < i)%nat -> es !! k <> Some (ValidateNonce s n))
  /\ ((forall j, (j < i)%nat -> es !! j <> Some (GetNonce s n)) ->
      answer = Some (Some false))
  /\ (forall j, (j < i)%nat -> es !! j = Some (ValidateNonce s n) ->
        (forall k, (j < k < i)%nat -> es !! k <> Some (GetNonce s n)) ->
        answer = Some (Some false)).
Proof.
  intros Hc0 Hok Hi answer.
  assert (serial_ok s = true) as Hs by apply (serials_ok_lookup es i _ Hok Hi).
  assert (answer = Some (Some (validate_nonce s n (run c0 (take i es)).1).1)) as Hans
    by apply run_answer, Hi.
  assert (forall p, serials_ok p = true ->
            (run c0 p).1 !! cache_key s n = counter s n p) as Hcounter.
  { intros p Hp. rewrite run_lookup_cache by done. by rewrite Hc0. }
  assert ((run c0 (take i es)).1 !! cache_key s n = counter s n (take i es)) as Hcache
    by (apply Hcounter; by apply serials_ok_take).
  assert (answer = Some (Some true) <-> counter s n (take i es) = Some 0) as Htrue.
  { rewrite Hans, <- Hcache, <- validate_nonce_true.
    - split; [by intros [= ->]|by intros ->].
    - rewrite Hcache. apply counter_nonneg. }
  assert (counter s n (take i es) = Some 0 <->
          exists j, (j < i)%nat /\ es !! j = Some (GetNonce s n)
                /\ forall k, (j < k < i)%nat -> es !! k <> Some (ValidateNonce s n)) as Hzero.
  { rewrite counter_zero. split.
    - intros (j & Hj & Hno). apply lookup_take_Some in Hj as [Hj Hlt].
      exists j. split; [done|]. split; [done|]. intros k [Hk1 Hk2] Hk.
      apply (Hno k Hk1). by rewrite lookup_take_lt.
    - intros (j & Hlt & Hj & Hno). exists j. split; [by rewrite lookup_take_lt|].
      intros k Hk Hv. apply lookup_take_Some in Hv as [Hv Hki]. by apply (Hno k). }
  assert (forall P : Prop, ~ P -> (answer = Some (Some true) <-> P) ->
            answer = Some (Some false)) as Hfalse.
  { intros P HnP HP. rewrite Hans in *.
    destruct (validate_nonce s n (run c0 (take i es)).1).1; [|done].
    exfalso. by apply HnP, HP. }
  split; [by eexists|]. split; [|split; [|split]].
  - rewrite Htrue. rewrite Hcounter by (by apply serials_ok_take).
    unfold counter at 2. rewrite (take_S_r _ _ _ Hi), foldl_app. simpl.
    rewrite decide_True by done. fold (counter s n (take i es)).
    destruct (counter s n (take i es)) as [v|]; simpl; [|by split].
    split; intros [= H]; f_equal; lia.
  - by rewrite Htrue.
  - intros Hnever. apply (Hfalse _ (fun H => H) ). rewrite Htrue, Hzero.
    split; [|done]. intros (j & Hlt & Hj & _). by apply (Hnever j).
  - intros j Hlt Hj Hno. apply (Hfalse (counter s n (take i es) = Some 0)); [|done].
    rewrite <- (take_drop (S j) (take i es)). unfold counter. rewrite foldl_app.
    rewrite take_take, Nat.min_l by lia.
    rewrite (take_S_r _ _ _ Hj), foldl_app. simpl. rewrite decide_True by done.
    assert (GetNonce s n ∉ drop (S j) (take i es)) as Hdrop.
    { intros Hin. apply list_elem_of_lookup in Hin as [k Hk].
      rewrite lookup_drop in Hk. apply lookup_take_Some in Hk as [Hk Hki].
      apply (Hno (S j + k)%nat); [lia|done]. }
    pose proof (counter_fold_no_issue s n _
                  (Z.succ <$> foldl (counter_step s n) None (take j es)) Hdrop) as Hmono.
    destruct (foldl (counter_step s n) None (take j es)) as [v|] eqn:Hv; simpl in *.
    + destruct Hmono as (w & -> & Hle). apply counter_nonneg in Hv.
      intros [= ->]. lia.
    + by rewrite Hmono.
Qed.

(** A nonce is issued, validated, and replayed. *)
Lemma validate_nonce_one_shot_witness :
  (run ∅ [GetNonce "3A5F" "Zm9v"; ValidateNonce "3A5F" "Zm9v";
          ValidateNonce "3A5F" "Zm9v"]).2 !! 1%nat = Some (Some true)
  /\ (run ∅ [GetNonce "3A5F" "Zm9v"; ValidateNonce "3A5F" "Zm9v";
             ValidateNonce "3A5F" "Zm9v"]).2 !! 2%nat = Some (Some false).
Proof.
  split.
  - destruct (validate_nonce_one_shot ∅
                [GetNonce "3A5F" "Zm9v"; ValidateNonce "3A5F" "Zm9v";
                 ValidateNonce "3A5F" "Zm9v"] 1 "3A5F" "Zm9v" (lookup_empty _) eq_refl eq_refl)
      as (_ & _ & Hissued & _ & _).
    apply Hissued. exists 0%nat. split; [lia|]. split; [reflexivity|].
    intros k Hk. lia.
  - destruct (validate_nonce_one_shot ∅
                [GetNonce "3A5F" "Zm9v"; ValidateNonce "3A5F" "Zm9v";
                 ValidateNonce "3A5F" "Zm9v"] 2 "3A5F" "Zm9v" (lookup_empty _) eq_refl eq_refl)
      as (_ & _ & _ & _ & Hreplay).
    apply (Hreplay 1%nat); [lia|reflexivity|]. intros k Hk. lia.
Defined.

End nonce_store.

(** ** Finalizing an order *)

Section finalize.
Import Views.

Variable order_viewable : db -> AcmeOrder.row -> bool.
Variable check_name : list x509.NameAttribute -> result unit.
Variable parse_acme_csr : string -> x509.CertificateSigningRequest.
Variable authorization_general_name : AcmeAuthorization.row -> x509.GeneralName.
Variable x509_DNSName : string -> result x509.GeneralName.

Local Abbreviation finalize :=
  (AcmeOrderFinalizeView_acme_request order_viewable check_name parse_acme_csr
     authorization_general_name x509_DNSName).

(** C2. For an order the view finds, finalize goes through only when the
    order is ready, and then it leaves the order processing and answers
    with the order document; in every other status the answer is the
    forbidden response of type orderNotReady and nothing is written. *)
Theorem finalize_requires_ready (account : AcmeAccount.row) (message : CertificateRequest)
    (slug : option string) (cert_slug : string) (st : state) (order : AcmeOrder.row) :
  get_or_unauthorized
    (filter (fun o => order_viewable (st_db st) o && order_of_account account o
                      && slug_is AcmeOrder.slug slug o) (orders (st_db st)))
  = ret order ->
  (AcmeOrder.status_ order <> AcmeOrder.STATUS_READY ->
   finalize account message slug cert_slug st
   = raise (AcmeForbidden "orderNotReady" "This order is not yet ready.")
   /\ respond (finalize account message slug cert_slug st) st
      = (ret (AcmeResponseForbidden "orderNotReady" "This order is not yet ready."), st))
  /\ (forall response st',
        finalize account message slug cert_slug st = ret (response, st') ->
        AcmeOrder.status_ order = AcmeOrder.STATUS_READY
        /\ (exists doc, response = AcmeResponseOrder doc
                        /\ doc_status doc = AcmeOrder.STATUS_PROCESSING)
        /\ (forall i o, orders (st_db st) !! i = Some o ->
              orders (st_db st') !! i
              = Some (if Nat.eqb (AcmeOrder.pk o) (AcmeOrder.pk order)
                      then AcmeOrder.set_status AcmeOrder.STATUS_PROCESSING order
                      else o))).
Proof.
  intros Hget. unfold AcmeOrderFinalizeView_acme_request. rewrite Hget. simpl.
  split.
  - intros Hne. rewrite bool_decide_eq_true_2 by done. done.
  - intros response st'.
    destruct (bool_decide (AcmeOrder.status_ order <> AcmeOrder.STATUS_READY)) eqn:Hready;
      [discriminate|].
    apply bool_decide_eq_false in Hready. apply dec_stable in Hready.
    destruct (existsb _ _); [discriminate|].
    destruct (validate_csr _ _ _ _ _ _) as [e|csr]; simpl; [discriminate|].
    intros [= <- <-]. split; [done|]. split; [by eexists|].
    intros i o Ho. simpl. unfold save. by rewrite lookup_map, Ho.
Qed.

End finalize.

(** Alice finalizes her finished order 3, whose certificate is issued. *)
Lemma finalize_requires_ready_witness :
  respond
    (Views.AcmeOrderFinalizeView_acme_request (fun _ _ => true) (fun _ => ret tt)
       (fun _ => a_csr [x509.DNSName "d.example.com"])
       (fun a => x509.DNSName (AcmeAuthorization.value a))
       (fun text => ret (x509.DNSName text))
       alice {| Views.csr := "CSR" |} (Some "order-3") "cert-2" two_accounts_state)
    two_accounts_state
  = (ret (AcmeResponseForbidden "orderNotReady" "This order is not yet ready."),
     two_accounts_state).
Proof.
  apply (finalize_requires_ready (fun _ _ => true) (fun _ => ret tt)
           (fun _ => a_csr [x509.DNSName "d.example.com"])
           (fun a => x509.DNSName (AcmeAuthorization.value a))
           (fun text => ret (x509.DNSName text))
           alice {| Views.csr := "CSR" |} (Some "order-3") "cert-2" two_accounts_state
           (an_order 3 1 "order-3" AcmeOrder.STATUS_VALID) eq_refl).
  discriminate.
Defined.

(** ** Validating the CSR of a finalize request *)

Section validate_csr.
Import Views.

Variable check_name : list x509.NameAttribute -> result unit.
Variable parse_acme_csr : string -> x509.CertificateSigningRequest.
Variable authorization_general_name : AcmeAuthorization.row -> x509.GeneralName.
Variable x509_DNSName : string -> result x509.GeneralName.

Local Abbreviation validate_csr :=
  (Views.validate_csr check_name parse_acme_csr authorization_general_name x509_DNSName).

(** [validate_csr] returns a request only when it carries a
    SubjectAlternativeName extension whose names are, as a set, exactly
    the names of the order's authorizations.  A request whose names differ
    in any way (a strict subset and a strict superset included), or that
    has no such extension, is always refused: as a bad CSR, or, when its
    subject is not empty, with whatever [check_name] or [x509.DNSName]
    raises for the subject. *)
Lemma validate_csr_names (message : CertificateRequest)
    (authorizations : list AcmeAuthorization.row) :
  let csr := parse_acme_csr (csr message) in
  let names_from_order : gset x509.GeneralName :=
    list_to_set (map authorization_general_name authorizations) in
  let run := validate_csr message authorizations in
  (forall pem, run = ret pem ->
     exists names, x509.subject_alternative_name csr = Some names
                   /\ list_to_set names = names_from_order)
  /\ (x509.subject_alternative_name csr = None
      \/ (exists names, x509.subject_alternative_name csr = Some names
                        /\ list_to_set names ≠ names_from_order) ->
      (exists m, run = raise (AcmeBadCSR m))
      \/ (x509.subject csr <> []
          /\ exists e, run = raise e
               /\ (check_name (x509.subject csr) = raise e
                   \/ exists cn, cn ∈ x509.subject csr
                                 /\ x509_DNSName (x509.value cn) = raise e))).
Proof.
  intros csr names_from_order run. subst run. unfold Views.validate_csr.
  fold csr. fold names_from_order.
  destruct (negb (x509.is_signature_valid csr)).
  { split; [done|]. intros _. left. by eexists. }
  destruct (bool_decide _).
  { split; [done|]. intros _. left. by eexists. }
  assert (forall tail : result string,
            tail = match x509.subject_alternative_name csr with
                   | None => raise (AcmeBadCSR "No subject alternative names found in CSR.")
                   | Some names =>
                       if bool_decide (names_from_order ≠ list_to_set names)
                       then raise (AcmeBadCSR "Names in CSR do not match.")
                       else ret (x509.public_bytes csr)
                   end ->
            (forall pem, tail = ret pem ->
               exists names, x509.subject_alternative_name csr = Some names
                             /\ list_to_set names = names_from_order)
            /\ (x509.subject_alternative_name csr = None
                \/ (exists names, x509.subject_alternative_name csr = Some names
                                  /\ list_to_set names ≠ names_from_order) ->
                exists m, tail = raise (AcmeBadCSR m))) as Htail.
  { intros tail ->. destruct (x509.subject_alternative_name csr) as [names|].
    - case_bool_decide as Hne.
      + split; [done|]. intros _. by eexists.
      + split; [intros pem _; by exists names|].
        intros [|(names' & [= <-] & Hdiff)]; [done|]. by destruct Hdiff.
    - split; [done|]. intros _. by eexists. }
  destruct (x509.subject csr) as [|attr attrs] eqn:Hsubject; cbv beta match.
  { cbn [bind ret]. destruct (Htail _ eq_refl) as [Hret Hraise].
    split; [done|]. intros H. left. auto. }
  destruct (check_name (attr :: attrs)) as [e|[]] eqn:Hcheck; cbn [bind ret raise].
  { split; [done|]. intros _. right. split; [done|]. exists e. auto. }
  destruct (List.find _ (attr :: attrs)) as [cn|] eqn:Hfind; cbn [bind ret raise].
  - apply find_some in Hfind as [Hin _]. apply list_elem_of_In in Hin.
    destruct (x509_DNSName (x509.value cn)) as [e|name] eqn:Hname; cbn [bind ret raise].
    { split; [done|]. intros _. right. split; [done|]. exists e. split; [done|].
      right. by exists cn. }
    case_bool_decide as Hcn; cbn [bind ret raise].
    { split; [done|]. intros _. left. by eexists. }
    destruct (Htail _ eq_refl) as [Hret Hraise]. split; [done|]. intros H. left. auto.
  - destruct (Htail _ eq_refl) as [Hret Hraise]. split; [done|]. intros H. left. auto.
Qed.

(** C3, where the code departs from it.  The subject of a request is
    checked before its alternative names, outside any [try]: when
    [check_name] raises for a subject that is not empty, or [x509.DNSName]
    raises for its common name, [validate_csr] raises that very exception,
    whatever the alternative names of the request are and also when it has
    none, and not [AcmeBadCSR]. *)
Theorem validate_csr_subject_error_escapes (message : CertificateRequest)
    (authorizations : list AcmeAuthorization.row) (e : exn) :
  let csr := parse_acme_csr (csr message) in
  x509.is_signature_valid csr = true ->
  x509.signature_hash_algorithm csr <> x509.MD5 ->
  x509.signature_hash_algorithm csr <> x509.SHA1 ->
  x509.subject csr <> [] ->
  (check_name (x509.subject csr) = raise e ->
   validate_csr message authorizations = raise e)
  /\ (check_name (x509.subject csr) = ret tt ->
      forall cn,
        List.find (fun attr => bool_decide (x509.oid attr = x509.COMMON_NAME))
          (x509.subject csr) = Some cn ->
        x509_DNSName (x509.value cn) = raise e ->
        validate_csr message authorizations = raise e).
Proof.
  intros csr Hvalid Hmd5 Hsha1 Hsubject. unfold Views.validate_csr. fold csr.
  rewrite Hvalid. simpl. rewrite bool_decide_eq_false_2 by tauto.
  destruct (x509.subject csr) as [|attr attrs]; [done|]. split.
  - by intros ->.
  - intros -> cn -> ->. done.
Qed.

End validate_csr.

(** Alice finalizes her ready order 1 with a request that has no
    alternative names and a subject the name check refuses: the
    [ValueError] of the check leaves [validate_csr] and the view, [post]
    lets it through after it has used up the nonce, and [dispatch] answers
    with an internal server error. *)
Lemma validate_csr_subject_error_escapes_witness :
  let finalize :=
    Views.AcmeOrderFinalizeView (fun _ _ => true) one_common_name
      (fun _ => a_csr_without_san) (fun a => x509.DNSName (AcmeAuthorization.value a))
      (fun text => ret (x509.DNSName text))
      (fun _ => Some {| Views.csr := "CSR" |}) "cert-2" in
  Views.validate_csr one_common_name (fun _ => a_csr_without_san)
    (fun a => x509.DNSName (AcmeAuthorization.value a))
    (fun text => ret (x509.DNSName text)) {| Views.csr := "CSR" |}
    [an_authorization 1 1 "authz-1" "a.example.com" AcmeAuthorization.STATUS_VALID]
  = raise (ValueError "Subject contains multiple commonName fields.")
  /\ post (fun _ => Some finalize_jws) (fun _ => true) (fun _ _ => true)
       (fun _ _ => true) (fun pem => pem) (fun _ _ => Some true) finalize
       (jose_request "" "https://ca.example.com/acme/3A5F/order/order-1/finalize/")
       "3A5F" (Some "order-1") update_contact_state
     = (raise (ValueError "Subject contains multiple commonName fields."),
        with_cache (NonceStore.validate_nonce "3A5F" "Zm9v"
                      (st_cache update_contact_state)).2 update_contact_state)
  /\ dispatch (fun _ => Some finalize_jws) (fun _ => true) (fun _ _ => true)
       (fun _ _ => true) (fun pem => pem) (fun _ _ => Some true) true finalize
       (jose_request "" "https://ca.example.com/acme/3A5F/order/order-1/finalize/")
       "3A5F" (Some "order-1") "bmV4dA" update_contact_state
     = inr (AcmeResponseError "Internal server error", "bmV4dA",
            with_cache (NonceStore.get_nonce "3A5F" "bmV4dA"
                          (NonceStore.validate_nonce "3A5F" "Zm9v"
                             (st_cache update_contact_state)).2).2 update_contact_state).
Proof.
  intros finalize. split; [|split].
  - apply (validate_csr_subject_error_escapes one_common_name (fun _ => a_csr_without_san)
             (fun a => x509.DNSName (AcmeAuthorization.value a))
             (fun text => ret (x509.DNSName text)) {| Views.csr := "CSR" |}
             [an_authorization 1 1 "authz-1" "a.example.com" AcmeAuthorization.STATUS_VALID]
             (ValueError "Subject contains multiple commonName fields.")
             eq_refl); [discriminate|discriminate|discriminate|reflexivity].
  - vm_compute. reflexivity.
  - vm_compute. reflexivity.
Defined.

(** ** Merging extension overrides into a profile *)

Section merge.
Import Profiles.

Context {V : Type}.
Implicit Types (profile : gmap string V) (overrides : gmap string (option V)).

(** What the merge holds under a key: the override when there is one, the
    profile's entry otherwise. *)
Lemma lookup_merge_extensions profile overrides (k : string) :
  merge_extensions profile overrides !! k
  = match overrides !! k with
    | Some override => override
    | None => profile !! k
    end.
Proof.
  unfold merge_extensions. rewrite lookup_omap, lookup_union, lookup_fmap.
  destruct (overrides !! k) as [[v|]|], (profile !! k); reflexivity.
Qed.

(** The merge as an operation on dictionaries: a key with a value takes
    that value, a key with [None] is gone, any other key keeps the
    profile's entry; merging the same overrides a second time changes
    nothing, and overrides on disjoint keys can be merged in either
    order. *)
Lemma merge_extensions_laws profile overrides :
  (forall k v, overrides !! k = Some (Some v) ->
     merge_extensions profile overrides !! k = Some v)
  /\ (forall k, overrides !! k = Some None -> merge_extensions profile overrides !! k = None)
  /\ (forall k, overrides !! k = None ->
        merge_extensions profile overrides !! k = profile !! k)
  /\ merge_extensions (merge_extensions profile overrides) overrides
     = merge_extensions profile overrides
  /\ (forall overrides', dom overrides ## dom overrides' ->
        merge_extensions (merge_extensions profile overrides) overrides'
        = merge_extensions (merge_extensions profile overrides') overrides).
Proof.
  split; [|split; [|split; [|split]]].
  - intros k v Hk. by rewrite lookup_merge_extensions, Hk.
  - intros k Hk. by rewrite lookup_merge_extensions, Hk.
  - intros k Hk. by rewrite lookup_merge_extensions, Hk.
  - apply map_eq. intros k. rewrite !lookup_merge_extensions.
    by destruct (overrides !! k).
  - intros overrides' Hdisj. apply map_eq. intros k.
    rewrite !lookup_merge_extensions.
    destruct (overrides !! k) as [x|] eqn:Hk, (overrides' !! k) as [y|] eqn:Hk'; try done.
    exfalso. apply (Hdisj k); apply elem_of_dom; by eexists.
Qed.

End merge.

Section merge_in_create_cert.
Import Profiles.

Variable KEY_TO_EXTENSION : string -> string -> result Extension.

(** A deep copy holds one fresh object for every entry it copies, and the
    objects that were there before stay where they were. *)
Lemma deepcopy_items_view (items : list (string * Extension)) (acc : gmap string loc)
    (h : store) (k : string) :
  NoDup items.*1 ->
  (forall k' l, acc !! k' = Some l -> (l < length h)%nat) ->
  view (deepcopy_items items acc h).2 (deepcopy_items items acc h).1 !! k
  = match (list_to_map items : gmap string Extension) !! k with
    | Some e => Some e
    | None => view h acc !! k
    end.
Proof.
  revert acc h. induction items as [|[k0 e0] items IH]; intros acc h Hnodup Hacc.
  - done.
  - apply NoDup_cons in Hnodup as [Hk0 Hnodup]. simpl.
    rewrite IH; [|done|].
    + destruct (decide (k = k0)) as [->|Hne].
      * rewrite lookup_insert_eq.
        rewrite (not_elem_of_list_to_map_1 _ k0 Hk0).
        unfold view. rewrite lookup_omap, lookup_insert_eq. simpl.
        by rewrite list_lookup_middle.
      * rewrite lookup_insert_ne by done.
        destruct (list_to_map items !! k); [done|].
        unfold view. rewrite !lookup_omap, lookup_insert_ne by done.
        destruct (acc !! k) as [l|] eqn:Hl; [simpl|done].
        by rewrite lookup_app_l by eauto.
    + intros k' l. rewrite length_app. simpl.
      destruct (decide (k' = k0)) as [->|Hne].
      * rewrite lookup_insert_eq. intros [= <-]. lia.
      * rewrite lookup_insert_ne by done. intros Hl. apply Hacc in Hl. lia.
Qed.

Lemma deepcopy_view (d : gmap string Extension) (h : store) :
  view (deepcopy d h).2 (deepcopy d h).1 = d.
Proof.
  apply map_eq. intros k. unfold deepcopy.
  rewrite deepcopy_items_view.
  - rewrite list_to_map_to_list. destruct (d !! k); [done|].
    unfold view. by rewrite lookup_omap, lookup_empty.
  - apply NoDup_fst_map_to_list.
  - intros k' l. by rewrite lookup_empty.
Qed.






(** What the merged dictionary is to hold under a key: what the caller
    gives for the key if it gives anything, the profile's extension
    otherwise. *)
Local Abbreviation expected profile items h k :=
  (match (list_to_map items : gmap string override_value) !! k with
   | None => profile !! k
   | Some OvNone => None
   | Some (OvExtension l) => h !! l
   | Some (OvSerialized raw) =>
       match KEY_TO_EXTENSION k raw with inr e => Some e | inl _ => None end
   end).

(** The caller's objects are in the store. *)
Local Abbreviation objects_in items h :=
  (forall k l, (k, OvExtension l) ∈ items -> is_Some ((h : store) !! l)).

(** A profile with other extensions. *)
Local Abbreviation with_extensions exts self :=
  {| Profiles.name := Profiles.name self;
     Profiles.subject := Profiles.subject self;
     Profiles.algorithm := Profiles.algorithm self;
     Profiles.extensions := exts;
     Profiles.cn_in_san := Profiles.cn_in_san self;
     Profiles.expires := Profiles.expires self;
     Profiles.issuer_name := Profiles.issuer_name self;
     Profiles.add_crl_url := Profiles.add_crl_url self;
     Profiles.add_ocsp_url := Profiles.add_ocsp_url self;
     Profiles.add_issuer_url := Profiles.add_issuer_url self;
     Profiles.add_issuer_alternative_name := Profiles.add_issuer_alternative_name self;
     Profiles.description := Profiles.description self |}.





End merge_in_create_cert.


(** ** Common name or alternative name *)

Section cn_or_san.
Import Profiles.

Variable KEY_TO_EXTENSION : string -> string -> result Extension.
Variable parse_general_name : string -> result x509.GeneralName.
Variable str_split : string -> list string.
Variable shlex_split : string -> list string.
Variable parse_hash_algorithm : string -> result x509.HashAlgorithm.
Variable parse_expires : Z -> Z.

Local Abbreviation create_cert :=
  (Profiles.create_cert KEY_TO_EXTENSION parse_general_name str_split shlex_split
     parse_hash_algorithm parse_expires).
Local Abbreviation _update_san_from_cn := (Profiles._update_san_from_cn parse_general_name).

(** Whatever the profile and the authority, [create_cert] issues nothing
    for a caller who passes neither a subject nor extensions: the last
    check reads the caller's arguments alone. *)
Lemma create_cert_needs_caller_name (self : Profile) (ca : CertificateAuthority)
    (expires : option Z) (algorithm : option string) (cn_in_san : option bool)
    (add_crl_url add_ocsp_url add_issuer_url add_issuer_alternative_name : option bool)
    (h : store) :
  exists e, create_cert self ca None expires algorithm ExtNone cn_in_san add_crl_url
              add_ocsp_url add_issuer_url add_issuer_alternative_name h
            = raise e.
Proof.
  unfold Profiles.create_cert, create_cert_extensions. simpl.
  destruct (deepcopy (Profiles.extensions self) h) as [copies h1]. simpl.
  destruct (Profiles._update_from_ca _ _ _ _ _ _ _ _ _ _ _) as [e|[[issuer d] h2]];
    simpl; [by eexists|].
  destruct (match algorithm with Some a => _ | None => _ end) as [e|alg];
    simpl; [by eexists|].
  destruct (Profiles._update_san_from_cn _ _ _ _ _) as [e|[[s d'] h3]];
    simpl; [by eexists|].
  by eexists.
Qed.

(** C5, where the code departs from it.  The last check of [create_cert]
    reads the caller's [subject] and [extensions] arguments, not the
    subject and extensions the certificate will carry.  A profile whose
    default subject has the common name, and a profile whose default
    extensions have the alternative name (from which the subject takes its
    common name), both fail with the validation error when the caller
    passes neither. *)
Theorem create_cert_profile_cn_refused :
  let cn_profile := a_profile {[ "CN" := "example.com" ]} basic_constraints false in
  let san_profile := a_profile {[ "C" := "AT" ]} with_san true in
  has_CN (Profiles.subject cn_profile) = true
  /\ create_cert cn_profile an_authority None None None ExtNone None None None None None []
     = raise (ValueError must_name)
  /\ match _update_san_from_cn true (Profiles.subject san_profile)
             (deepcopy (Profiles.extensions san_profile) []).1
             (deepcopy (Profiles.extensions san_profile) []).2 with
     | inr (subject, extensions, h) =>
         subject !! "CN" = Some "example.com"
         /\ view h extensions !! SubjectAlternativeName_key
            = Some (new (SubjectAlternativeName [x509.DNSName "example.com"]))
     | inl _ => False
     end
  /\ create_cert san_profile an_authority None None None ExtNone None None None None None []
     = raise (ValueError must_name).
Proof.
  intros cn_profile san_profile.
  split; [reflexivity|]. split; [vm_compute; reflexivity|].
  split; [|vm_compute; reflexivity].
  vm_compute. split; reflexivity.
Qed.

End cn_or_san.

(** ** Request authentication *)

Section request_authentication.

Variable json_loads : string -> option JWS.
Variable ca_acme_usable : CertificateAuthority.row -> bool.
Variable account_viewable : db -> AcmeAccount.row -> bool.
Variable account_usable : db -> AcmeAccount.row -> bool.
Variable JWK_load : string -> string.
Variable verify : JWS -> string -> option bool.

Local Abbreviation post :=
  (AcmeBaseView.post json_loads ca_acme_usable account_viewable account_usable JWK_load verify).

(** C6, as the code has it.  A JWS with both a [jwk] and a (non-empty)
    [kid] is answered [malformed] before the authority is looked up.  A
    JWS with neither is answered only after the lookup: [malformed] when
    the authority is found, not found when the serial is unknown. *)
Theorem post_jwk_kid (v : view) (request : HttpRequest) (serial : string)
    (slug : option string) (st : state) (jws : JWS) :
  content_type request = "application/jose+json" ->
  json_loads (body request) = Some jws ->
  (truthy_obj (jwk (combined jws)) = true -> truthy_str (kid (combined jws)) = true ->
   post v request serial slug st
   = (ret (AcmeResponseMalformed malformed "jwk and kid are mutually exclusive."), st))
  /\ (truthy_obj (jwk (combined jws)) = false -> truthy_str (kid (combined jws)) = false ->
      post v request serial slug st
      = (match get_ca ca_acme_usable serial (st_db st) with
         | inr _ =>
             ret (AcmeResponseMalformed malformed "JWS contained neither key nor key ID.")
         | inl DoesNotExist => ret (AcmeResponseNotFound "The requested CA cannot be found.")
         | inl e => raise e
         end, st)).
Proof.
  intros Hct Hjws. unfold post, AcmeBaseView.post. rewrite Hct, Hjws. simpl.
  split.
  - intros -> ->. reflexivity.
  - intros Hjwk Hkid. rewrite Hjwk, Hkid. simpl.
    destruct (get_ca ca_acme_usable serial (st_db st)) as [e|ca]; [by destruct e|].
    destruct (jwk (combined jws)); [discriminate|done].
Qed.

End request_authentication.

(** C6, as the spec states it, fails on the code: a request that carries
    neither [jwk] nor [kid] and names a serial no authority has is answered
    not found, and not [malformed]. *)
Lemma post_neither_unknown_ca :
  let answer :=
    post (fun _ => Some jws_without_key) (fun _ => true) (fun _ _ => true) (fun _ _ => true)
         (fun pem => pem) (fun _ _ => Some true)
         (Views.AcmeOrderView (fun _ _ => true))
         (jose_request "" "https://ca.example.com/acme/3A5F/new-order/") "3A5F" None
         empty_state in
  answer = (ret (AcmeResponseNotFound "The requested CA cannot be found."), empty_state)
  /\ ~ exists typ message st, answer = (ret (AcmeResponseMalformed typ message), st).
Proof.
  split; [reflexivity|]. intros (typ & message & st & H). discriminate H.
Qed.

(** The same request against a database that has the authority. *)
Lemma post_jwk_kid_witness :
  post (fun _ => Some jws_without_key) (fun _ => true) (fun _ _ => true) (fun _ _ => true)
       (fun pem => pem) (fun _ _ => Some true)
       (Views.AcmeOrderView (fun _ _ => true))
       (jose_request "" "https://ca.example.com/acme/3A5F/new-order/") "3A5F" None
       (with_db (with_cas_example) empty_state)
  = (ret (AcmeResponseMalformed malformed "JWS contained neither key nor key ID."),
     with_db (with_cas_example) empty_state).
Proof.
  exact (proj2 (post_jwk_kid (fun _ => Some jws_without_key) (fun _ => true)
                  (fun _ _ => true) (fun _ _ => true) (fun pem => pem)
                  (fun _ _ => Some true) (Views.AcmeOrderView (fun _ _ => true))
                  (jose_request "" "https://ca.example.com/acme/3A5F/new-order/") "3A5F" None
                  (with_db with_cas_example empty_state) jws_without_key eq_refl eq_refl)
               eq_refl eq_refl).
Defined.

(** ** Creating an order *)

Section new_order.
Import Views.

Lemma add_authorizations_identifiers (d : db) (order : AcmeOrder.row)
    (identifiers : list (string * string)) (auth_slug : nat -> string) (expires : Z) :
  map identifier_of (add_authorizations d order identifiers auth_slug expires)
  = remove_dups identifiers.
Proof.
  unfold add_authorizations. apply list_eq. intros i.
  rewrite lookup_map, list_lookup_imap.
  destruct (remove_dups identifiers !! i) as [[t v]|]; reflexivity.
Qed.

Lemma add_authorizations_pending (d : db) (order : AcmeOrder.row)
    (identifiers : list (string * string)) (auth_slug : nat -> string) (expires : Z) :
  Forall (fun a => AcmeAuthorization.status_ a = AcmeAuthorization.STATUS_PENDING
                   /\ AcmeAuthorization.order a = AcmeOrder.pk order)
         (add_authorizations d order identifiers auth_slug expires).
Proof.
  apply Forall_lookup. intros i a. unfold add_authorizations.
  rewrite list_lookup_imap. destruct (remove_dups identifiers !! i); [|done].
  by intros [= <-].
Qed.

(** C7. A new-order request is refused as malformed when its notBefore
    lies before now, when its notAfter lies more than the maximum validity
    (90 days unless configured) after now, when notBefore lies after
    notAfter, or when it names no identifier.  Any other request creates a
    pending order of the account with one pending authorization for each
    distinct identifier. *)
Theorem new_order_validation (now : Z)
    (max_validity order_validity : option ca_settings.validity_setting)
    (account : AcmeAccount.row) (message : NewOrder)
    (order_slug : string) (auth_slug : nat -> string) (st : state) :
  let limit := now + ca_settings.ACME_MAX_CERT_VALIDITY max_validity in
  let run := AcmeNewOrderView_acme_request now max_validity order_validity account message
               order_slug auth_slug st in
  let refused := exists m, run = raise (AcmeMalformed malformed m) in
  ca_settings.ACME_MAX_CERT_VALIDITY None = 90 * 24 * 3600 * 1000000
  /\ ((exists nb, not_before message = Some nb /\ nb < now) -> refused)
  /\ ((exists na, not_after message = Some na /\ limit < na) -> refused)
  /\ ((exists nb na, not_before message = Some nb /\ not_after message = Some na /\ na < nb)
      -> refused)
  /\ (identifiers message = [] -> refused)
  /\ ((forall nb, not_before message = Some nb -> now <= nb) ->
      (forall na, not_after message = Some na -> na <= limit) ->
      (forall nb na, not_before message = Some nb -> not_after message = Some na -> nb <= na) ->
      identifiers message <> [] ->
      exists order authzs doc,
        run = ret (AcmeResponseOrderCreated doc,
                   with_db (with_authorizations (authorizations (st_db st) ++ authzs)
                              (with_orders (orders (st_db st) ++ [order]) (st_db st))) st)
        /\ AcmeOrder.status_ order = AcmeOrder.STATUS_PENDING
        /\ AcmeOrder.account order = AcmeAccount.pk account
        /\ doc_status doc = AcmeOrder.STATUS_PENDING
        /\ Forall (fun a => AcmeAuthorization.status_ a = AcmeAuthorization.STATUS_PENDING
                            /\ AcmeAuthorization.order a = AcmeOrder.pk order) authzs
        /\ NoDup (map identifier_of authzs)
        /\ (forall ident, ident ∈ map identifier_of authzs <-> ident ∈ identifiers message)).
Proof.
  intros limit run refused. subst refused run limit.
  unfold AcmeNewOrderView_acme_request.
  split; [reflexivity|].
  assert (forall (c : bool) (m : string) (k : result (response * state)),
            (c = false -> exists m', k = raise (AcmeMalformed malformed m')) ->
            exists m', (if c then raise (AcmeMalformed malformed m) else k)
                       = raise (AcmeMalformed malformed m')) as Hstep.
  { intros [] m k Hk; [by eexists|by apply Hk]. }
  split; [|split; [|split; [|split]]].
  - intros (nb & -> & Hlt). apply Hstep. intros Hc. apply Z.ltb_ge in Hc. lia.
  - intros (na & -> & Hlt). apply Hstep. intros _. apply Hstep.
    intros Hc. apply Z.ltb_ge in Hc. lia.
  - intros (nb & na & -> & -> & Hlt). do 2 (apply Hstep; intros _).
    apply Hstep. intros Hc. apply Z.ltb_ge in Hc. lia.
  - intros ->. do 3 (apply Hstep; intros _). by eexists.
  - intros Hnb Hna Hboth Hids.
    assert (match not_before message with Some nb => nb <? now | None => false end = false)
      as ->.
    { destruct (not_before message) as [nb|]; [|done].
      apply Z.ltb_ge. by apply Hnb. }
    assert (match not_after message with
            | Some na => now + ca_settings.ACME_MAX_CERT_VALIDITY max_validity <? na
            | None => false end = false) as ->.
    { destruct (not_after message) as [na|]; [|done].
      apply Z.ltb_ge. by apply Hna. }
    assert (match not_before message, not_after message with
            | Some nb, Some na => na <? nb
            | _, _ => false end = false) as ->.
    { destruct (not_before message) as [nb|], (not_after message) as [na|]; try done.
      apply Z.ltb_ge. by apply Hboth. }
    destruct (identifiers message) as [|ident idents] eqn:Hi; [done|].
    do 3 eexists. split; [reflexivity|].
    split; [reflexivity|]. split; [reflexivity|]. split; [reflexivity|].
    split; [apply add_authorizations_pending|].
    rewrite add_authorizations_identifiers.
    split; [apply NoDup_remove_dups|intros x; apply elem_of_remove_dups].
Qed.

End new_order.

(** A request whose notBefore is past and whose notAfter is 91 days out,
    with the default maximum of 90 days. *)
Lemma new_order_validation_witness :
  exists m,
    Views.AcmeNewOrderView_acme_request 1000 None None alice
      {| Views.identifiers := [("dns", "example.com")];
         Views.not_before := Some 999;
         Views.not_after := Some (1000 + 91 * 24 * 3600 * 1000000) |}
      "order-5" (fun _ => "authz-6") two_accounts_state
    = raise (AcmeMalformed malformed m).
Proof.
  destruct (new_order_validation 1000 None None alice
              {| Views.identifiers := [("dns", "example.com")];
                 Views.not_before := Some 999;
                 Views.not_after := Some (1000 + 91 * 24 * 3600 * 1000000) |}
              "order-5" (fun _ => "authz-6") two_accounts_state)
    as (_ & Hbefore & _).
  apply Hbefore. exists 999. split; [reflexivity|lia].
Defined.

(** ** Contact validation *)

Section contacts.
Import ContactValidationMixin.

Variable validate_email : string -> bool.

(** The address of a [mailto:] contact. *)
Local Abbreviation addr_of contact := (PyStr.drop (String.length email_prefix) contact).

Lemma split1_no_separator (c : Ascii.ascii) (s : string) :
  PyStr.contains_char c s = false -> PyStr.split1 c s = (s, None).
Proof.
  induction s as [|a s IH]; simpl; [done|].
  destruct (Ascii.eqb a c); [done|]. intros H. by rewrite IH.
Qed.

Lemma split1_separator (c : Ascii.ascii) (s : string) :
  PyStr.contains_char c s = true -> exists h t, PyStr.split1 c s = (h, Some t).
Proof.
  induction s as [|a s IH]; simpl; [done|].
  destruct (Ascii.eqb a c); [by eexists _, _|].
  intros H. destruct (IH H) as (h & t & ->). by eexists _, _.
Qed.

(** Another scheme than [mailto:] is an unsupported contact. *)
Lemma validate_contact_unsupported (contact : string) :
  PyStr.startswith email_prefix contact = false ->
  validate_contact validate_email contact
  = raise (AcmeMalformed "unsupportedContact" (contact +:+ ": Unsupported address scheme.")).
Proof. intros H. unfold validate_contact. by rewrite H. Qed.

(** A quoted local part, a comma, a [?] in the domain and an address with
    an [@] that [validate_email] refuses are invalid contacts. *)
Lemma validate_contact_invalid (contact : string) :
  PyStr.startswith email_prefix contact = true ->
  PyStr.startswith (String quote_char EmptyString) (addr_of contact) = true
  \/ PyStr.contains_char "," (addr_of contact) = true
  \/ (PyStr.contains_char "@" (addr_of contact) = true
      /\ (validate_email (addr_of contact) = false
          \/ exists l domain, PyStr.split1 "@" (addr_of contact) = (l, Some domain)
                              /\ PyStr.contains_char "?" domain = true)) ->
  exists m, validate_contact validate_email contact
            = raise (AcmeMalformed "invalidContact" m).
Proof.
  intros Hprefix H. unfold validate_contact. rewrite Hprefix.
  destruct (PyStr.startswith (String quote_char EmptyString) (addr_of contact));
    [by eexists|].
  destruct (PyStr.contains_char "," (addr_of contact)); [by eexists|].
  destruct H as [[=]|[[=]|[Hat H]]].
  destruct (split1_separator _ _ Hat) as (l & domain & Hsplit). rewrite Hsplit.
  destruct (PyStr.contains_char "?" domain) eqn:Hq; [by eexists|].
  destruct H as [->|(l' & domain' & Hsplit' & Hq')]; [by eexists|].
  rewrite Hsplit in Hsplit'. injection Hsplit' as <- <-. congruence.
Qed.

(** An address with no [@], no leading quote and no comma makes the
    unpacking of [addr.split("@", 1)] fail: a [ValueError], and no
    [AcmeMalformed]. *)
Lemma validate_contact_no_at (contact : string) :
  PyStr.startswith email_prefix contact = true ->
  PyStr.startswith (String quote_char EmptyString) (addr_of contact) = false ->
  PyStr.contains_char "," (addr_of contact) = false ->
  PyStr.contains_char "@" (addr_of contact) = false ->
  validate_contact validate_email contact
  = raise (ValueError "not enough values to unpack (expected 2, got 1)").
Proof.
  intros Hprefix Hquote Hcomma Hat. unfold validate_contact.
  by rewrite Hprefix, Hquote, Hcomma, (split1_no_separator _ _ Hat).
Qed.

(** C8, where the code departs from it.  The contact
    [mailto:admin.example.com] has no [@]: [validate_contacts] raises a
    [ValueError], which [post] lets through and [dispatch], with ACME
    enabled, answers as an internal server error, whatever [validate_email]
    would say. *)
Theorem validate_contacts_without_at :
  validate_contacts validate_email ["mailto:admin.example.com"]
  = raise (ValueError "not enough values to unpack (expected 2, got 1)")
  /\ post (fun _ => Some update_contact_jws) (fun _ => true) (fun _ _ => true)
       (fun _ _ => true) (fun pem => pem) (fun _ _ => Some true)
       (Views.AcmeAccountView validate_email
          (fun _ => Some {| Views.reg_status := None;
                            Views.reg_contact := ["mailto:admin.example.com"] |}))
       (jose_request "" "https://ca.example.com/acme/3A5F/acct/acct-alice/")
       "3A5F" (Some "acct-alice") update_contact_state
     = (raise (ValueError "not enough values to unpack (expected 2, got 1)"),
        with_cache (NonceStore.validate_nonce "3A5F" "Zm9v"
                      (st_cache update_contact_state)).2 update_contact_state)
  /\ dispatch (fun _ => Some update_contact_jws) (fun _ => true) (fun _ _ => true)
       (fun _ _ => true) (fun pem => pem) (fun _ _ => Some true) true
       (Views.AcmeAccountView validate_email
          (fun _ => Some {| Views.reg_status := None;
                            Views.reg_contact := ["mailto:admin.example.com"] |}))
       (jose_request "" "https://ca.example.com/acme/3A5F/acct/acct-alice/")
       "3A5F" (Some "acct-alice") "bmV4dA" update_contact_state
     = inr (AcmeResponseError "Internal server error", "bmV4dA",
            with_cache (NonceStore.get_nonce "3A5F" "bmV4dA"
                          (NonceStore.validate_nonce "3A5F" "Zm9v"
                             (st_cache update_contact_state)).2).2 update_contact_state).
Proof. repeat split; reflexivity. Qed.

End contacts.

(** ** Lookups by slug *)

Section lookups.
Import Views.

Variable order_viewable : db -> AcmeOrder.row -> bool.
Variable auth_viewable : db -> AcmeAuthorization.row -> bool.
Variable challenge_viewable : db -> AcmeChallenge.row -> bool.
Variable cert_viewable : db -> AcmeCertificate.row -> bool.
Variable challenge_usable : db -> AcmeChallenge.row -> bool.
Variable get_challenges : db -> AcmeAuthorization.row -> list AcmeChallenge.row * db.
Variable check_name : list x509.NameAttribute -> result unit.
Variable parse_acme_csr : string -> x509.CertificateSigningRequest.
Variable authorization_general_name : AcmeAuthorization.row -> x509.GeneralName.
Variable x509_DNSName : string -> result x509.GeneralName.

Lemma get_or_unauthorized_none {A} (f : A -> bool) (l : list A) :
  (forall x, x ∈ l -> f x = false) ->
  get_or_unauthorized (filter f l) = raise (AcmeUnauthorized None).
Proof. intros H. by rewrite filter_all_false. Qed.

(** C9. A slug that no order, authorization, challenge or certificate of
    the authenticated account carries, whether no row has it or a row of
    another account does, is answered with the one plain unauthorized
    response, and the state stays as it was. *)
Theorem unknown_slug_unauthorized (account : AcmeAccount.row) (slug : string)
    (message : CertificateRequest) (cert_slug : string) (st : state) :
  let d := st_db st in
  let unauthorized := (ret (AcmeResponseUnauthorized None), st) in
  ((forall o, o ∈ orders d -> AcmeOrder.slug o = slug -> order_of_account account o = false) ->
   respond (AcmeOrderView_acme_request order_viewable account slug st) st = unauthorized
   /\ respond (AcmeOrderFinalizeView_acme_request order_viewable check_name parse_acme_csr
                 authorization_general_name x509_DNSName account message (Some slug) cert_slug st) st
      = unauthorized)
  /\ ((forall a, a ∈ authorizations d -> AcmeAuthorization.slug a = slug ->
        auth_of_account d account a = false) ->
      respond (AcmeAuthorizationView_acme_request auth_viewable get_challenges
                 account slug st) st = unauthorized)
  /\ ((forall c, c ∈ challenges d -> AcmeChallenge.slug c = slug ->
        challenge_of_account d account c = false) ->
      respond (AcmeChallengeView_acme_request challenge_viewable challenge_usable
                 account slug st) st = unauthorized)
  /\ ((forall c, c ∈ certificates d -> AcmeCertificate.slug c = slug ->
        cert_of_account d account c = false) ->
      respond (AcmeCertificateView_acme_request cert_viewable account slug st) st
      = unauthorized).
Proof.
  intros d unauthorized.
  assert (forall (s r : string), String.eqb r s = true -> r = s) as Heqb
    by (intros s r; apply String.eqb_eq).
  split; [|split; [|split]]; intros H; [split|..].
  all: unfold AcmeOrderView_acme_request, AcmeOrderFinalizeView_acme_request,
         AcmeAuthorizationView_acme_request, AcmeChallengeView_acme_request,
         AcmeCertificateView_acme_request; fold d.
  all: rewrite get_or_unauthorized_none; [done|]; intros r Hr.
  all: match goal with
       | |- context [slug_is ?f ?s ?x] => destruct (slug_is f s x) eqn:Hs
       end; [|by rewrite andb_false_r].
  all: rewrite (H r Hr (Heqb _ _ Hs)); by rewrite andb_false_r.
Qed.

End lookups.

(** Alice asks for an order of Bob's, and for a slug nothing has. *)
Lemma unknown_slug_unauthorized_witness :
  respond (Views.AcmeOrderView_acme_request (fun _ _ => true) alice "order-4"
             two_accounts_state) two_accounts_state
  = (ret (AcmeResponseUnauthorized None), two_accounts_state)
  /\ respond (Views.AcmeOrderView_acme_request (fun _ _ => true) alice "order-9"
                two_accounts_state) two_accounts_state
     = (ret (AcmeResponseUnauthorized None), two_accounts_state).
Proof.
  split.
  - apply (unknown_slug_unauthorized (fun _ _ => true) (fun _ _ => true) (fun _ _ => true)
             (fun _ _ => true) (fun _ _ => true) (fun d _ => ([], d)) (fun _ => ret tt)
             (fun _ => {| x509.is_signature_valid := true;
                          x509.signature_hash_algorithm := x509.SHA256;
                          x509.subject := []; x509.subject_alternative_name := None;
                          x509.public_bytes := "" |})
             (fun a => x509.DNSName (AcmeAuthorization.value a))
             (fun text => ret (x509.DNSName text))
             alice "order-4" {| Views.csr := "" |} "cert-9" two_accounts_state).
    intros o Ho Hslug. simpl in Ho.
    repeat (apply elem_of_cons in Ho as [->|Ho]); simpl in Hslug;
      try discriminate Hslug; try reflexivity.
    by apply elem_of_nil in Ho.
  - apply (unknown_slug_unauthorized (fun _ _ => true) (fun _ _ => true) (fun _ _ => true)
             (fun _ _ => true) (fun _ _ => true) (fun d _ => ([], d)) (fun _ => ret tt)
             (fun _ => {| x509.is_signature_valid := true;
                          x509.signature_hash_algorithm := x509.SHA256;
                          x509.subject := []; x509.subject_alternative_name := None;
                          x509.public_bytes := "" |})
             (fun a => x509.DNSName (AcmeAuthorization.value a))
             (fun text => ret (x509.DNSName text))
             alice "order-9" {| Views.csr := "" |} "cert-9" two_accounts_state).
    intros o Ho Hslug. simpl in Ho.
    repeat (apply elem_of_cons in Ho as [->|Ho]); simpl in Hslug;
      try discriminate Hslug.
    by apply elem_of_nil in Ho.
Defined.

(** ** Account deactivation *)

Section deactivation.
Import Views.

Variable validate_email : string -> bool.

(** Cancelling the pending orders does not change who owns an
    authorization. *)
Lemma auth_of_account_update (d : db) (account : AcmeAccount.row)
    (sel : AcmeOrder.row -> bool) (s : AcmeOrder.status) (a : AcmeAuthorization.row) :
  auth_of_account (with_orders (update sel (AcmeOrder.set_status s) (orders d)) d) account a
  = auth_of_account d account a.
Proof.
  unfold auth_of_account, update. simpl.
  rewrite (find_map_pk AcmeOrder.pk).
  - destruct (by_pk AcmeOrder.pk (AcmeAuthorization.order a) (orders d)) as [o|]; simpl;
      [|done].
    by destruct (sel o).
  - intros r. by destruct (sel r).
Qed.

(** C10. Deactivating an account turns exactly its pending orders invalid
    and exactly the pending authorizations of its orders deactivated.
    Every other order and authorization row, of this account or of any
    other, stays as it was, no row is added or removed, and challenges,
    certificates, authorities, other accounts, the nonce cache and the
    task queue are untouched. *)
Theorem account_deactivation_frame (message : Registration) (slug : option string)
    (st : state) (account : AcmeAccount.row) :
  reg_status message = Some AcmeAccount.STATUS_DEACTIVATED_name ->
  get (filter (slug_is AcmeAccount.slug slug) (accounts (st_db st))) = ret account ->
  exists st',
    AcmeAccountView_acme_request validate_email message slug st
    = ret (AcmeResponseAccount
             (AcmeAccount.set_status AcmeAccount.STATUS_DEACTIVATED account), st')
    /\ (forall i o, orders (st_db st) !! i = Some o ->
          orders (st_db st') !! i
          = Some (if order_of_account account o
                     && bool_decide (AcmeOrder.status_ o = AcmeOrder.STATUS_PENDING)
                  then AcmeOrder.set_status AcmeOrder.STATUS_INVALID o else o))
    /\ length (orders (st_db st')) = length (orders (st_db st))
    /\ (forall i a, authorizations (st_db st) !! i = Some a ->
          authorizations (st_db st') !! i
          = Some (if auth_of_account (st_db st) account a
                     && bool_decide (AcmeAuthorization.status_ a
                                     = AcmeAuthorization.STATUS_PENDING)
                  then AcmeAuthorization.set_status AcmeAuthorization.STATUS_DEACTIVATED a
                  else a))
    /\ length (authorizations (st_db st')) = length (authorizations (st_db st))
    /\ (forall i a, accounts (st_db st) !! i = Some a ->
          AcmeAccount.pk a <> AcmeAccount.pk account ->
          accounts (st_db st') !! i = Some a)
    /\ challenges (st_db st') = challenges (st_db st)
    /\ certificates (st_db st') = certificates (st_db st)
    /\ cas (st_db st') = cas (st_db st)
    /\ st_cache st' = st_cache st
    /\ st_tasks st' = st_tasks st.
Proof.
  intros Hstatus Hget. unfold AcmeAccountView_acme_request.
  rewrite Hget. simpl. rewrite bool_decide_eq_true_2 by done.
  eexists. split; [reflexivity|]. simpl.
  repeat split.
  - intros i o Ho. unfold update. rewrite lookup_map, Ho. simpl.
    unfold order_of_account. simpl. reflexivity.
  - unfold update. by rewrite length_map.
  - intros i a Ha. unfold update. rewrite lookup_map, Ha. simpl.
    match goal with |- context [auth_of_account ?d ?acc a] =>
      match d with
      | st_db st => fail 1
      | _ => replace (auth_of_account d acc a)
               with (auth_of_account (st_db st) account a)
      end end; [reflexivity|].
    symmetry.
    rewrite <- (auth_of_account_update (st_db st) account
                  (fun o => order_of_account
                              (AcmeAccount.set_status AcmeAccount.STATUS_DEACTIVATED account) o
                            && bool_decide (AcmeOrder.status_ o = AcmeOrder.STATUS_PENDING))
                  AcmeOrder.STATUS_INVALID a).
    reflexivity.
  - unfold update. by rewrite length_map.
  - intros i a Ha Hpk. unfold save. rewrite lookup_map, Ha. simpl.
    destruct (Nat.eqb_spec (AcmeAccount.pk a) (AcmeAccount.pk account)); [done|done].
Qed.

End deactivation.

(** Alice deactivates her account: her pending order 2 and its pending
    authorization go, her other orders and Bob's pending order stay. *)
Lemma account_deactivation_frame_witness :
  exists st',
    Views.AcmeAccountView_acme_request (fun _ => true)
      {| Views.reg_status := Some "deactivated"; Views.reg_contact := [] |}
      (Some "acct-alice") two_accounts_state
    = ret (AcmeResponseAccount
             (AcmeAccount.set_status AcmeAccount.STATUS_DEACTIVATED alice), st')
    /\ AcmeOrder.status_ <$> orders (st_db st')
       = [AcmeOrder.STATUS_READY; AcmeOrder.STATUS_INVALID; AcmeOrder.STATUS_VALID;
          AcmeOrder.STATUS_PENDING]
    /\ AcmeAuthorization.status_ <$> authorizations (st_db st')
       = [AcmeAuthorization.STATUS_VALID; AcmeAuthorization.STATUS_DEACTIVATED;
          AcmeAuthorization.STATUS_VALID; AcmeAuthorization.STATUS_VALID;
          AcmeAuthorization.STATUS_PENDING].
Proof.
  destruct (account_deactivation_frame (fun _ => true)
              {| Views.reg_status := Some "deactivated"; Views.reg_contact := [] |}
              (Some "acct-alice") two_accounts_state alice eq_refl eq_refl)
    as (st' & Hrun & _).
  exists st'. split; [exact Hrun|].
  injection Hrun as <-. split; reflexivity.
Defined.

(** ** Nonces across requests *)

(** Closes an equation between closed terms by evaluating both sides. *)
Ltac vm_refl :=
  lazymatch goal with |- @eq ?T _ ?b => vm_cast_no_check (@eq_refl T b) end.

Section dispatch.

Variable json_loads : string -> option JWS.
Variable ca_acme_usable : CertificateAuthority.row -> bool.
Variable account_viewable : db -> AcmeAccount.row -> bool.
Variable account_usable : db -> AcmeAccount.row -> bool.
Variable JWK_load : string -> string.
Variable verify : JWS -> string -> option bool.

Local Abbreviation post :=
  (AcmeBaseView.post json_loads ca_acme_usable account_viewable account_usable JWK_load verify).
Local Abbreviation post_verified :=
  (AcmeBaseView.post_verified verify).
Local Abbreviation dispatch :=
  (AcmeBaseView.dispatch json_loads ca_acme_usable account_viewable account_usable JWK_load
     verify).

(** A nonce whose counter is not at zero does not validate, and the
    attempt leaves every other key of the cache alone. *)
Lemma validate_nonce_spent (serial nonce : string) (c : NonceStore.cache) :
  (forall n, c !! NonceStore.cache_key serial nonce = Some n -> 1 <= n) ->
  (NonceStore.validate_nonce serial nonce c).1 = false.
Proof.
  intros H. unfold NonceStore.validate_nonce, NonceStore.cache_incr.
  destruct (c !! NonceStore.cache_key serial nonce) as [n|] eqn:Hn; [|done].
  specialize (H n eq_refl).
  destruct (Z.ltb_spec 1 (n + 1)); [done|lia].
Qed.

(** X1. With ACME disabled [dispatch] raises [Http404] and does nothing
    else.  With ACME enabled it answers what [post] answered, or an
    internal server error for what escaped [post], and every answer
    carries the nonce just drawn, registered for the authority of the
    request: it validates on the state the request leaves behind, and
    validates once.  The database and the task queue are as [post] left
    them, and so is the cache but for the key of the new nonce, which
    holds a counter of zero. *)
Theorem dispatch_nonce_round_trip (CA_ENABLE_ACME : bool) (v : view) (request : HttpRequest)
    (serial : string) (slug : option string) (nonce : string) (st : state) :
  match dispatch CA_ENABLE_ACME v request serial slug nonce st with
  | inl raised => CA_ENABLE_ACME = false /\ raised = Http404_raised "Page not found."
  | inr (response, replay_nonce, st') =>
      let after_post := post v request serial slug st in
      let first := NonceStore.validate_nonce serial replay_nonce (st_cache st') in
      CA_ENABLE_ACME = true
      /\ response = match after_post.1 with
                    | inr response => response
                    | inl _ => AcmeResponseError "Internal server error"
                    end
      /\ replay_nonce = nonce
      /\ first.1 = true
      /\ (NonceStore.validate_nonce serial replay_nonce first.2).1 = false
      /\ st_db st' = st_db after_post.2
      /\ st_tasks st' = st_tasks after_post.2
      /\ st_cache st' !! NonceStore.cache_key serial nonce = Some 0
      /\ (forall key, key <> NonceStore.cache_key serial nonce ->
            st_cache st' !! key = st_cache after_post.2 !! key)
  end.
Proof.
  unfold dispatch, AcmeBaseView.dispatch.
  destruct CA_ENABLE_ACME; simpl; [|done].
  destruct (post v request serial slug st) as [r st1]. simpl.
  assert (NonceStore.validate_nonce serial nonce
            (NonceStore.cache_set (NonceStore.cache_key serial nonce) 0 (st_cache st1))
          = (true, <[NonceStore.cache_key serial nonce := 1]>
                     (NonceStore.cache_set (NonceStore.cache_key serial nonce) 0
                        (st_cache st1)))) as Hfirst.
  { unfold NonceStore.validate_nonce, NonceStore.cache_incr, NonceStore.cache_set.
    by rewrite lookup_insert_eq. }
  rewrite Hfirst. simpl. split_and!; try done.
  - apply validate_nonce_spent. intros n. rewrite lookup_insert_eq. intros [= <-]. lia.
  - unfold NonceStore.cache_set. by rewrite lookup_insert_eq.
  - intros key Hkey. unfold NonceStore.cache_set. by rewrite lookup_insert_ne.
Qed.

(** X2. A request whose nonce is unknown to the cache, or has been counted
    already, never reaches the view: the answer is the same for any two
    views that agree on [requires_key], and the database and the task
    queue stay as they were. *)
Theorem post_spent_nonce (v v' : view) (request : HttpRequest) (serial : string)
    (slug : option string) (st : state) (jws : JWS) :
  json_loads (body request) = Some jws ->
  (forall n, st_cache st !! NonceStore.cache_key serial (nonce (combined jws)) = Some n ->
             1 <= n) ->
  requires_key v = requires_key v' ->
  post v request serial slug st = post v' request serial slug st
  /\ st_db (post v request serial slug st).2 = st_db st
  /\ st_tasks (post v request serial slug st).2 = st_tasks st.
Proof.
  intros Hjws Hspent Hkey.
  assert (forall w ca key account,
             post_verified w request serial slug jws ca key account st
             = post_verified v request serial slug jws ca key account st
             /\ st_db (post_verified w request serial slug jws ca key account st).2 = st_db st
             /\ st_tasks (post_verified w request serial slug jws ca key account st).2
                = st_tasks st) as Hverified.
  { intros w ca key account. unfold post_verified, AcmeBaseView.post_verified.
    destruct (negb (Nat.eqb (signatures jws) 1)); [done|].
    destruct (negb (truthy_str (alg (combined jws)))); [done|].
    destruct (verify jws key) as [[|]|]; [|done|done].
    pose proof (validate_nonce_spent serial (nonce (combined jws)) (st_cache st) Hspent) as Hv.
    destruct (NonceStore.validate_nonce serial (nonce (combined jws)) (st_cache st))
      as [ok c']. simpl in Hv. subst ok. done. }
  unfold post, AcmeBaseView.post. rewrite Hjws, <- Hkey.
  destruct (negb (String.eqb (content_type request) "application/jose+json")); [done|].
  destruct (truthy_obj (jwk (combined jws)) && truthy_str (kid (combined jws))); [done|].
  destruct (get_ca ca_acme_usable serial (st_db st)) as [e|ca]; [by destruct e|].
  destruct (jwk (combined jws)) as [key|].
  - destruct (negb (requires_key v)); [done|].
    destruct (Hverified v' ca key None) as (-> & _ & _). apply (Hverified v).
  - destruct (truthy_str (kid (combined jws))); [|done].
    destruct (requires_key v); [done|].
    destruct (get_account account_viewable ca _ (st_db st)) as [e|account]; [by destruct e|].
    destruct (negb (account_usable (st_db st) account)); [done|].
    destruct (Hverified v' ca (JWK_load (AcmeAccount.pem account)) (Some account))
      as (-> & _ & _).
    apply (Hverified v).
Qed.

(** X3. A request whose signature does not verify leaves the state as it
    was: in particular it does not use up the nonce it names. *)
Theorem post_unverified_keeps_state (v : view) (request : HttpRequest) (serial : string)
    (slug : option string) (st : state) :
  (forall jws key, json_loads (body request) = Some jws -> verify jws key <> Some true) ->
  (post v request serial slug st).2 = st.
Proof.
  intros Hverify. unfold post, AcmeBaseView.post.
  destruct (negb (String.eqb (content_type request) "application/jose+json")); [done|].
  destruct (json_loads (body request)) as [jws|] eqn:Hjws; [|done].
  assert (forall ca key account,
             (post_verified v request serial slug jws ca key account st).2 = st) as Hverified.
  { intros ca key account. unfold post_verified, AcmeBaseView.post_verified.
    destruct (negb (Nat.eqb (signatures jws) 1)); [done|].
    destruct (negb (truthy_str (alg (combined jws)))); [done|].
    specialize (Hverify jws key eq_refl).
    destruct (verify jws key) as [[|]|]; done. }
  destruct (truthy_obj (jwk (combined jws)) && truthy_str (kid (combined jws))); [done|].
  destruct (get_ca ca_acme_usable serial (st_db st)) as [e|ca]; [by destruct e|].
  destruct (jwk (combined jws)) as [key|].
  - destruct (negb (requires_key v)); [done|]. apply Hverified.
  - destruct (truthy_str (kid (combined jws))); [|done].
    destruct (requires_key v); [done|].
    destruct (get_account account_viewable ca _ (st_db st)) as [e|account]; [by destruct e|].
    destruct (negb (account_usable (st_db st) account)); [done|].
    apply Hverified.
Qed.

End dispatch.

(** Alice's request again, after its nonce has been counted once: the
    account view and the order view answer alike. *)
Lemma post_spent_nonce_witness :
  let st := with_cache (<[NonceStore.cache_key "3A5F" "Zm9v" := 1]> ∅) two_accounts_state in
  let request := jose_request "" "https://ca.example.com/acme/3A5F/acct/acct-alice/" in
  let post := post (fun _ => Some update_contact_jws) (fun _ => true) (fun _ _ => true)
                (fun _ _ => true) (fun pem => pem) (fun _ _ => Some true) in
  post (Views.AcmeAccountView (fun _ => true) (fun _ => None)) request "3A5F"
    (Some "acct-alice") st
  = post (Views.AcmeOrderView (fun _ _ => true)) request "3A5F" (Some "acct-alice") st
  /\ st_db (post (Views.AcmeAccountView (fun _ => true) (fun _ => None)) request "3A5F"
              (Some "acct-alice") st).2 = two_accounts
  /\ st_tasks (post (Views.AcmeAccountView (fun _ => true) (fun _ => None)) request "3A5F"
                 (Some "acct-alice") st).2 = [].
Proof.
  apply (post_spent_nonce (fun _ => Some update_contact_jws) (fun _ => true) (fun _ _ => true)
           (fun _ _ => true) (fun pem => pem) (fun _ _ => Some true)
           (Views.AcmeAccountView (fun _ => true) (fun _ => None))
           (Views.AcmeOrderView (fun _ _ => true))
           (jose_request "" "https://ca.example.com/acme/3A5F/acct/acct-alice/") "3A5F"
           (Some "acct-alice")
           (with_cache (<[NonceStore.cache_key "3A5F" "Zm9v" := 1]> ∅) two_accounts_state)
           update_contact_jws eq_refl).
  - intros n. simpl. rewrite lookup_insert_eq. intros [= <-]. lia.
  - reflexivity.
Defined.

(** Alice's request with a signature that does not verify, on a state
    that holds its nonce unused. *)
Lemma post_unverified_keeps_state_witness :
  (post (fun _ => Some update_contact_jws) (fun _ => true) (fun _ _ => true)
     (fun _ _ => true) (fun pem => pem) (fun _ _ => Some false)
     (Views.AcmeAccountView (fun _ => true) (fun _ => None))
     (jose_request "" "https://ca.example.com/acme/3A5F/acct/acct-alice/") "3A5F"
     (Some "acct-alice") update_contact_state).2
  = update_contact_state.
Proof.
  apply (post_unverified_keeps_state (fun _ => Some update_contact_jws) (fun _ => true)
           (fun _ _ => true) (fun _ _ => true) (fun pem => pem) (fun _ _ => Some false)).
  intros jws key _. discriminate.
Defined.

(** ** Reading orders, authorizations and certificates *)

Section resources.
Import Views.

Variable order_viewable : db -> AcmeOrder.row -> bool.
Variable cert_viewable : db -> AcmeCertificate.row -> bool.

(** What [get] returns is the one row of the queryset. *)
Lemma get_ret {A} (qs : list A) (x : A) : get qs = ret x -> qs = [x].
Proof. destruct qs as [|y [|z qs]]; simpl; [done| |done]. by intros [= ->]. Qed.

Lemma get_or_unauthorized_ret {A} (qs : list A) (x : A) :
  get_or_unauthorized qs = ret x -> qs = [x].
Proof.
  unfold get_or_unauthorized. intros H. apply get_ret.
  destruct (get qs) as [[]|]; done.
Qed.

(** The one row a filtered lookup returns is a row of the table that
    passes the filter. *)
Lemma filter_singleton {A} (f : A -> bool) (l : list A) (x : A) :
  filter f l = [x] -> x ∈ l /\ f x = true.
Proof.
  intros H. assert (x ∈ filter f l) as Hx by (rewrite H; left).
  apply list_elem_of_filter in Hx as [Hf Hx]. split; [done|].
  by apply Is_true_eq_true.
Qed.

(** In a table whose keys are distinct, a filter that holds of a row and
    of no row with another key selects that row alone. *)
Lemma filter_unique {A K} (key : A -> K) (p : A -> bool) (l : list A) (x : A) :
  NoDup (map key l) -> x ∈ l -> p x = true ->
  (forall y, y ∈ l -> p y = true -> key y = key x) ->
  filter p l = [x].
Proof.
  induction l as [|y l IH]; intros Hnd Hx Hp Hkey; [by apply elem_of_nil in Hx|].
  simpl in Hnd. apply NoDup_cons in Hnd as [Hy Hnd].
  assert (forall z, z ∈ l -> key z = key y -> False) as Hfresh.
  { intros z Hz Hzy. apply Hy. rewrite <- Hzy. apply list_elem_of_fmap. by exists z. }
  apply elem_of_cons in Hx as [->|Hx].
  - rewrite filter_cons_True by (by rewrite Hp).
    f_equal. apply filter_all_false. intros z Hz.
    destruct (p z) eqn:Hpz; [|done]. exfalso. apply (Hfresh z Hz).
    apply Hkey; [by right|done].
  - destruct (p y) eqn:Hpy.
    + exfalso. apply (Hfresh x Hx). symmetry. apply Hkey; [by left|done].
    + rewrite filter_cons_False by (rewrite Hpy; intros Hf; exact Hf).
      apply IH; try done. intros z Hz. apply Hkey. by right.
Qed.

(** Following a foreign key into a table with distinct primary keys
    finds the row that has the key. *)
Lemma by_pk_unique {A} (key : A -> nat) (l : list A) (x : A) :
  NoDup (map key l) -> x ∈ l -> by_pk key (key x) l = Some x.
Proof.
  unfold by_pk. induction l as [|y l IH]; intros Hnd Hx; [by apply elem_of_nil in Hx|].
  simpl in Hnd. apply NoDup_cons in Hnd as [Hy Hnd]. simpl.
  apply elem_of_cons in Hx as [->|Hx]; [by rewrite Nat.eqb_refl|].
  destruct (Nat.eqb_spec (key y) (key x)) as [Heq|_]; [|by apply IH].
  exfalso. apply Hy. rewrite Heq. apply list_elem_of_fmap. by exists x.
Qed.

(** [AcmeOrderView.acme_request], when it answers: the order it found,
    the certificate it looked for and the document it built. *)
Lemma order_view_ret (account : AcmeAccount.row) (slug : string) (st st' : state)
    (response : response) :
  AcmeOrderView_acme_request order_viewable account slug st = ret (response, st') ->
  exists order listed link,
    st' = st
    /\ filter (fun o => order_viewable (st_db st) o && order_of_account account o
                        && slug_is AcmeOrder.slug (Some slug) o) (orders (st_db st))
       = [order]
    /\ listed
       = (if bool_decide (AcmeOrder.status_ order = AcmeOrder.STATUS_VALID
                          \/ AcmeOrder.status_ order = AcmeOrder.STATUS_INVALID)
          then filter (fun a => bool_decide (AcmeAuthorization.status_ a
                                             = AcmeAuthorization.STATUS_VALID))
                 (order_authorizations (st_db st) order)
          else order_authorizations (st_db st) order)
    /\ (forall s, link = Some s ->
          AcmeOrder.status_ order = AcmeOrder.STATUS_VALID
          /\ exists c, c ∈ certificates (st_db st)
                       /\ AcmeCertificate.slug c = s
                       /\ AcmeCertificate.order c = AcmeOrder.pk order
                       /\ AcmeCertificate.cert c <> None)
    /\ response
       = AcmeResponseOrder
           {| doc_status := AcmeOrder.status_ order;
              doc_expires := AcmeOrder.expires order;
              doc_identifiers := map identifier_of listed;
              doc_authorizations := map AcmeAuthorization.slug listed;
              doc_certificate := link;
              doc_location := AcmeOrder.slug order |}.
Proof.
  unfold AcmeOrderView_acme_request.
  destruct (get_or_unauthorized _) as [e|order] eqn:Hget; simpl; [done|].
  apply get_or_unauthorized_ret in Hget.
  destruct (get (filter _ (certificates (st_db st)))) as [e|cert] eqn:Hcert; simpl.
  - destruct e; simpl; try done. intros [= <- <-].
    eexists order, _, None. split_and!; done.
  - apply get_ret, filter_singleton in Hcert as [Hc Hco]. apply Nat.eqb_eq in Hco.
    destruct (truthy_obj (AcmeCertificate.cert cert) && _) eqn:Hissued; simpl;
      intros [= <- <-]; eexists order, _, _; split_and!; try done.
    all: intros s Hs; try discriminate Hs.
    injection Hs as <-. apply andb_prop in Hissued as [Hi Hv].
    apply bool_decide_eq_true in Hv. split; [done|].
    exists cert. split_and!; try done. intros Hnone. by rewrite Hnone in Hi.
Qed.

(** X4. The order view and the certificate view only read: whether they
    answer or raise, the state after them is the state before. *)
Theorem read_views_keep_state (account : AcmeAccount.row) (slug : string) (st : state) :
  (respond (AcmeOrderView_acme_request order_viewable account slug st) st).2 = st
  /\ (respond (AcmeCertificateView_acme_request cert_viewable account slug st) st).2 = st.
Proof.
  unfold AcmeOrderView_acme_request, AcmeCertificateView_acme_request, respond.
  split.
  - destruct (get_or_unauthorized _) as [e|order]; simpl; [done|].
    destruct (get _) as [[]|cert]; simpl; try done.
    by destruct (truthy_obj _ && _).
  - destruct (get_or_unauthorized _) as [e|cert]; simpl; [done|].
    by destruct (AcmeCertificate.cert cert).
Qed.

(** X5. The order document is that of an order of the account under the
    slug asked for.  It links to a certificate only when the order is
    valid and the certificate of the order has been issued, and for an
    order that is valid or invalid it lists completed authorizations
    only. *)
Theorem order_view_document (account : AcmeAccount.row) (slug : string) (st st' : state)
    (response : response) :
  AcmeOrderView_acme_request order_viewable account slug st = ret (response, st') ->
  exists order doc,
    response = AcmeResponseOrder doc
    /\ order ∈ orders (st_db st)
    /\ AcmeOrder.slug order = slug
    /\ AcmeOrder.account order = AcmeAccount.pk account
    /\ doc_status doc = AcmeOrder.status_ order
    /\ doc_location doc = slug
    /\ (forall s, doc_certificate doc = Some s ->
          AcmeOrder.status_ order = AcmeOrder.STATUS_VALID
          /\ exists c, c ∈ certificates (st_db st)
                       /\ AcmeCertificate.slug c = s
                       /\ AcmeCertificate.order c = AcmeOrder.pk order
                       /\ AcmeCertificate.cert c <> None)
    /\ (forall s, s ∈ doc_authorizations doc ->
          exists a, a ∈ authorizations (st_db st)
                    /\ AcmeAuthorization.slug a = s
                    /\ AcmeAuthorization.order a = AcmeOrder.pk order
                    /\ (AcmeOrder.status_ order = AcmeOrder.STATUS_VALID
                        \/ AcmeOrder.status_ order = AcmeOrder.STATUS_INVALID ->
                        AcmeAuthorization.status_ a = AcmeAuthorization.STATUS_VALID)).
Proof.
  intros Hrun.
  destruct (order_view_ret _ _ _ _ _ Hrun)
    as (order & listed & link & _ & Hget & Hl & Hc & ->).
  apply filter_singleton in Hget as [Horder Hf].
  apply andb_prop in Hf as [Hf Hslug]. apply andb_prop in Hf as [_ Hacc].
  apply String.eqb_eq in Hslug. apply Nat.eqb_eq in Hacc.
  eexists order, _. split; [reflexivity|]. simpl. split_and!; try done.
  intros s Hs. apply list_elem_of_fmap in Hs as (a & -> & Ha).
  exists a. subst listed. unfold order_authorizations in Ha. case_bool_decide as Hfinal.
  - apply list_elem_of_filter in Ha as (Hv & Ha).
    apply list_elem_of_filter in Ha as (Ho & Ha).
    apply bool_decide_unpack in Hv. apply Is_true_eq_true, Nat.eqb_eq in Ho. done.
  - apply list_elem_of_filter in Ha as (Ho & Ha).
    apply Is_true_eq_true, Nat.eqb_eq in Ho. done.
Qed.

(** X6. The link an order document carries resolves: where certificates have
    distinct slugs and orders distinct primary keys, and the linked
    certificate passes [viewable()], the certificate view answers the link
    with the certificate chain. *)
Theorem order_certificate_link (account : AcmeAccount.row) (slug s : string)
    (st st' : state) (doc : order_document) :
  AcmeOrderView_acme_request order_viewable account slug st
  = ret (AcmeResponseOrder doc, st') ->
  doc_certificate doc = Some s ->
  NoDup (map AcmeCertificate.slug (certificates (st_db st))) ->
  NoDup (map AcmeOrder.pk (orders (st_db st))) ->
  (forall c, c ∈ certificates (st_db st) -> AcmeCertificate.slug c = s ->
             cert_viewable (st_db st) c = true) ->
  exists bundle,
    AcmeCertificateView_acme_request cert_viewable account s st
    = ret (HttpResponse (String.concat newline bundle) "application/pem-certificate-chain",
           st).
Proof.
  intros Hrun Hlink Hslugs Hpks Hviewable.
  destruct (order_view_ret _ _ _ _ _ Hrun)
    as (order & listed & link & _ & Hget & _ & Hc & Hdoc).
  injection Hdoc as ->. simpl in Hlink.
  destruct (Hc s Hlink) as (_ & c & Hin & Hs & Ho & Hissued).
  apply filter_singleton in Hget as [Horder Hf].
  apply andb_prop in Hf as [Hf _]. apply andb_prop in Hf as [_ Hacc].
  unfold AcmeCertificateView_acme_request.
  rewrite (filter_unique AcmeCertificate.slug _ _ c Hslugs Hin).
  - simpl. destruct (AcmeCertificate.cert c) as [bundle|]; [by exists bundle|done].
  - rewrite (Hviewable c Hin Hs). unfold cert_of_account. rewrite Ho.
    rewrite (by_pk_unique AcmeOrder.pk _ order Hpks Horder), Hacc. simpl.
    rewrite Hs. apply String.eqb_refl.
  - intros y _ Hy. apply andb_prop in Hy as [_ Hy]. simpl in Hy.
    apply String.eqb_eq in Hy. by rewrite Hy, Hs.
Qed.

End resources.

(** Alice reads her finished order 3: the document links to the issued
    certificate and lists the order's completed authorization. *)
Lemma order_view_document_witness :
  exists order doc,
    order ∈ orders two_accounts
    /\ AcmeOrder.slug order = "order-3"
    /\ doc_status doc = AcmeOrder.STATUS_VALID
    /\ doc_certificate doc = Some "cert-1"
    /\ doc_authorizations doc = ["authz-4"].
Proof.
  destruct (order_view_document (fun _ _ => true) alice "order-3" two_accounts_state
              two_accounts_state
              (AcmeResponseOrder
                 {| doc_status := AcmeOrder.STATUS_VALID; doc_expires := 3600000000;
                    doc_identifiers := [("dns", "d.example.com")];
                    doc_authorizations := ["authz-4"];
                    doc_certificate := Some "cert-1";
                    doc_location := "order-3" |}) eq_refl)
    as (order & doc & Hdoc & Hin & Hslug & _).
  exists order, doc. injection Hdoc as <-. done.
Defined.

(** The link of that document, followed. *)
Lemma order_certificate_link_witness :
  exists bundle,
    Views.AcmeCertificateView_acme_request (fun _ _ => true) alice "cert-1" two_accounts_state
    = ret (HttpResponse (String.concat Views.newline bundle)
             "application/pem-certificate-chain", two_accounts_state).
Proof.
  apply (order_certificate_link (fun _ _ => true) (fun _ _ => true) alice "order-3" "cert-1"
           two_accounts_state two_accounts_state
           {| doc_status := AcmeOrder.STATUS_VALID; doc_expires := 3600000000;
              doc_identifiers := [("dns", "d.example.com")];
              doc_authorizations := ["authz-4"];
              doc_certificate := Some "cert-1";
              doc_location := "order-3" |} eq_refl eq_refl).
  - apply (bool_decide_unpack _). reflexivity.
  - apply (bool_decide_unpack _). reflexivity.
  - reflexivity.
Defined.

(** ** Challenges and certificates: what a request writes *)

Section writes.
Import Views.

Variable order_viewable : db -> AcmeOrder.row -> bool.
Variable challenge_viewable : db -> AcmeChallenge.row -> bool.
Variable challenge_usable : db -> AcmeChallenge.row -> bool.
Variable check_name : list x509.NameAttribute -> result unit.
Variable parse_acme_csr : string -> x509.CertificateSigningRequest.
Variable authorization_general_name : AcmeAuthorization.row -> x509.GeneralName.
Variable x509_DNSName : string -> result x509.GeneralName.

Local Abbreviation finalize :=
  (AcmeOrderFinalizeView_acme_request order_viewable check_name parse_acme_csr
     authorization_general_name x509_DNSName).
Local Abbreviation validate_csr :=
  (Views.validate_csr check_name parse_acme_csr authorization_general_name x509_DNSName).

(** The next primary key of a table is above every key in it. *)
Lemma next_pk_above {A} (key : A -> nat) (table : list A) (r : A) :
  r ∈ table -> (key r < next_pk key table)%nat.
Proof.
  unfold next_pk. induction table as [|x table IH]; intros Hr;
    [by apply elem_of_nil in Hr|].
  simpl. apply elem_of_cons in Hr as [->|Hr]; [lia|]. specialize (IH Hr). lia.
Qed.

(** Rows with distinct keys are told apart by their keys. *)
Lemma NoDup_key_inj {A K} (key : A -> K) (l : list A) (x y : A) :
  NoDup (map key l) -> x ∈ l -> y ∈ l -> key x = key y -> x = y.
Proof.
  induction l as [|z l IH]; intros Hnd Hx Hy Hk; [by apply elem_of_nil in Hx|].
  simpl in Hnd. apply NoDup_cons in Hnd as [Hz Hnd].
  apply elem_of_cons in Hx as [->|Hx]; apply elem_of_cons in Hy as [->|Hy]; try done.
  - exfalso. apply Hz. rewrite Hk. apply list_elem_of_fmap. by exists y.
  - exfalso. apply Hz. rewrite <- Hk. apply list_elem_of_fmap. by exists x.
  - by apply IH.
Qed.

(** A filter that only rows of one key pass selects at most one row of a
    table with distinct keys. *)
Lemma filter_at_most_one {A K} (key : A -> K) (k : K) (p : A -> bool) (l : list A) :
  NoDup (map key l) ->
  (forall y, y ∈ l -> p y = true -> key y = k) ->
  filter p l = [] \/ exists x, filter p l = [x] /\ x ∈ l /\ p x = true.
Proof.
  intros Hnd Hkey. destruct (filter p l) as [|x rest] eqn:Hf; [by left|]. right.
  assert (x ∈ filter p l) as Hx by (rewrite Hf; left).
  apply list_elem_of_filter in Hx as [Hp Hx]. apply Is_true_eq_true in Hp.
  exists x. split; [|done]. rewrite <- Hf.
  apply (filter_unique key); try done.
  intros y Hy Hpy. by rewrite (Hkey y Hy Hpy), (Hkey x Hx Hp).
Qed.

(** X7. [AcmeChallengeView.acme_request], when it answers.  For a usable
    challenge the rows with its primary key become the challenge in status
    processing, one validation task for it joins the queue, and nothing
    else changes; for any other challenge nothing is written and the
    answer reports the challenge as it stands. *)
Theorem challenge_view_frame (account : AcmeAccount.row) (slug : string) (st st' : state)
    (response : response) :
  AcmeChallengeView_acme_request challenge_viewable challenge_usable account slug st
  = ret (response, st') ->
  exists ch,
    ch ∈ challenges (st_db st)
    /\ AcmeChallenge.slug ch = slug
    /\ challenge_of_account (st_db st) account ch = true
    /\ (challenge_usable (st_db st) ch = true ->
        response = AcmeResponseChallenge slug AcmeChallenge.STATUS_PROCESSING
                     (AcmeChallenge.validated ch)
        /\ st_tasks st' = st_tasks st ++ [acme_validate_challenge (AcmeChallenge.pk ch)]
        /\ (forall i c, challenges (st_db st) !! i = Some c ->
              challenges (st_db st') !! i
              = Some (if Nat.eqb (AcmeChallenge.pk c) (AcmeChallenge.pk ch)
                      then AcmeChallenge.set_status AcmeChallenge.STATUS_PROCESSING ch
                      else c))
        /\ length (challenges (st_db st')) = length (challenges (st_db st))
        /\ authorizations (st_db st') = authorizations (st_db st)
        /\ orders (st_db st') = orders (st_db st)
        /\ certificates (st_db st') = certificates (st_db st)
        /\ accounts (st_db st') = accounts (st_db st)
        /\ cas (st_db st') = cas (st_db st)
        /\ st_cache st' = st_cache st)
    /\ (challenge_usable (st_db st) ch = false ->
        st' = st
        /\ response = AcmeResponseChallenge slug (AcmeChallenge.status_ ch)
                        (AcmeChallenge.validated ch)).
Proof.
  unfold AcmeChallengeView_acme_request.
  destruct (get_or_unauthorized _) as [e|ch] eqn:Hget; simpl; [done|].
  apply get_or_unauthorized_ret, filter_singleton in Hget as [Hin Hf].
  apply andb_prop in Hf as [Hf Hslug]. apply andb_prop in Hf as [_ Hacc].
  apply String.eqb_eq in Hslug.
  destruct (challenge_usable (st_db st) ch) eqn:Husable; simpl; intros [= <- <-];
    exists ch; split_and!; try done; intros Hu; try congruence; simpl; rewrite Hslug.
  - split_and!; try done.
    + intros i c Hc. unfold save. by rewrite lookup_map, Hc.
    + unfold save. by rewrite length_map.
  - done.
Qed.

(** X8. [AcmeOrderFinalizeView.acme_request], when it answers.  The order was
    ready with every authorization valid and the request passed
    [validate_csr]; one certificate row is added, for this order, carrying
    the request and no certificate yet, under a primary key no row had; one
    issuing task for that row joins the queue; accounts, authorizations,
    challenges, authorities and the nonce cache stay as they were. *)
Theorem finalize_creates_certificate (account : AcmeAccount.row)
    (message : CertificateRequest) (slug : option string) (cert_slug : string)
    (st st' : state) (response : response) :
  finalize account message slug cert_slug st = ret (response, st') ->
  exists order csr new,
    order ∈ orders (st_db st)
    /\ AcmeOrder.status_ order = AcmeOrder.STATUS_READY
    /\ Forall (fun a => AcmeAuthorization.status_ a = AcmeAuthorization.STATUS_VALID)
         (order_authorizations (st_db st) order)
    /\ validate_csr message (order_authorizations (st_db st) order) = ret csr
    /\ certificates (st_db st') = certificates (st_db st) ++ [new]
    /\ AcmeCertificate.order new = AcmeOrder.pk order
    /\ AcmeCertificate.slug new = cert_slug
    /\ AcmeCertificate.csr new = csr
    /\ AcmeCertificate.cert new = None
    /\ Forall (fun c => (AcmeCertificate.pk c < AcmeCertificate.pk new)%nat)
         (certificates (st_db st))
    /\ st_tasks st' = st_tasks st ++ [acme_issue_certificate (AcmeCertificate.pk new)]
    /\ accounts (st_db st') = accounts (st_db st)
    /\ authorizations (st_db st') = authorizations (st_db st)
    /\ challenges (st_db st') = challenges (st_db st)
    /\ cas (st_db st') = cas (st_db st)
    /\ st_cache st' = st_cache st.
Proof.
  unfold AcmeOrderFinalizeView_acme_request.
  destruct (get_or_unauthorized _) as [e|order] eqn:Hget; simpl; [done|].
  apply get_or_unauthorized_ret, filter_singleton in Hget as [Hin _].
  case_bool_decide as Hready; [done|].
  destruct (existsb _ _) eqn:Hvalid; [done|].
  destruct (Views.validate_csr _ _ _ _ _ _) as [e|csr] eqn:Hcsr; simpl; [done|].
  intros [= <- <-]. eexists order, csr, _. simpl. split_and!; try done.
  - apply Forall_forall. intros a Ha.
    destruct (decide (AcmeAuthorization.status_ a = AcmeAuthorization.STATUS_VALID))
      as [|Hne]; [done|].
    assert (existsb (fun auth => bool_decide (AcmeAuthorization.status_ auth
                                             <> AcmeAuthorization.STATUS_VALID))
              (order_authorizations (st_db st) order) = true) as Hex.
    { apply existsb_exists. exists a. split; [by apply list_elem_of_In|].
      by apply bool_decide_eq_true. }
    rewrite Hex in Hvalid. discriminate.
  - apply Forall_forall. intros c Hc. simpl. by apply next_pk_above.
Qed.

(** X9. An order is finalized once.  Where orders have distinct slugs and
    distinct primary keys, a finalize request that went through leaves a
    state in which every further finalize request for the same order is
    refused, whatever it carries: with orderNotReady, or as unauthorized
    when the order is no longer viewable. *)
Theorem finalize_once (account : AcmeAccount.row) (message message2 : CertificateRequest)
    (slug cert_slug cert_slug2 : string) (st st' : state) (response : response) :
  NoDup (map AcmeOrder.slug (orders (st_db st))) ->
  NoDup (map AcmeOrder.pk (orders (st_db st))) ->
  finalize account message (Some slug) cert_slug st = ret (response, st') ->
  finalize account message2 (Some slug) cert_slug2 st'
  = raise (AcmeForbidden "orderNotReady" "This order is not yet ready.")
  \/ finalize account message2 (Some slug) cert_slug2 st' = raise (AcmeUnauthorized None).
Proof.
  intros Hslugs Hpks.
  unfold AcmeOrderFinalizeView_acme_request at 1.
  destruct (get_or_unauthorized _) as [e|order] eqn:Hget; simpl; [done|].
  apply get_or_unauthorized_ret, filter_singleton in Hget as [Hin Hf].
  apply andb_prop in Hf as [_ Hslug]. simpl in Hslug. apply String.eqb_eq in Hslug.
  case_bool_decide as Hready; [done|].
  destruct (existsb _ _); [done|].
  destruct (Views.validate_csr _ _ _ _ _ _) as [e|csr]; simpl; [done|].
  intros [= _ <-]. unfold AcmeOrderFinalizeView_acme_request. simpl.
  set (order' := AcmeOrder.set_status AcmeOrder.STATUS_PROCESSING order).
  set (orders' := save AcmeOrder.pk order' (orders (st_db st))).
  assert (forall y, y ∈ orders' ->
            y = order' \/ (y ∈ orders (st_db st) /\ AcmeOrder.pk y <> AcmeOrder.pk order))
    as Hrows.
  { intros y Hy. unfold orders', save in Hy.
    apply list_elem_of_fmap in Hy as (r & -> & Hr). simpl.
    destruct (Nat.eqb_spec (AcmeOrder.pk r) (AcmeOrder.pk order)); [by left|by right]. }
  assert (map AcmeOrder.slug orders' = map AcmeOrder.slug (orders (st_db st))) as Hsame.
  { unfold orders', save. rewrite map_map. apply map_ext_in. intros r Hr. simpl.
    destruct (Nat.eqb_spec (AcmeOrder.pk r) (AcmeOrder.pk order)) as [Heq|]; [|done].
    apply list_elem_of_In in Hr.
    by rewrite (NoDup_key_inj AcmeOrder.pk _ r order Hpks Hr Hin Heq). }
  match goal with |- context [filter (fun o => Is_true (@?p o)) orders'] =>
    destruct (filter_at_most_one AcmeOrder.slug slug p orders') as [->|(x & -> & Hx & Hp)]
  end.
  - by rewrite Hsame.
  - intros y _ Hy. apply andb_prop in Hy as [_ Hy]. by apply String.eqb_eq in Hy.
  - by right.
  - left. simpl. apply andb_prop in Hp as [_ Hxs]. simpl in Hxs.
    apply String.eqb_eq in Hxs.
    destruct (Hrows x Hx) as [->|[Hxin Hne]].
    + simpl. reflexivity.
    + exfalso. apply Hne. f_equal.
      apply (NoDup_key_inj AcmeOrder.slug _ x order Hslugs Hxin Hin). by rewrite Hxs.
Qed.

End writes.

(** Alice answers her pending challenge: it is now processing, and its
    validation is queued. *)
Lemma challenge_view_frame_witness :
  exists st',
    Views.AcmeChallengeView_acme_request (fun _ _ => true) (fun _ _ => true) alice "chall-1"
      two_accounts_state
    = ret (AcmeResponseChallenge "chall-1" AcmeChallenge.STATUS_PROCESSING None, st')
    /\ st_tasks st' = [acme_validate_challenge 1]
    /\ AcmeChallenge.status_ <$> challenges (st_db st')
       = [AcmeChallenge.STATUS_PROCESSING; AcmeChallenge.STATUS_PENDING].
Proof.
  eexists. split; [reflexivity|].
  destruct (challenge_view_frame (fun _ _ => true) (fun _ _ => true) alice "chall-1"
              two_accounts_state _ _ eq_refl) as (ch & _ & _ & _ & Husable & _).
  split; reflexivity.
Defined.

(** Alice finalizes her ready order 1 with a request for the name of its
    authorization: certificate row 2 is created and its issuance queued. *)
Lemma finalize_creates_certificate_witness :
  exists st',
    (Views.AcmeOrderFinalizeView_acme_request (fun _ _ => true) (fun _ => ret tt)
       (fun _ => a_csr [x509.DNSName "a.example.com"])
       (fun a => x509.DNSName (AcmeAuthorization.value a))
       (fun text => ret (x509.DNSName text))
       alice {| Views.csr := "CSR" |} (Some "order-1") "cert-2" two_accounts_state)
    = ret (AcmeResponseOrder
             {| doc_status := AcmeOrder.STATUS_PROCESSING; doc_expires := 3600000000;
                doc_identifiers := [("dns", "a.example.com")];
                doc_authorizations := ["authz-1"];
                doc_certificate := None; doc_location := "order-1" |}, st')
    /\ st_tasks st' = [acme_issue_certificate 2]
    /\ AcmeCertificate.slug <$> certificates (st_db st') = ["cert-1"; "cert-2"].
Proof.
  eexists. split; [vm_compute; reflexivity|].
  destruct (finalize_creates_certificate (fun _ _ => true) (fun _ => ret tt)
              (fun _ => a_csr [x509.DNSName "a.example.com"])
              (fun a => x509.DNSName (AcmeAuthorization.value a))
              (fun text => ret (x509.DNSName text))
              alice {| Views.csr := "CSR" |} (Some "order-1") "cert-2" two_accounts_state
              _ _ eq_refl) as (order & csr & new & _).
  split; reflexivity.
Defined.

(** Alice finalizes her ready order 1, and then tries once more. *)
Lemma finalize_once_witness :
  let finalize :=
    Views.AcmeOrderFinalizeView_acme_request (fun _ _ => true) (fun _ => ret tt)
      (fun _ => a_csr [x509.DNSName "a.example.com"])
      (fun a => x509.DNSName (AcmeAuthorization.value a))
      (fun text => ret (x509.DNSName text)) alice in
  exists response st',
    finalize {| Views.csr := "CSR" |} (Some "order-1") "cert-2" two_accounts_state
    = ret (response, st')
    /\ (finalize {| Views.csr := "CSR" |} (Some "order-1") "cert-3" st'
        = raise (AcmeForbidden "orderNotReady" "This order is not yet ready.")
        \/ finalize {| Views.csr := "CSR" |} (Some "order-1") "cert-3" st'
           = raise (AcmeUnauthorized None)).
Proof.
  eexists _, _. split; [vm_compute; reflexivity|].
  eapply (finalize_once (fun _ _ => true) (fun _ => ret tt)
            (fun _ => a_csr [x509.DNSName "a.example.com"])
            (fun a => x509.DNSName (AcmeAuthorization.value a))
            (fun text => ret (x509.DNSName text))
            alice {| Views.csr := "CSR" |} {| Views.csr := "CSR" |} "order-1" "cert-2"
            "cert-3" two_accounts_state).
  - apply (bool_decide_unpack _). reflexivity.
  - apply (bool_decide_unpack _). reflexivity.
  - vm_compute. reflexivity.
Defined.

(** ** What the authority and the common name add to the extensions *)

Section profile_frames.
Import Profiles.

Variable parse_general_name : string -> result x509.GeneralName.
Variable str_split : string -> list string.
Variable shlex_split : string -> list string.

Local Abbreviation _update_from_ca :=
  (Profiles._update_from_ca parse_general_name str_split shlex_split).
Local Abbreviation _update_san_from_cn := (Profiles._update_san_from_cn parse_general_name).

Implicit Types (d : gmap string loc) (h : store).

Local Ltac keys_sub :=
  let x := fresh in
  let Hx := fresh in
  intros x Hx; rewrite ?elem_of_app, ?elem_of_cons, ?elem_of_nil in *; tauto.

(** How a step on a dictionary of references and its store relates the
    state before to the state after: every key keeps its reference; only
    keys among [ka] can be new, and a new key refers to a new object; every
    object stays where it is, with its class and its criticality; and an
    object keeps its value unless a key among [km] refers to it. *)
Local Abbreviation frame ka km d h d' h' :=
  ((forall k l, d !! k = Some l -> d' !! k = Some l)
   /\ (forall k, k ∉ (ka : list string) -> d' !! k = d !! k)
   /\ (forall l e, h !! l = Some e ->
         exists e', h' !! l = Some e' /\ critical e' = critical e /\ key e' = key e)
   /\ (forall l e, h !! l = Some e ->
         (forall k, k ∈ (km : list string) -> d' !! k <> Some l) -> h' !! l = Some e)
   /\ (forall k l, d' !! k = Some l -> d !! k = Some l \/ h !! l = None)).

Lemma frame_refl d h : frame [] [] d h d h.
Proof. split_and!; try done; [|by left]. intros l e He. by exists e. Qed.


Lemma frame_trans ka1 km1 ka2 km2 d h d1 h1 d2 h2 :
  frame ka1 km1 d h d1 h1 -> frame ka2 km2 d1 h1 d2 h2 ->
  frame (ka1 ++ ka2) (km1 ++ km2) d h d2 h2.
Proof.
  intros (A1 & B1 & C1 & D1 & E1) (A2 & B2 & C2 & D2 & E2). split_and!.
  - intros k l Hk. by apply A2, A1.
  - intros k Hk. rewrite elem_of_app in Hk.
    rewrite B2, B1; [done| |]; intros Hin; apply Hk; [by left|by right].
  - intros l e He. destruct (C1 l e He) as (e1 & He1 & Hc1 & Hk1).
    destruct (C2 l e1 He1) as (e2 & He2 & Hc2 & Hk2).
    exists e2. split_and!; [done|congruence|congruence].
  - intros l e He Hno. apply D2.
    + apply D1; [done|]. intros k Hk Hd1. apply (Hno k).
      * apply elem_of_app. by left.
      * by apply A2.
    + intros k Hk. apply Hno, elem_of_app. by right.
  - intros k l Hk. destruct (E2 k l Hk) as [Hk1|Hl].
    + apply E1 in Hk1 as [?|?]; [by left|by right].
    + right. destruct (h !! l) as [e|] eqn:He; [|done].
      destruct (C1 l e He) as (e1 & He1 & _). congruence.
Qed.

Lemma frame_weaken ka km ka' km' d h d' h' :
  ka ⊆ ka' -> km ⊆ km' -> frame ka km d h d' h' -> frame ka' km' d h d' h'.
Proof.
  intros Ha Hm (A & B & C & D & E). split_and!; try done.
  - intros k Hk. apply B. intros Hin. by apply Hk, Ha.
  - intros l e He Hno. apply D; [done|]. intros k Hk. by apply Hno, Hm.
Qed.

(** [setdefault] binds the key if it was free, to a new object at the end
    of the store, and changes nothing else. *)
Lemma frame_setdefault (k : string) (e0 : Extension) d h d1 h1 :
  setdefault k e0 d h = (d1, h1) ->
  frame [k] [] d h d1 h1
  /\ is_Some (d1 !! k)
  /\ (forall l, d !! k = Some l -> d1 = d /\ h1 = h)
  /\ (d !! k = None -> d1 !! k = Some (List.length h) /\ h1 = (h ++ [e0])%list).
Proof.
  unfold setdefault, alloc. destruct (d !! k) as [l0|] eqn:Hk; intros [= <- <-].
  - split; [|by split]. destruct (frame_refl d h) as (A & B & C & D & E).
    split_and!; try done.
  - split; [|split; [|split; [done|]]].
    + split_and!.
      * intros k0 l Hk0. rewrite lookup_insert_ne; [done|]. intros <-. congruence.
      * intros k0 Hk0. rewrite lookup_insert_ne; [done|]. intros <-. apply Hk0. by left.
      * intros l e He. exists e. split; [|done]. by apply lookup_app_l_Some.
      * intros l e He _. by apply lookup_app_l_Some.
      * intros k0 l. destruct (decide (k0 = k)) as [->|Hne].
        -- rewrite lookup_insert_eq. intros [= <-]. right.
           apply lookup_ge_None. lia.
        -- rewrite lookup_insert_ne by done. by left.
    + by rewrite lookup_insert_eq.
    + intros _. by rewrite lookup_insert_eq.
Qed.

(** A successful [mutate] changes the value of the one object it is
    pointed at, to what the change function returns. *)
Lemma mutate_ret (l : loc) (f : ExtensionValue -> result ExtensionValue) h h' :
  mutate l f h = ret h' ->
  exists e v, h !! l = Some e /\ f (ext e) = ret v
              /\ h' = <[l := {| critical := critical e; ext := v |}]> h.
Proof.
  unfold mutate. destruct (h !! l) as [e|]; [|done].
  destruct (f (ext e)) as [x|v] eqn:Hf; simpl; [done|].
  intros [= <-]. by exists e, v.
Qed.

Lemma frame_mutate (k : string) (l : loc) (f : ExtensionValue -> result ExtensionValue)
    d h h' :
  (forall c v v', f v = ret v' ->
     key {| critical := c; ext := v' |} = key {| critical := c; ext := v |}) ->
  d !! k = Some l -> mutate l f h = ret h' ->
  frame [] [k] d h d h'.
Proof.
  intros Hf Hk Hm. apply mutate_ret in Hm as (e & v & He & Hv & ->).
  split_and!; try done.
  - intros l0 e0 He0. destruct (decide (l0 = l)) as [->|Hne].
    + eexists. rewrite list_lookup_insert_eq by (by eapply lookup_lt_Some).
      split; [done|]. simpl. assert (e0 = e) as -> by congruence.
      split; [done|]. rewrite (Hf _ _ _ Hv). by destruct e.
    + exists e0. by rewrite list_lookup_insert_ne.
  - intros l0 e0 He0 Hno. rewrite list_lookup_insert_ne; [done|].
    intros <-. apply (Hno k); [by left|done].
  - intros k0 l0 Hk0. by left.
Qed.

(** The changes [profiles.py] makes to extension objects keep their class. *)
Lemma append_distribution_point_key full_name c v v' :
  append_distribution_point full_name v = ret v' ->
  key {| critical := c; ext := v' |} = key {| critical := c; ext := v |}.
Proof. destruct v; simpl; try done. by intros [= <-]. Qed.

Lemma append_ocsp_key g c v v' :
  append_ocsp g v = ret v' ->
  key {| critical := c; ext := v' |} = key {| critical := c; ext := v |}.
Proof. destruct v; simpl; try done. by intros [= <-]. Qed.

Lemma append_issuers_key g c v v' :
  append_issuers g v = ret v' ->
  key {| critical := c; ext := v' |} = key {| critical := c; ext := v |}.
Proof. destruct v; simpl; try done. by intros [= <-]. Qed.

Lemma extend_names_key gs c v v' :
  extend_names gs v = ret v' ->
  key {| critical := c; ext := v' |} = key {| critical := c; ext := v |}.
Proof. destruct v; simpl; try done; by intros [= <-]. Qed.

Lemma append_if_missing_key g c v v' :
  append_if_missing g v = ret v' ->
  key {| critical := c; ext := v' |} = key {| critical := c; ext := v |}.
Proof. destruct v; simpl; try done; case_bool_decide; by intros [= <-]. Qed.

(** [setdefault] under a key and then a change of the object the key
    refers to. *)
Lemma frame_setdefault_mutate (k : string) (e0 : Extension)
    (f : ExtensionValue -> result ExtensionValue) d h d1 h1 d' h' :
  (forall c v v', f v = ret v' ->
     key {| critical := c; ext := v' |} = key {| critical := c; ext := v |}) ->
  setdefault k e0 d h = (d1, h1) ->
  match d1 !! k with
  | None => raise (AttributeError "no such key")
  | Some l => let! h := mutate l f h1 in ret (d1, h)
  end = ret (d', h') ->
  frame [k] [k] d h d' h'.
Proof.
  intros Hf Hset Hrun. apply frame_setdefault in Hset as (Hframe & _).
  destruct (d1 !! k) as [l|] eqn:Hk; [|done].
  destruct (mutate l f h1) as [x|h2] eqn:Hm; simpl in Hrun; [done|].
  injection Hrun as <- <-.
  apply (frame_trans [k] [] [] [k] d h d1 h1 d1 h2 Hframe).
  by apply (frame_mutate k l f).
Qed.

(** [_update_from_ca] as steps on the dictionary and the store. *)
Lemma update_from_ca_steps (self : Profile) (ca : CertificateAuthority) d
    (add_crl_url add_ocsp_url add_issuer_url add_issuer_alternative_name : bool) h
    (issuer : string) d' h' :
  _update_from_ca self ca d add_crl_url add_ocsp_url add_issuer_url
    add_issuer_alternative_name h = ret (issuer, d', h') ->
  exists d1 h1,
    setdefault AuthorityKeyIdentifier_key (authority_key_identifier ca) d h = (d1, h1)
    /\ frame [CRLDistributionPoints_key; AuthorityInformationAccess_key;
              IssuerAlternativeName_key]
         [CRLDistributionPoints_key; AuthorityInformationAccess_key;
          IssuerAlternativeName_key] d1 h1 d' h'.
Proof.
  unfold Profiles._update_from_ca.
  destruct (setdefault AuthorityKeyIdentifier_key _ d h) as [d1 h1] eqn:H0.
  destruct (if add_crl_url && truthy (crl_url ca) then _ else _) as [x|[d2 h2]] eqn:H1;
    simpl; [done|].
  destruct (if add_ocsp_url && truthy (ocsp_url ca) then _ else _) as [x|[d3 h3]] eqn:H2;
    simpl; [done|].
  destruct (if add_issuer_url && truthy (issuer_url ca) then _ else _) as [x|[d4 h4]] eqn:H3;
    simpl; [done|].
  destruct (if add_issuer_alternative_name && truthy (issuer_alt_name ca) then _ else _)
    as [x|[d5 h5]] eqn:H4; simpl; [done|].
  intros Hret. assert (d5 = d' /\ h5 = h') as [<- <-].
  { destruct (issuer_name self) as [n|]; [destruct (truthy n)|]; by injection Hret. }
  exists d1, h1. split; [done|].
  assert (frame [CRLDistributionPoints_key] [CRLDistributionPoints_key] d1 h1 d2 h2) as F1.
  { destruct (add_crl_url && truthy (crl_url ca)).
    - unfold setdefault_mutate in H1.
      destruct (setdefault CRLDistributionPoints_key _ d1 h1) as [dx hx] eqn:Hset.
      eapply frame_setdefault_mutate; [|exact Hset|exact H1].
      apply append_distribution_point_key.
    - injection H1 as <- <-. eapply frame_weaken; [| |apply frame_refl]; keys_sub. }
  assert (frame [AuthorityInformationAccess_key] [AuthorityInformationAccess_key]
            d2 h2 d3 h3) as F2.
  { destruct (add_ocsp_url && truthy (ocsp_url ca)).
    - destruct (setdefault AuthorityInformationAccess_key _ d2 h2) as [dx hx] eqn:Hset.
      destruct (parse_general_name (ocsp_url ca)) as [x|g]; simpl in H2; [done|].
      eapply frame_setdefault_mutate; [|exact Hset|exact H2].
      apply append_ocsp_key.
    - injection H2 as <- <-. eapply frame_weaken; [| |apply frame_refl]; keys_sub. }
  assert (frame [AuthorityInformationAccess_key] [AuthorityInformationAccess_key]
            d3 h3 d4 h4) as F3.
  { destruct (add_issuer_url && truthy (issuer_url ca)).
    - destruct (setdefault AuthorityInformationAccess_key _ d3 h3) as [dx hx] eqn:Hset.
      destruct (parse_general_name (issuer_url ca)) as [x|g]; simpl in H3; [done|].
      eapply frame_setdefault_mutate; [|exact Hset|exact H3].
      apply append_issuers_key.
    - injection H3 as <- <-. eapply frame_weaken; [| |apply frame_refl]; keys_sub. }
  assert (frame [IssuerAlternativeName_key] [IssuerAlternativeName_key] d4 h4 d5 h5) as F4.
  { destruct (add_issuer_alternative_name && truthy (issuer_alt_name ca)).
    - destruct (setdefault IssuerAlternativeName_key _ d4 h4) as [dx hx] eqn:Hset.
      destruct (mapM parse_general_name _) as [x|gs]; simpl in H4; [done|].
      eapply frame_setdefault_mutate; [|exact Hset|exact H4].
      apply extend_names_key.
    - injection H4 as <- <-. eapply frame_weaken; [| |apply frame_refl]; keys_sub. }
  pose proof (frame_trans _ _ _ _ _ _ _ _ _ _ F1
                (frame_trans _ _ _ _ _ _ _ _ _ _ F2
                   (frame_trans _ _ _ _ _ _ _ _ _ _ F3 F4))) as F.
  eapply frame_weaken; [| |exact F]; keys_sub.
Qed.

(** X10. [_update_from_ca] only adds.  Every key of the dictionary keeps the
    object it referred to, and the only keys that can be new are those of
    the authority key identifier, the CRL distribution points, the
    authority information access and the issuer alternative name, of which
    the first is always there afterwards.  Every extension object keeps
    its class and its criticality, and keeps its value too unless one of
    the three keys the authority's URLs go under refers to it. *)
Theorem update_from_ca_frame (self : Profile) (ca : CertificateAuthority) d
    (add_crl_url add_ocsp_url add_issuer_url add_issuer_alternative_name : bool) h
    (issuer : string) d' h' :
  _update_from_ca self ca d add_crl_url add_ocsp_url add_issuer_url
    add_issuer_alternative_name h = ret (issuer, d', h') ->
  (forall k l, d !! k = Some l -> d' !! k = Some l)
  /\ (forall k, k ∉ [AuthorityKeyIdentifier_key; CRLDistributionPoints_key;
                     AuthorityInformationAccess_key; IssuerAlternativeName_key] ->
        d' !! k = d !! k)
  /\ is_Some (d' !! AuthorityKeyIdentifier_key)
  /\ (forall l e, h !! l = Some e ->
        exists e', h' !! l = Some e' /\ critical e' = critical e /\ key e' = key e)
  /\ (forall l e, h !! l = Some e ->
        (forall k, k ∈ [CRLDistributionPoints_key; AuthorityInformationAccess_key;
                        IssuerAlternativeName_key] -> d' !! k <> Some l) ->
        h' !! l = Some e).
Proof.
  intros Hrun. apply update_from_ca_steps in Hrun as (d1 & h1 & H0 & F).
  apply frame_setdefault in H0 as (F0 & [l0 Haki] & _).
  pose proof F as (A & _). specialize (A _ _ Haki).
  pose proof (frame_trans _ _ _ _ _ _ _ _ _ _ F0 F) as (A' & B' & C' & D' & _).
  split_and!; done.
Qed.

(** X11. Where the dictionary has no authority key identifier and refers to
    objects of the store only, [_update_from_ca] puts the authority's own
    identifier there, as the authority gives it. *)
Theorem update_from_ca_authority_key_identifier (self : Profile) (ca : CertificateAuthority)
    d (add_crl_url add_ocsp_url add_issuer_url add_issuer_alternative_name : bool) h
    (issuer : string) d' h' :
  _update_from_ca self ca d add_crl_url add_ocsp_url add_issuer_url
    add_issuer_alternative_name h = ret (issuer, d', h') ->
  d !! AuthorityKeyIdentifier_key = None ->
  (forall k l, d !! k = Some l -> is_Some (h !! l)) ->
  view h' d' !! AuthorityKeyIdentifier_key = Some (authority_key_identifier ca).
Proof.
  intros Hrun Hnone Hvalid. apply update_from_ca_steps in Hrun as (d1 & h1 & H0 & F).
  apply frame_setdefault in H0 as (F0 & _ & _ & Hnew).
  destruct (Hnew Hnone) as [Haki ->]. destruct F as (A & _ & _ & D & E).
  unfold view. rewrite lookup_omap, (A _ _ Haki). simpl.
  apply D; [by apply list_lookup_middle|].
  intros k Hk Hd'. destruct (E k _ Hd') as [Hd1|Hlen].
  - destruct F0 as (_ & B0 & _).
    rewrite B0 in Hd1.
    + destruct (Hvalid _ _ Hd1) as [e He]. apply lookup_lt_Some in He. lia.
    + intros Hin. apply elem_of_cons in Hin as [->|Hin]; [|by apply elem_of_nil in Hin].
      repeat (apply elem_of_cons in Hk as [Hk|Hk]; [discriminate Hk|]).
      by apply elem_of_nil in Hk.
  - by rewrite list_lookup_middle in Hlen.
Qed.

(** [_update_san_from_cn] as a step on the dictionary and the store: only
    the key of the subject alternative name can be new, and only the
    object under it can change. *)
Lemma update_san_from_cn_step (cn_in_san : bool) (subject subject' : Subject) d h d' h' :
  _update_san_from_cn cn_in_san subject d h = ret (subject', d', h') ->
  frame [SubjectAlternativeName_key] [SubjectAlternativeName_key] d h d' h'
  /\ (has_CN subject = true -> subject' = subject).
Proof.
  unfold Profiles._update_san_from_cn.
  destruct (has_CN subject && cn_in_san) eqn:Hcn.
  - destruct (parse_general_name _) as [[]|g]; simpl; try done.
    destruct (setdefault_mutate _ _ _ d h) as [x|[d1 h1]] eqn:Hstep; simpl; [done|].
    intros [= <- <- <-]. split; [|done].
    unfold setdefault_mutate in Hstep.
    destruct (setdefault SubjectAlternativeName_key _ d h) as [dx hx] eqn:Hset.
    eapply frame_setdefault_mutate; [|exact Hset|exact Hstep].
    apply append_if_missing_key.
  - assert (frame [SubjectAlternativeName_key] [SubjectAlternativeName_key] d h d h)
      as Hrefl by (eapply frame_weaken; [| |apply frame_refl]; keys_sub).
    destruct (has_CN subject); simpl.
    + by intros [= <- <- <-].
    + destruct (d !! SubjectAlternativeName_key) as [l|]; [|by intros [= <- <- <-]].
      destruct (h !! l) as [[c []]|]; try done;
        destruct (get_common_name _); by intros [= <- <- <-].
Qed.

(** What [append_if_missing] returns holds the name. *)
Lemma append_if_missing_elem (g : x509.GeneralName) (v v' : ExtensionValue) :
  append_if_missing g v = ret v' ->
  exists names, (v' = SubjectAlternativeName names \/ v' = IssuerAlternativeName names)
                /\ g ∈ names.
Proof.
  destruct v as [| | | |names|names| |]; simpl; try done;
    case_bool_decide as Hin; intros [= <-]; eexists; (split; [by eauto|]); try done;
    apply elem_of_app; right; by left.
Qed.

(** X12. With a common name in the subject and [cn_in_san] set,
    [_update_san_from_cn] leaves the subject alone and sees to it that the
    subject alternative name holds the common name, parsed as a general
    name: a dictionary without the extension gets a new, non-critical one
    with that one name; an extension that is there keeps its criticality
    and its names, in their order, and gets the name at the end unless it
    holds it. *)
Theorem update_san_from_cn_adds (subject subject' : Subject) d h d' h' :
  _update_san_from_cn true subject d h = ret (subject', d', h') ->
  has_CN subject = true ->
  exists g e,
    parse_general_name (default "" (subject !! "CN")) = ret g
    /\ subject' = subject
    /\ view h' d' !! SubjectAlternativeName_key = Some e
    /\ match view h d !! SubjectAlternativeName_key with
       | None => e = new (SubjectAlternativeName [g])
       | Some e0 =>
           critical e = critical e0
           /\ forall names, ext e0 = SubjectAlternativeName names ->
                ext e = SubjectAlternativeName
                          (if bool_decide (g ∈ names) then names else (names ++ [g])%list)
       end.
Proof.
  unfold Profiles._update_san_from_cn. intros Hrun Hcn. rewrite Hcn in Hrun. simpl in Hrun.
  destruct (parse_general_name _) as [x|g] eqn:Hparse;
    [by destruct x|]. simpl in Hrun.
  destruct (setdefault_mutate _ _ _ d h) as [x|[d1 h1]] eqn:Hstep; simpl in Hrun; [done|].
  injection Hrun as <- <- <-. exists g. unfold setdefault_mutate, setdefault, alloc in Hstep.
  unfold view. rewrite !lookup_omap.
  destruct (d !! SubjectAlternativeName_key) as [l|] eqn:Hd.
  - rewrite Hd in Hstep. destruct (mutate l _ h) as [x|h2] eqn:Hm; simpl in Hstep; [done|].
    injection Hstep as <- <-. rewrite Hd. simpl.
    apply mutate_ret in Hm as (e0 & v & He0 & Hv & ->).
    eexists. split; [done|]. split; [done|].
    rewrite list_lookup_insert_eq by (by eapply lookup_lt_Some). split; [done|].
    rewrite He0. split; [done|]. intros names Hnames. simpl.
    rewrite Hnames in Hv. simpl in Hv. by case_bool_decide; injection Hv as <-.
  - rewrite lookup_insert_eq in Hstep.
    destruct (mutate _ _ _) as [x|h2] eqn:Hm; simpl in Hstep; [done|].
    injection Hstep as <- <-. rewrite lookup_insert_eq. simpl.
    apply mutate_ret in Hm as (e0 & v & He0 & Hv & ->).
    rewrite list_lookup_middle in He0 by done. injection He0 as <-.
    simpl in Hv. injection Hv as <-.
    eexists. split; [done|]. split; [done|].
    rewrite list_lookup_insert_eq by (rewrite length_app; simpl; lia).
    split; done.
Qed.

(** *** [create_cert] as a whole *)

Variable KEY_TO_EXTENSION : string -> string -> result Extension.
Variable parse_hash_algorithm : string -> result x509.HashAlgorithm.
Variable parse_expires : Z -> Z.

Local Abbreviation create_cert :=
  (Profiles.create_cert KEY_TO_EXTENSION parse_general_name str_split shlex_split
     parse_hash_algorithm parse_expires).
Local Abbreviation create_cert_extensions :=
  (Profiles.create_cert_extensions KEY_TO_EXTENSION).
Local Abbreviation normalize_extensions := (Profiles.normalize_extensions KEY_TO_EXTENSION).

(** [create_cert], when it returns: the steps it went through. *)
Lemma create_cert_ret (self : Profile) (ca : CertificateAuthority)
    (subject : option Subject) (expires : option Z) (algorithm : option string)
    (extensions : extensions_arg) (cn_in_san : option bool)
    (add_crl_url add_ocsp_url add_issuer_url add_issuer_alternative_name : option bool)
    h (r : resolved) hf :
  create_cert self ca subject expires algorithm extensions cn_in_san add_crl_url
    add_ocsp_url add_issuer_url add_issuer_alternative_name h = ret (r, hf) ->
  exists ce ov h1 ce2 h2 ce3,
    create_cert_extensions self extensions h = ret (ce, ov, h1)
    /\ _update_from_ca self ca ce
         (default (Profiles.add_crl_url self) add_crl_url)
         (default (Profiles.add_ocsp_url self) add_ocsp_url)
         (default (Profiles.add_issuer_url self) add_issuer_url)
         (default (Profiles.add_issuer_alternative_name self) add_issuer_alternative_name)
         h1 = ret (cert_issuer r, ce2, h2)
    /\ _update_san_from_cn (default (Profiles.cn_in_san self) cn_in_san)
         (default ∅ subject ∪ Profiles.subject self) ce2 h2
       = ret (cert_subject r, ce3, hf)
    /\ cert_extensions r = view hf ce3
    /\ (has_CN (default ∅ subject) = true
        \/ exists l e, ov !! SubjectAlternativeName_key = Some (Some l)
                       /\ hf !! l = Some e /\ value_truthy (ext e) = true).
Proof.
  unfold Profiles.create_cert.
  destruct (Profiles.create_cert_extensions _ _ _ _) as [x|[[ce ov] h1]] eqn:Hce;
    simpl; [done|].
  destruct (Profiles._update_from_ca _ _ _ _ _ _ _ _ _ _ _) as [x|[[issuer ce2] h2]]
    eqn:Hca; simpl; [done|].
  destruct (match algorithm with Some a => _ | None => _ end) as [x|alg]; simpl; [done|].
  destruct (Profiles._update_san_from_cn _ _ _ _ _) as [x|[[cs3 ce3] h3]] eqn:Hsan;
    simpl; [done|].
  destruct (has_CN (default ∅ subject)) eqn:Hcn; simpl.
  - intros [= <- <-]. eexists ce, ov, h1, ce2, h2, ce3. simpl. split_and!; try done.
    by left.
  - destruct (ov !! SubjectAlternativeName_key) as [[l|]|] eqn:Hov; simpl; try done.
    destruct (h3 !! l) as [e|] eqn:He; simpl; [|done].
    destruct (value_truthy (ext e)) eqn:Htruthy; simpl; [|done].
    intros [= <- <-]. eexists ce, ov, h1, ce2, h2, ce3. simpl. split_and!; try done.
    right. by exists l, e.
Qed.

(** A subject that takes a common name from the caller has it. *)
Lemma has_CN_union (subject defaults : Subject) :
  has_CN subject = true -> has_CN (subject ∪ defaults) = true.
Proof.
  unfold has_CN. destruct (subject !! "CN") as [v|] eqn:Hv; [|done].
  by rewrite (lookup_union_Some_l _ _ _ _ Hv).
Qed.

(** What the merge refers to under a key the caller gave an object for. *)
Lemma create_cert_extensions_override (self : Profile) (extensions : extensions_arg)
    h ce ov h1 (k : string) (l : loc) :
  create_cert_extensions self extensions h = ret (ce, ov, h1) ->
  ov !! k = Some (Some l) -> ce !! k = Some l.
Proof.
  unfold Profiles.create_cert_extensions.
  destruct (Profiles.normalize_extensions _ _ _) as [x|[ov0 h0]]; simpl; [done|].
  destruct (deepcopy _ _) as [copies h2]. intros [= <- <- <-] Hov.
  by rewrite lookup_merge_extensions, Hov.
Qed.

(** X13. Whatever [create_cert] resolves names the certificate: the subject has
    a common name, or the extensions have a subject alternative name with
    a value. *)
Theorem create_cert_names (self : Profile) (ca : CertificateAuthority)
    (subject : option Subject) (expires : option Z) (algorithm : option string)
    (extensions : extensions_arg) (cn_in_san : option bool)
    (add_crl_url add_ocsp_url add_issuer_url add_issuer_alternative_name : option bool)
    h (r : resolved) hf :
  create_cert self ca subject expires algorithm extensions cn_in_san add_crl_url
    add_ocsp_url add_issuer_url add_issuer_alternative_name h = ret (r, hf) ->
  has_CN (cert_subject r) = true
  \/ exists e, cert_extensions r !! SubjectAlternativeName_key = Some e
               /\ value_truthy (ext e) = true.
Proof.
  intros Hrun.
  apply create_cert_ret in Hrun
    as (ce & ov & h1 & ce2 & h2 & ce3 & Hce & Hca & Hsan & -> & Hcheck).
  destruct Hcheck as [Hcn|(l & e & Hov & He & Htruthy)].
  - left. apply update_san_from_cn_step in Hsan as (_ & Hsame).
    rewrite Hsame; by apply has_CN_union.
  - right. exists e. split; [|done].
    apply update_from_ca_steps in Hca as (d1 & h1' & H0 & (A & _)).
    apply frame_setdefault in H0 as ((A0 & _) & _).
    apply update_san_from_cn_step in Hsan as ((A3 & _) & _).
    unfold view. rewrite lookup_omap.
    rewrite (A3 _ _ (A _ _ (A0 _ _ (create_cert_extensions_override _ _ _ _ _ _ _ _ Hce Hov)))).
    done.
Qed.

(** X14. With a common name in the subject the certificate is to carry, from
    the caller or from the profile, and [cn_in_san] in force, what
    [create_cert] resolves has the common name, parsed as a general name,
    among its subject alternative names, and has the subject as the caller
    and the profile give it. *)
Theorem create_cert_cn_in_san (self : Profile) (ca : CertificateAuthority)
    (subject : option Subject) (expires : option Z) (algorithm : option string)
    (extensions : extensions_arg) (cn_in_san : option bool)
    (add_crl_url add_ocsp_url add_issuer_url add_issuer_alternative_name : option bool)
    h (r : resolved) hf :
  create_cert self ca subject expires algorithm extensions cn_in_san add_crl_url
    add_ocsp_url add_issuer_url add_issuer_alternative_name h = ret (r, hf) ->
  default (Profiles.cn_in_san self) cn_in_san = true ->
  has_CN (default ∅ subject ∪ Profiles.subject self) = true ->
  cert_subject r = default ∅ subject ∪ Profiles.subject self
  /\ exists g e names,
       parse_general_name (default "" (cert_subject r !! "CN")) = ret g
       /\ cert_extensions r !! SubjectAlternativeName_key = Some e
       /\ (ext e = SubjectAlternativeName names \/ ext e = IssuerAlternativeName names)
       /\ g ∈ names.
Proof.
  intros Hrun Hflag Hcn.
  apply create_cert_ret in Hrun
    as (ce & ov & h1 & ce2 & h2 & ce3 & _ & _ & Hsan & -> & _).
  rewrite Hflag in Hsan.
  pose proof (update_san_from_cn_step _ _ _ _ _ _ _ Hsan) as (_ & Hsame).
  specialize (Hsame Hcn). split; [done|]. rewrite Hsame.
  unfold Profiles._update_san_from_cn in Hsan. rewrite Hcn in Hsan. simpl in Hsan.
  destruct (parse_general_name _) as [x|g] eqn:Hparse; [by destruct x|]. simpl in Hsan.
  destruct (setdefault_mutate _ _ _ ce2 h2) as [x|[d1 hx]] eqn:Hstep; simpl in Hsan; [done|].
  injection Hsan as _ <- <-. unfold setdefault_mutate in Hstep.
  destruct (setdefault _ _ ce2 h2) as [dy hy].
  destruct (dy !! SubjectAlternativeName_key) as [l|] eqn:Hl; [|done].
  destruct (mutate l _ hy) as [x|hz] eqn:Hm; simpl in Hstep; [done|].
  injection Hstep as <- <-.
  apply mutate_ret in Hm as (e0 & v & He0 & Hv & ->).
  apply append_if_missing_elem in Hv as (names & Hv & Hin).
  exists g, {| critical := critical e0; ext := v |}, names. split_and!; try done.
  unfold view. rewrite lookup_omap, Hl. simpl.
  by rewrite list_lookup_insert_eq by (by eapply lookup_lt_Some).
Qed.

(** The copies [deepcopy] makes are new objects, one for each key. *)
Lemma deepcopy_items_fresh (items : list (string * Extension)) (acc : gmap string loc)
    h h0 :
  (forall l e, h0 !! l = Some e -> h !! l = Some e) ->
  (forall k l, acc !! k = Some l -> h0 !! l = None /\ is_Some (h !! l)) ->
  (forall k k' l, acc !! k = Some l -> acc !! k' = Some l -> k = k') ->
  (forall l e, h0 !! l = Some e -> (deepcopy_items items acc h).2 !! l = Some e)
  /\ (forall k l, (deepcopy_items items acc h).1 !! k = Some l ->
        h0 !! l = None /\ is_Some ((deepcopy_items items acc h).2 !! l))
  /\ (forall k k' l, (deepcopy_items items acc h).1 !! k = Some l ->
        (deepcopy_items items acc h).1 !! k' = Some l -> k = k').
Proof.
  revert acc h. induction items as [|[k0 e0] items IH]; intros acc h Hprefix Hacc Hinj;
    [done|].
  simpl. apply IH.
  - intros l e He. by apply lookup_app_l_Some, Hprefix.
  - intros k l. destruct (decide (k = k0)) as [->|Hne].
    + rewrite lookup_insert_eq. intros [= <-]. split.
      * destruct (h0 !! length h) as [e|] eqn:He; [|done].
        apply Hprefix, lookup_lt_Some in He. lia.
      * by rewrite list_lookup_middle.
    + rewrite lookup_insert_ne by done. intros Hl.
      destruct (Hacc _ _ Hl) as [Hnew [e He]]. split; [done|].
      exists e. by apply lookup_app_l_Some.
  - intros k k' l.
    destruct (decide (k = k0)) as [->|Hne], (decide (k' = k0)) as [->|Hne']; [done|..];
      rewrite ?lookup_insert_eq, ?lookup_insert_ne by done.
    + intros [= <-] Hl. destruct (Hacc _ _ Hl) as [_ [e He]].
      apply lookup_lt_Some in He. lia.
    + intros Hl [= <-]. destruct (Hacc _ _ Hl) as [_ [e He]].
      apply lookup_lt_Some in He. lia.
    + apply Hinj.
Qed.

(** X15. [create_cert] hands the profile's extensions on.  Under a key the
    caller does not override, and that is not one of those the authority's
    URLs and the common name go under, the resolved extensions hold what
    the profile holds: the profile's extension, as it is in the profile,
    or nothing (the authority key identifier apart, which is always set).
    The objects the caller passes are taken to be in the store. *)
Theorem create_cert_keeps_profile_extensions (self : Profile) (ca : CertificateAuthority)
    (subject : option Subject) (expires : option Z) (algorithm : option string)
    (extensions : extensions_arg) (cn_in_san : option bool)
    (add_crl_url add_ocsp_url add_issuer_url add_issuer_alternative_name : option bool)
    h (r : resolved) hf (ov : gmap string (option loc)) h0 (k : string) :
  create_cert self ca subject expires algorithm extensions cn_in_san add_crl_url
    add_ocsp_url add_issuer_url add_issuer_alternative_name h = ret (r, hf) ->
  normalize_extensions extensions h = ret (ov, h0) ->
  (forall k' l, ov !! k' = Some (Some l) -> is_Some (h0 !! l)) ->
  ov !! k = None ->
  k ∉ [CRLDistributionPoints_key; AuthorityInformationAccess_key;
       IssuerAlternativeName_key; SubjectAlternativeName_key] ->
  (forall e, Profiles.extensions self !! k = Some e -> cert_extensions r !! k = Some e)
  /\ (Profiles.extensions self !! k = None -> k <> AuthorityKeyIdentifier_key ->
      cert_extensions r !! k = None).
Proof.
  intros Hrun Hnorm Hvalid Hk Hkeys.
  apply create_cert_ret in Hrun
    as (ce & ov' & h1 & ce2 & h2 & ce3 & Hce & Hca & Hsan & -> & _).
  unfold Profiles.create_cert_extensions in Hce. rewrite Hnorm in Hce. simpl in Hce.
  destruct (deepcopy (Profiles.extensions self) h0) as [copies hc] eqn:Hcopy.
  injection Hce as <- <- <-.
  pose proof (deepcopy_view (Profiles.extensions self) h0) as Hview.
  pose proof (deepcopy_items_fresh (map_to_list (Profiles.extensions self)) ∅ h0 h0)
    as (Hprefix & Hfresh & Hinj); try done.
  unfold deepcopy in Hcopy. rewrite Hcopy in Hprefix, Hfresh, Hinj.
  unfold deepcopy in Hview. rewrite Hcopy in Hview. simpl in *.
  apply update_from_ca_steps in Hca as (d1 & h1a & H0 & F1).
  apply frame_setdefault in H0 as (F0 & _).
  apply update_san_from_cn_step in Hsan as (F2 & _).
  pose proof (frame_trans _ _ _ _ _ _ _ _ _ _ F0
                (frame_trans _ _ _ _ _ _ _ _ _ _ F1 F2)) as (A & B & _ & D & E).
  simpl in A, B, D, E.
  assert (merge_extensions copies ov !! k = copies !! k) as Hmerged
    by (by rewrite lookup_merge_extensions, Hk).
  split.
  - intros e He.
    assert (view hc copies !! k = Some e) as Hcopied by (by rewrite Hview).
    unfold view in Hcopied. rewrite lookup_omap in Hcopied.
    destruct (copies !! k) as [lk|] eqn:Hlk; [|done]. simpl in Hcopied.
    unfold view. rewrite lookup_omap, (A k lk) by done. simpl.
    apply D; [done|]. intros k' Hk' Hce3.
    assert (k' <> k) as Hne by (intros ->; by apply Hkeys).
    destruct (E _ _ Hce3) as [Hold|Hnew]; [|congruence].
    rewrite lookup_merge_extensions in Hold.
    destruct (ov !! k') as [[l|]|] eqn:Hov; [| |].
    + injection Hold as ->. destruct (Hvalid _ _ Hov) as [x Hx].
      destruct (Hfresh _ _ Hlk) as [Hnone _]. congruence.
    + done.
    + by apply Hne, (Hinj k' k lk).
  - intros Hnone Haki. unfold view. rewrite lookup_omap, B.
    + rewrite Hmerged.
      assert (view hc copies !! k = None) as Hcopied by (by rewrite Hview).
      unfold view in Hcopied. rewrite lookup_omap in Hcopied.
      destruct (copies !! k) as [lk|] eqn:Hlk; [|done]. simpl in Hcopied.
      destruct (Hfresh _ _ Hlk) as [_ [x Hx]]. congruence.
    + rewrite !elem_of_cons, elem_of_nil in *. tauto.
Qed.

End profile_frames.

(** A dictionary with basic constraints alone, and an authority with all
    its URLs set. *)
Lemma update_from_ca_frame_witness :
  exists d' h',
    Profiles._update_from_ca (fun s => ret (x509.UniformResourceIdentifier s))
      (fun s => [s]) (fun s => [s]) (a_profile ∅ basic_constraints true)
      a_publishing_authority {[ Profiles.BasicConstraints_key := 0%nat ]}
      true true true true [Profiles.new (Profiles.BasicConstraints false None)]
    = ret ("/CN=ca.example.com", d', h')
    /\ d' !! Profiles.BasicConstraints_key = Some 0%nat
    /\ h' !! 0%nat = Some (Profiles.new (Profiles.BasicConstraints false None))
    /\ is_Some (d' !! Profiles.AuthorityKeyIdentifier_key).
Proof.
  assert (Profiles._update_from_ca (fun s => ret (x509.UniformResourceIdentifier s))
            (fun s => [s]) (fun s => [s]) (a_profile ∅ basic_constraints true)
            a_publishing_authority {[ Profiles.BasicConstraints_key := 0%nat ]}
            true true true true [Profiles.new (Profiles.BasicConstraints false None)]
          = ret ("/CN=ca.example.com",
                 <[Profiles.IssuerAlternativeName_key := 4%nat]>
                   (<[Profiles.AuthorityInformationAccess_key := 3%nat]>
                      (<[Profiles.CRLDistributionPoints_key := 2%nat]>
                         (<[Profiles.AuthorityKeyIdentifier_key := 1%nat]>
                            {[ Profiles.BasicConstraints_key := 0%nat ]}))),
                 [Profiles.new (Profiles.BasicConstraints false None);
                  Profiles.new (Profiles.AuthorityKeyIdentifier "AA:BB");
                  Profiles.new (Profiles.CRLDistributionPoints
                                  [["http://crl.example.com/ca.crl"]]);
                  Profiles.new (Profiles.AuthorityInformationAccess
                                  [x509.UniformResourceIdentifier
                                     "http://ca.example.com/ca.der"]
                                  [x509.UniformResourceIdentifier
                                     "http://ocsp.example.com"]);
                  Profiles.new (Profiles.IssuerAlternativeName
                                  [x509.UniformResourceIdentifier
                                     "https://ca.example.com"])])) as Hrun
    by vm_refl.
  destruct (update_from_ca_frame _ _ _ _ _ _ _ _ _ _ _ _ _ _ Hrun)
    as (A & _ & Haki & _ & D).
  eexists _, _. split; [exact Hrun|]. split; [by apply A|]. split; [|exact Haki].
  apply D; [done|]. intros k Hk.
  repeat (apply elem_of_cons in Hk as [->|Hk]; [by vm_compute|]).
  by apply elem_of_nil in Hk.
Defined.

(** The same dictionary and an authority without URLs: the identifier is
    the authority's. *)
Lemma update_from_ca_authority_key_identifier_witness :
  Profiles.view [Profiles.new (Profiles.BasicConstraints false None);
                 Profiles.new (Profiles.AuthorityKeyIdentifier "AA:BB")]
    (<[Profiles.AuthorityKeyIdentifier_key := 1%nat]>
       {[ Profiles.BasicConstraints_key := 0%nat ]})
    !! Profiles.AuthorityKeyIdentifier_key
  = Some (Profiles.new (Profiles.AuthorityKeyIdentifier "AA:BB")).
Proof.
  assert (Profiles._update_from_ca (fun s => ret (x509.UniformResourceIdentifier s))
            (fun s => [s]) (fun s => [s]) (a_profile ∅ basic_constraints true)
            an_authority {[ Profiles.BasicConstraints_key := 0%nat ]}
            true true true true [Profiles.new (Profiles.BasicConstraints false None)]
          = ret ("/CN=ca.example.com",
                 <[Profiles.AuthorityKeyIdentifier_key := 1%nat]>
                   {[ Profiles.BasicConstraints_key := 0%nat ]},
                 [Profiles.new (Profiles.BasicConstraints false None);
                  Profiles.new (Profiles.AuthorityKeyIdentifier "AA:BB")])) as Hrun
    by vm_refl.
  apply (update_from_ca_authority_key_identifier _ _ _ _ _ _ _ _ _ _ _ _ _ _ Hrun).
  - by vm_compute.
  - intros k l Hk. apply lookup_singleton_Some in Hk as [_ <-]. by eexists.
Defined.

(** A subject with a common name and no extensions yet. *)
Lemma update_san_from_cn_adds_witness :
  exists g e,
    g = x509.DNSName "example.com"
    /\ Profiles.view [Profiles.new (Profiles.SubjectAlternativeName
                                      [x509.DNSName "example.com"])]
         {[ Profiles.SubjectAlternativeName_key := 0%nat ]}
         !! Profiles.SubjectAlternativeName_key = Some e
    /\ e = Profiles.new (Profiles.SubjectAlternativeName [g]).
Proof.
  assert (Profiles._update_san_from_cn (fun s => ret (x509.DNSName s)) true
            {[ "CN" := "example.com" ]} ∅ []
          = ret ({[ "CN" := "example.com" ]},
                 {[ Profiles.SubjectAlternativeName_key := 0%nat ]},
                 [Profiles.new (Profiles.SubjectAlternativeName
                                  [x509.DNSName "example.com"])])) as Hrun
    by vm_refl.
  destruct (update_san_from_cn_adds _ _ _ _ _ _ _ Hrun eq_refl)
    as (g & e & Hg & _ & He & Hnew).
  exists g, e. split; [|split; [exact He|exact Hnew]].
  vm_compute in Hg. by injection Hg as <-.
Defined.

(** A profile with basic constraints and OCSP no-check, an authority
    without URLs, and a caller who gives the common name: the resolved
    certificate names it in the subject and, with [cn_in_san], among the
    alternative names, and it still has OCSP no-check. *)
Lemma create_cert_names_witness :
  let r := {| Profiles.cert_subject := {[ "CN" := "example.com" ]};
              Profiles.cert_extensions :=
                <[Profiles.SubjectAlternativeName_key :=
                    Profiles.new (Profiles.SubjectAlternativeName
                                    [x509.DNSName "example.com"])]>
                  (<[Profiles.AuthorityKeyIdentifier_key :=
                       Profiles.new (Profiles.AuthorityKeyIdentifier "AA:BB")]>
                     with_ocsp_no_check);
              Profiles.cert_issuer := "/CN=ca.example.com";
              Profiles.cert_expires := 730;
              Profiles.cert_algorithm := x509.SHA512 |} in
  Profiles.has_CN (Profiles.cert_subject r) = true
  \/ exists e, Profiles.cert_extensions r !! Profiles.SubjectAlternativeName_key = Some e
               /\ Profiles.value_truthy (Profiles.ext e) = true.
Proof.
  apply (create_cert_names (fun s => ret (x509.DNSName s)) (fun s => [s]) (fun s => [s])
           (fun k raw => ret (Profiles.new (Profiles.OtherExtension k raw)))
           (fun _ => ret x509.SHA256) (fun z => z)
           (a_profile ∅ with_ocsp_no_check true) an_authority
           (Some {[ "CN" := "example.com" ]}) None None Profiles.ExtNone None None None None
           None [] _
           [Profiles.new (Profiles.OtherExtension "ocsp_no_check" "");
            Profiles.new (Profiles.BasicConstraints false None);
            Profiles.new (Profiles.AuthorityKeyIdentifier "AA:BB");
            Profiles.new (Profiles.SubjectAlternativeName [x509.DNSName "example.com"])]).
  vm_refl.
Defined.

Lemma create_cert_cn_in_san_witness :
  exists g e names,
    g = x509.DNSName "example.com"
    /\ (<[Profiles.SubjectAlternativeName_key :=
            Profiles.new (Profiles.SubjectAlternativeName [x509.DNSName "example.com"])]>
          (<[Profiles.AuthorityKeyIdentifier_key :=
               Profiles.new (Profiles.AuthorityKeyIdentifier "AA:BB")]>
             with_ocsp_no_check)) !! Profiles.SubjectAlternativeName_key = Some e
    /\ (Profiles.ext e = Profiles.SubjectAlternativeName names
        \/ Profiles.ext e = Profiles.IssuerAlternativeName names)
    /\ g ∈ names.
Proof.
  destruct (create_cert_cn_in_san (fun s => ret (x509.DNSName s)) (fun s => [s])
              (fun s => [s])
              (fun k raw => ret (Profiles.new (Profiles.OtherExtension k raw)))
              (fun _ => ret x509.SHA256) (fun z => z)
              (a_profile ∅ with_ocsp_no_check true) an_authority
              (Some {[ "CN" := "example.com" ]}) None None Profiles.ExtNone None None None
              None None []
              {| Profiles.cert_subject := {[ "CN" := "example.com" ]};
                 Profiles.cert_extensions :=
                   <[Profiles.SubjectAlternativeName_key :=
                       Profiles.new (Profiles.SubjectAlternativeName
                                       [x509.DNSName "example.com"])]>
                     (<[Profiles.AuthorityKeyIdentifier_key :=
                          Profiles.new (Profiles.AuthorityKeyIdentifier "AA:BB")]>
                        with_ocsp_no_check);
                 Profiles.cert_issuer := "/CN=ca.example.com";
                 Profiles.cert_expires := 730;
                 Profiles.cert_algorithm := x509.SHA512 |}
              [Profiles.new (Profiles.OtherExtension "ocsp_no_check" "");
               Profiles.new (Profiles.BasicConstraints false None);
               Profiles.new (Profiles.AuthorityKeyIdentifier "AA:BB");
               Profiles.new (Profiles.SubjectAlternativeName [x509.DNSName "example.com"])])
    as (_ & g & e & names & Hg & He & Hclass & Hin).
  - vm_refl.
  - reflexivity.
  - vm_refl.
  - exists g, e, names. split; [|done].
    vm_compute in Hg. by injection Hg as <-.
Defined.

Lemma create_cert_keeps_profile_extensions_witness :
  (<[Profiles.SubjectAlternativeName_key :=
       Profiles.new (Profiles.SubjectAlternativeName [x509.DNSName "example.com"])]>
     (<[Profiles.AuthorityKeyIdentifier_key :=
          Profiles.new (Profiles.AuthorityKeyIdentifier "AA:BB")]>
        with_ocsp_no_check)) !! "ocsp_no_check"
  = Some (Profiles.new (Profiles.OtherExtension "ocsp_no_check" "")).
Proof.
  destruct (create_cert_keeps_profile_extensions (fun s => ret (x509.DNSName s))
              (fun s => [s]) (fun s => [s])
              (fun k raw => ret (Profiles.new (Profiles.OtherExtension k raw)))
              (fun _ => ret x509.SHA256) (fun z => z)
              (a_profile ∅ with_ocsp_no_check true) an_authority
              (Some {[ "CN" := "example.com" ]}) None None Profiles.ExtNone None None None
              None None []
              {| Profiles.cert_subject := {[ "CN" := "example.com" ]};
                 Profiles.cert_extensions :=
                   <[Profiles.SubjectAlternativeName_key :=
                       Profiles.new (Profiles.SubjectAlternativeName
                                       [x509.DNSName "example.com"])]>
                     (<[Profiles.AuthorityKeyIdentifier_key :=
                          Profiles.new (Profiles.AuthorityKeyIdentifier "AA:BB")]>
                        with_ocsp_no_check);
                 Profiles.cert_issuer := "/CN=ca.example.com";
                 Profiles.cert_expires := 730;
                 Profiles.cert_algorithm := x509.SHA512 |}
              [Profiles.new (Profiles.OtherExtension "ocsp_no_check" "");
               Profiles.new (Profiles.BasicConstraints false None);
               Profiles.new (Profiles.AuthorityKeyIdentifier "AA:BB");
               Profiles.new (Profiles.SubjectAlternativeName [x509.DNSName "example.com"])]
              ∅ [] "ocsp_no_check") as [Hsome _].
  - vm_refl.
  - reflexivity.
  - intros k l Hk. by rewrite lookup_empty in Hk.
  - apply lookup_empty.
  - intros Hin. repeat (apply elem_of_cons in Hin as [Hin|Hin]; [discriminate Hin|]).
    by apply elem_of_nil in Hin.
  - apply Hsome. vm_refl.
Defined.

(** ** Registering an account *)

Section new_account.
Import NewAccountView.

Variable validate_email : string -> bool.
Variable jwk_pem : string -> string.
Variable jwk_thumbprint : string -> string.
Variable emails : Registration -> list string.
Variable kid_url : HttpRequest -> string -> string -> string.
Variable full_clean : db -> AcmeAccount.row -> option string.

Local Abbreviation acme_request :=
  (NewAccountView.acme_request validate_email jwk_pem jwk_thumbprint emails kid_url
     full_clean).

(** Contacts that pass [validate_contacts] are mail addresses that pass
    [validate_email]. *)
Lemma validate_contacts_ret (contacts : list string) (c : string) :
  ContactValidationMixin.validate_contacts validate_email contacts = ret tt ->
  c ∈ contacts ->
  PyStr.startswith ContactValidationMixin.email_prefix c = true
  /\ validate_email (PyStr.drop (String.length ContactValidationMixin.email_prefix) c) = true.
Proof.
  induction contacts as [|c0 contacts IH]; intros Hrun Hc; [by apply elem_of_nil in Hc|].
  simpl in Hrun.
  destruct (ContactValidationMixin.validate_contact validate_email c0) as [x|[]] eqn:Hc0;
    simpl in Hrun; [done|].
  apply elem_of_cons in Hc as [->|Hc]; [|by apply IH].
  unfold ContactValidationMixin.validate_contact in Hc0.
  destruct (PyStr.startswith ContactValidationMixin.email_prefix c0); [|done].
  split; [done|].
  destruct (PyStr.startswith _ _); [done|].
  destruct (PyStr.contains_char _ _); [done|].
  destruct (PyStr.split1 _ _) as [local [domain|]]; [|done].
  destruct (PyStr.contains_char _ domain); [done|].
  by destruct (validate_email _).
Qed.

(** [acme_request], when it creates an account: no account had the key
    of the request, the contacts passed validation, and the one row added
    is the account of the answer. *)
Lemma new_account_created (this : self) (message : Registration) (account_slug : string)
    (st st' : state) (account : AcmeAccount.row) :
  acme_request this message account_slug st
  = ret (AcmeResponseAccountCreated account, st') ->
  only_return_existing message = false
  /\ filter (fun a => String.eqb (AcmeAccount.thumbprint a) (jwk_thumbprint (self_jwk this))
                      && String.eqb (AcmeAccount.pem a) (jwk_pem (self_jwk this)))
       (accounts (st_db st)) = []
  /\ (CertificateAuthority.acme_requires_contact (self_ca this) = true ->
      emails message <> [])
  /\ ContactValidationMixin.validate_contacts validate_email (contact message) = ret tt
  /\ AcmeAccount.thumbprint account = jwk_thumbprint (self_jwk this)
  /\ AcmeAccount.pem account = jwk_pem (self_jwk this)
  /\ AcmeAccount.ca account = CertificateAuthority.serial (self_ca this)
  /\ AcmeAccount.status_ account = AcmeAccount.STATUS_VALID
  /\ AcmeAccount.contact account = String.concat Views.newline (contact message)
  /\ AcmeAccount.pk account = next_pk AcmeAccount.pk (accounts (st_db st))
  /\ st' = with_db (with_accounts (accounts (st_db st) ++ [account]) (st_db st)) st.
Proof.
  unfold NewAccountView.acme_request, get_by_key.
  destruct (only_return_existing message).
  { destruct (get _) as [[]|a]; done. }
  destruct (filter _ (accounts (st_db st))) as [|a [|b rest]] eqn:Hfilter; simpl;
    [|done|done].
  destruct (CertificateAuthority.acme_requires_contact (self_ca this)
            && match emails message with [] => true | _ :: _ => false end) eqn:Hreq;
    [done|].
  destruct (ContactValidationMixin.validate_contacts _ _) as [x|[]] eqn:Hvalid;
    simpl; [done|].
  destruct (full_clean _ _); [done|].
  intros [= <- <-]. simpl. split_and!; try done.
  intros Hca Hnone. by rewrite Hca, Hnone in Hreq.
Qed.

(** X16. Registering is idempotent in the key.  Once [acme_request] has
    created an account, any further new-account request made with the same
    key is answered with that account and writes nothing: whatever its
    message, its slug and the authority it is sent to. *)
Theorem new_account_idempotent (this this' : self) (message message' : Registration)
    (account_slug account_slug' : string) (st st' : state) (account : AcmeAccount.row) :
  acme_request this message account_slug st
  = ret (AcmeResponseAccountCreated account, st') ->
  self_jwk this' = self_jwk this ->
  acme_request this' message' account_slug' st' = ret (AcmeResponseAccount account, st').
Proof.
  intros Hrun Hjwk.
  apply new_account_created in Hrun
    as (_ & Hnone & _ & _ & Hthumb & Hpem & _ & _ & _ & _ & ->).
  unfold NewAccountView.acme_request, get_by_key. simpl. rewrite Hjwk.
  rewrite filter_app, Hnone. simpl.
  rewrite filter_cons_True; [|by rewrite Hthumb, Hpem, !String.eqb_refl].
  rewrite filter_nil. simpl. by destruct (only_return_existing message').
Qed.

(** X17. Where the authority requires a contact, every account
    [acme_request] creates has one: among the contacts of the message, which
    are those the account stores, is a mail address that passed
    [validate_email].  [emails] is taken to list addresses of mail contacts
    of the message only. *)
Theorem new_account_has_contact (this : self) (message : Registration)
    (account_slug : string) (st st' : state) (account : AcmeAccount.row) :
  (forall m, emails m <> [] ->
     exists c, c ∈ contact m
               /\ PyStr.startswith ContactValidationMixin.email_prefix c = true) ->
  acme_request this message account_slug st
  = ret (AcmeResponseAccountCreated account, st') ->
  CertificateAuthority.acme_requires_contact (self_ca this) = true ->
  AcmeAccount.contact account = String.concat Views.newline (contact message)
  /\ exists c, c ∈ contact message
               /\ PyStr.startswith ContactValidationMixin.email_prefix c = true
               /\ validate_email
                    (PyStr.drop (String.length ContactValidationMixin.email_prefix) c)
                  = true.
Proof.
  intros Hemails Hrun Hca.
  apply new_account_created in Hrun
    as (_ & _ & Hreq & Hvalid & _ & _ & _ & _ & Hcontact & _).
  split; [done|].
  destruct (Hemails message (Hreq Hca)) as (c & Hc & Hmail).
  exists c. split; [done|]. by apply validate_contacts_ret with (contact message).
Qed.

(** X18. A request that only looks an account up writes nothing: it answers
    with the one account that has the key of the request, or, when there
    is none, with the error of type accountDoesNotExist. *)
Theorem new_account_only_return_existing (this : self) (message : Registration)
    (account_slug : string) (st : state) :
  only_return_existing message = true ->
  (respond (acme_request this message account_slug st) st).2 = st
  /\ (forall account,
        get_by_key (jwk_thumbprint (self_jwk this)) (jwk_pem (self_jwk this)) (st_db st)
        = ret account ->
        acme_request this message account_slug st = ret (AcmeResponseAccount account, st))
  /\ (get_by_key (jwk_thumbprint (self_jwk this)) (jwk_pem (self_jwk this)) (st_db st)
      = raise DoesNotExist ->
      respond (acme_request this message account_slug st) st
      = (ret (AcmeResponseMalformed "accountDoesNotExist" "Account does not exist."), st)).
Proof.
  intros Honly. unfold NewAccountView.acme_request. rewrite Honly.
  split_and!.
  - by destruct (get_by_key _ _ _) as [[]|a].
  - by intros account ->.
  - by intros ->.
Qed.

End new_account.

(** Carol registers, and then sends a second registration with the same
    key, a contact that is no mail address and another slug. *)
Lemma new_account_idempotent_witness :
  let acme_request :=
    NewAccountView.acme_request (fun _ => true) (fun k => "PEM-" +:+ k)
      (fun k => "thumb-" +:+ k) mail_addresses account_url (fun _ _ => None) in
  let st' := with_db (with_accounts [alice; bob; carol] two_accounts) two_accounts_state in
  acme_request carol_request carol_registration "acct-carol" two_accounts_state
  = ret (AcmeResponseAccountCreated carol, st')
  /\ acme_request carol_request
       {| NewAccountView.contact := ["tel:+43123456"];
          NewAccountView.only_return_existing := false;
          NewAccountView.terms_of_service_agreed := false |} "acct-other" st'
     = ret (AcmeResponseAccount carol, st').
Proof.
  assert (NewAccountView.acme_request (fun _ => true) (fun k => "PEM-" +:+ k)
            (fun k => "thumb-" +:+ k) mail_addresses account_url (fun _ _ => None)
            carol_request carol_registration "acct-carol" two_accounts_state
          = ret (AcmeResponseAccountCreated carol,
                 with_db (with_accounts [alice; bob; carol] two_accounts)
                   two_accounts_state)) as Hrun by reflexivity.
  split; [exact Hrun|].
  by apply (new_account_idempotent _ _ _ _ _ _ _ _ _ _ _ _ _ _ _ Hrun).
Defined.

(** Carol's registration at an authority that requires a contact. *)
Lemma new_account_has_contact_witness :
  exists c, c ∈ ["mailto:carol@example.org"]
            /\ PyStr.startswith ContactValidationMixin.email_prefix c = true.
Proof.
  destruct (new_account_has_contact (fun _ => true) (fun k => "PEM-" +:+ k)
              (fun k => "thumb-" +:+ k) mail_addresses account_url (fun _ _ => None)
              carol_request carol_registration "acct-carol" two_accounts_state
              (with_db (with_accounts [alice; bob; carol] two_accounts) two_accounts_state)
              carol) as (_ & c & Hc & Hmail & _).
  - intros m Hm. unfold mail_addresses in Hm.
    destruct (filter _ (NewAccountView.contact m)) as [|c rest] eqn:Hf; [done|].
    assert (c ∈ filter (fun c => PyStr.startswith "mailto:" c) (NewAccountView.contact m))
      as Hc by (rewrite Hf; left).
    apply list_elem_of_filter in Hc as [Hmail Hc]. exists c. split; [done|].
    by apply Is_true_eq_true.
  - reflexivity.
  - reflexivity.
  - by exists c.
Defined.

(** Carol looks her account up before she has one. *)
Lemma new_account_only_return_existing_witness :
  respond
    (NewAccountView.acme_request (fun _ => true) (fun k => "PEM-" +:+ k)
       (fun k => "thumb-" +:+ k) mail_addresses account_url (fun _ _ => None)
       carol_request
       {| NewAccountView.contact := []; NewAccountView.only_return_existing := true;
          NewAccountView.terms_of_service_agreed := false |} "acct-carol"
       two_accounts_state) two_accounts_state
  = (ret (AcmeResponseMalformed "accountDoesNotExist" "Account does not exist."),
     two_accounts_state).
Proof.
  by apply (new_account_only_return_existing (fun _ => true) (fun k => "PEM-" +:+ k)
              (fun k => "thumb-" +:+ k) mail_addresses account_url (fun _ _ => None)
              carol_request
              {| NewAccountView.contact := []; NewAccountView.only_return_existing := true;
                 NewAccountView.terms_of_service_agreed := false |} "acct-carol"
              two_accounts_state eq_refl).
Defined.

(** ** The directory *)

Section directory.
Import Directory.

Variable CA_ENABLE_ACME : bool.
Variable ca_acme_usable : CertificateAuthority.row -> bool.
Variable default_ca : db -> option CertificateAuthority.row.
Variable website terms_of_service caa_identity : CertificateAuthority.row -> string.
Variable reverse_uri : HttpRequest -> string -> string -> string.

Local Abbreviation get :=
  (Directory.get CA_ENABLE_ACME ca_acme_usable default_ca website terms_of_service
     caa_identity reverse_uri).
Local Abbreviation meta_of := (Directory.meta_of website terms_of_service caa_identity).

(** The entries every directory has, whatever the random key is. *)
Local Abbreviation named_entries request serial :=
  ({[ "keyChange" := Url "http://localhost:8000/django_ca/acme/todo/key-change";
      "newAccount" := Url (reverse_uri request "acme-new-account" serial);
      "newNonce" := Url (reverse_uri request "acme-new-nonce" serial);
      "newOrder" := Url (reverse_uri request "acme-new-order" serial);
      "revokeCert" := Url "http://localhost:8000/django_ca/acme/todo/revoke-cert" ]}
   : gmap string entry).

(** Looks a key up in a dictionary display. *)
Local Ltac lookup_display :=
  repeat first [ rewrite lookup_insert_eq | rewrite lookup_insert_ne by done
               | rewrite lookup_singleton_eq | rewrite lookup_singleton_ne by done ];
  try done.

(** [get], when it answers with a directory: the authority it found and
    the dictionary it built. *)
Lemma directory_ret (request : HttpRequest) (serial : option string) (rnd : string)
    (d : db) (directory : gmap string entry) :
  get request serial rnd d = JsonResponse directory ->
  exists ca,
    match serial with
    | Some serial => get_ca ca_acme_usable serial d = ret ca
    | None => default_ca d = Some ca
    end
    /\ directory
       = (if bool_decide (meta_of ca = ∅) then id else <["meta" := Meta (meta_of ca)]>)
           (named_entries request (CertificateAuthority.serial ca)
              ∪ {[ rnd := Url random_entries ]}).
Proof.
  unfold Directory.get. destruct CA_ENABLE_ACME; simpl; [|done].
  assert (forall ca,
    <["revokeCert" := Url "http://localhost:8000/django_ca/acme/todo/revoke-cert"]>
      (<["newOrder" := Url (_url reverse_uri request "acme-new-order" ca)]>
         (<["newNonce" := Url (_url reverse_uri request "acme-new-nonce" ca)]>
            (<["newAccount" := Url (_url reverse_uri request "acme-new-account" ca)]>
               (<["keyChange" := Url "http://localhost:8000/django_ca/acme/todo/key-change"]>
                  (<[rnd := Url random_entries]> ∅)))))
    = named_entries request (CertificateAuthority.serial ca) ∪ {[ rnd := Url random_entries ]})
    as Hbase.
  { intros ca. apply map_eq. intros k. unfold _url.
    destruct (decide (k = "revokeCert")) as [->|?];
      [rewrite lookup_insert_eq; symmetry; apply lookup_union_Some_l; lookup_display|].
    rewrite lookup_insert_ne by done.
    destruct (decide (k = "newOrder")) as [->|?];
      [rewrite lookup_insert_eq; symmetry; apply lookup_union_Some_l; lookup_display|].
    rewrite lookup_insert_ne by done.
    destruct (decide (k = "newNonce")) as [->|?];
      [rewrite lookup_insert_eq; symmetry; apply lookup_union_Some_l; lookup_display|].
    rewrite lookup_insert_ne by done.
    destruct (decide (k = "newAccount")) as [->|?];
      [rewrite lookup_insert_eq; symmetry; apply lookup_union_Some_l; lookup_display|].
    rewrite lookup_insert_ne by done.
    destruct (decide (k = "keyChange")) as [->|?];
      [rewrite lookup_insert_eq; symmetry; apply lookup_union_Some_l; lookup_display|].
    rewrite lookup_insert_ne by done.
    symmetry. rewrite lookup_union_r by lookup_display.
    by rewrite insert_empty. }
  destruct serial as [serial|].
  - destruct (get_ca ca_acme_usable serial d) as [[]|ca] eqn:Hca; try done.
    intros [= <-]. exists ca. split; [done|]. rewrite Hbase. by case_bool_decide.
  - destruct (default_ca d) as [ca|] eqn:Hca; [|done].
    intros [= <-]. exists ca. split; [done|]. rewrite Hbase. by case_bool_decide.
Qed.

(** The [meta] object has a field for each attribute that is set. *)
Lemma meta_of_lookup (ca : CertificateAuthority.row) (k : string) (v : meta_value) :
  meta_of ca !! k = Some v ->
  (k = "website" /\ v = MetaText (website ca) /\ website ca <> "")
  \/ (k = "termsOfService" /\ v = MetaText (terms_of_service ca) /\ terms_of_service ca <> "")
  \/ (k = "caaIdentities" /\ v = MetaList [caa_identity ca] /\ caa_identity ca <> "").
Proof.
  assert (forall s, Profiles.truthy s = true -> s <> "") as Ht.
  { intros s Hs ->. done. }
  unfold Directory.meta_of.
  destruct (Profiles.truthy (website ca)) eqn:Hw;
    destruct (Profiles.truthy (terms_of_service ca)) eqn:Hs;
    destruct (Profiles.truthy (caa_identity ca)) eqn:Hc;
    rewrite ?lookup_insert_Some, ?lookup_empty; intros H;
    repeat match goal with
           | H : _ \/ _ |- _ => destruct H as [H|H]
           | H : _ /\ _ |- _ => destruct H as [? H]
           end; subst; try done; auto 10.
Qed.

(** X19. The directory of a serial is that of a usable authority of the
    database with this very serial: its three resource links are built
    for the serial asked for, and they and the two fixed links are there
    whatever the random key is.  The random entry is there as well when
    its key is none of the names of the directory. *)
Theorem directory_of_serial (request : HttpRequest) (serial rnd : string) (d : db)
    (directory : gmap string entry) :
  get request (Some serial) rnd d = JsonResponse directory ->
  (exists ca, ca ∈ cas d /\ ca_acme_usable ca = true
              /\ CertificateAuthority.serial ca = serial)
  /\ directory !! "newAccount" = Some (Url (reverse_uri request "acme-new-account" serial))
  /\ directory !! "newNonce" = Some (Url (reverse_uri request "acme-new-nonce" serial))
  /\ directory !! "newOrder" = Some (Url (reverse_uri request "acme-new-order" serial))
  /\ directory !! "keyChange"
     = Some (Url "http://localhost:8000/django_ca/acme/todo/key-change")
  /\ directory !! "revokeCert"
     = Some (Url "http://localhost:8000/django_ca/acme/todo/revoke-cert")
  /\ (rnd ∉ ["keyChange"; "newAccount"; "newNonce"; "newOrder"; "revokeCert"; "meta"] ->
      directory !! rnd = Some (Url random_entries)).
Proof.
  intros H. apply directory_ret in H as (ca & Hca & ->).
  unfold get_ca in Hca. apply get_ret, filter_singleton in Hca as [Hin Hca].
  apply andb_prop in Hca as [Hu Hs]. apply String.eqb_eq in Hs.
  split; [by exists ca|]. rewrite Hs.
  assert (forall k v, named_entries request serial !! k = Some v -> k <> "meta" ->
            (if bool_decide (meta_of ca = ∅) then id else <["meta" := Meta (meta_of ca)]>)
              (named_entries request serial ∪ {[ rnd := Url random_entries ]}) !! k
            = Some v) as Hnamed.
  { intros k v Hk Hne. case_bool_decide; simpl.
    - by apply lookup_union_Some_l.
    - rewrite lookup_insert_ne by done. by apply lookup_union_Some_l. }
  split_and!; try (apply Hnamed; [lookup_display|done]).
  intros Hrnd.
  assert (named_entries request serial !! rnd = None) as Hnone.
  { rewrite !not_elem_of_cons in Hrnd. destruct Hrnd as (? & ? & ? & ? & ? & ? & _).
    lookup_display. }
  assert (rnd <> "meta") as Hmeta.
  { rewrite !not_elem_of_cons in Hrnd. tauto. }
  case_bool_decide; simpl.
  - rewrite lookup_union_r by done. by rewrite lookup_singleton_eq.
  - rewrite lookup_insert_ne by done. rewrite lookup_union_r by done.
    by rewrite lookup_singleton_eq.
Qed.

(** X20. A directory never shows an empty [meta] object, nor a field of it
    for an attribute of the authority that is not set: each field of
    [meta] carries the text of the attribute, which is not empty. *)
Theorem directory_meta_fields (request : HttpRequest) (serial : option string)
    (rnd : string) (d : db) (directory : gmap string entry) (m : gmap string meta_value) :
  get request serial rnd d = JsonResponse directory ->
  directory !! "meta" = Some (Meta m) ->
  (exists k, is_Some (m !! k))
  /\ forall k v, m !! k = Some v ->
       match v with
       | MetaText text => text <> ""
       | MetaList texts => exists text, texts = [text] /\ text <> ""
       end.
Proof.
  intros H Hm. apply directory_ret in H as (ca & _ & ->).
  assert (m = meta_of ca /\ meta_of ca <> ∅) as [-> Hne].
  { case_bool_decide as He; simpl in Hm.
    - exfalso. apply lookup_union_Some_raw in Hm as [Hm|[_ Hm]].
      + revert Hm. lookup_display.
      + apply lookup_singleton_Some in Hm as [_ Hm]. done.
    - rewrite lookup_insert_eq in Hm. by injection Hm as <-. }
  split.
  - destruct (map_choose _ Hne) as (k & v & Hk). by exists k, v.
  - intros k v Hk.
    apply meta_of_lookup in Hk as [(_ & -> & ?)|[(_ & -> & ?)|(_ & -> & ?)]]; eauto.
Qed.

End directory.

Lemma directory_of_serial_witness :
  Directory.get true (fun _ => true) (fun _ => None) (fun _ => "https://ca.example.com")
    (fun _ => "") (fun _ => "example.com") uri_of
    (jose_request "" "https://ca.example.com/") (Some "3A5F") "cmFuZG9t" with_cas_example
  = Directory.JsonResponse a_directory
  /\ a_directory !! "newOrder"
     = Some (Directory.Url "https://ca.example.com/acme-new-order/3A5F")
  /\ a_directory !! "cmFuZG9t" = Some (Directory.Url Directory.random_entries).
Proof.
  assert (Directory.get true (fun _ => true) (fun _ => None)
            (fun _ => "https://ca.example.com") (fun _ => "") (fun _ => "example.com")
            uri_of (jose_request "" "https://ca.example.com/") (Some "3A5F") "cmFuZG9t"
            with_cas_example
          = Directory.JsonResponse a_directory) as H by vm_refl.
  split; [exact H|].
  pose proof (directory_of_serial true (fun _ => true) (fun _ => None)
                (fun _ => "https://ca.example.com") (fun _ => "") (fun _ => "example.com")
                uri_of _ _ _ _ _ H) as (_ & _ & _ & Ho & _ & _ & Hr).
  split; [exact Ho|]. apply Hr. apply (bool_decide_unpack _). vm_cast_no_check I.
Defined.

Lemma directory_meta_fields_witness :
  exists k, is_Some (a_meta !! k).
Proof.
  refine (proj1 (directory_meta_fields true (fun _ => true) (fun _ => None)
                   (fun _ => "https://ca.example.com") (fun _ => "") (fun _ => "example.com")
                   uri_of (jose_request "" "https://ca.example.com/") (Some "3A5F")
                   "cmFuZG9t" with_cas_example a_directory a_meta _ _)).
  - vm_refl.
  - vm_refl.
Defined.

(** ** Building profiles *)

Section profile_init.
Import Profiles ProfileInit.

Variable KEY_TO_EXTENSION : string -> string -> result Extension.
Variable parse_hash_algorithm : option string -> result x509.HashAlgorithm.
Variable BasicConstraints_new : Extension.
Variable CA_DEFAULT_SUBJECT : Subject.
Variable CA_DEFAULT_EXPIRES : Z.

Local Abbreviation cast_extensions := (ProfileInit.cast_extensions KEY_TO_EXTENSION).
Local Abbreviation __init__ :=
  (ProfileInit.__init__ KEY_TO_EXTENSION parse_hash_algorithm BasicConstraints_new
     CA_DEFAULT_SUBJECT CA_DEFAULT_EXPIRES).

(** What the cast of an argument gives. *)
Local Abbreviation cast_of k arg :=
  (match arg with
   | ArgExtension e => ret e
   | ArgSerialized raw => KEY_TO_EXTENSION k raw
   end).

(** The loop visits the items in turn, so that a key not among them
    keeps what the dictionary had, and the last item of a key gives the
    key its extension. *)
Lemma cast_extensions_other items acc exts k :
  cast_extensions items acc = ret exts -> k ∉ items.*1 -> exts !! k = acc !! k.
Proof.
  revert acc. induction items as [|[k' arg] items IH]; intros acc H Hk; simpl in *.
  - by injection H as <-.
  - apply not_elem_of_cons in Hk as [Hne Hk].
    destruct arg as [e|raw]; simpl in H.
    + rewrite (IH _ H Hk). by rewrite lookup_insert_ne.
    + destruct (KEY_TO_EXTENSION k' raw) as [?|e]; [done|]. simpl in H.
      rewrite (IH _ H Hk). by rewrite lookup_insert_ne.
Qed.

Lemma cast_extensions_keys items acc exts k :
  cast_extensions items acc = ret exts ->
  is_Some (exts !! k) <-> k ∈ items.*1 \/ is_Some (acc !! k).
Proof.
  revert acc. induction items as [|[k' arg] items IH]; intros acc H; simpl in *.
  - injection H as <-. rewrite elem_of_nil. tauto.
  - assert (forall e, is_Some (<[k' := e]> acc !! k) <-> k = k' \/ is_Some (acc !! k)) as Hi.
    { intros e. destruct (decide (k = k')) as [->|Hne].
      - rewrite lookup_insert_eq. split; [by left|by eexists].
      - rewrite lookup_insert_ne by done. split; [by right|]. by intros [?|?]. }
    rewrite elem_of_cons.
    destruct arg as [e|raw]; simpl in H.
    + rewrite (IH _ H), Hi. tauto.
    + destruct (KEY_TO_EXTENSION k' raw) as [?|e]; [done|]. simpl in H.
      rewrite (IH _ H), Hi. tauto.
Qed.

Lemma cast_extensions_item items acc exts k arg :
  cast_extensions items acc = ret exts -> NoDup items.*1 -> (k, arg) ∈ items ->
  exists e, cast_of k arg = ret e /\ exts !! k = Some e.
Proof.
  revert acc. induction items as [|[k' arg'] items IH]; intros acc H Hnd Hin; simpl in *.
  - by apply elem_of_nil in Hin.
  - apply NoDup_cons in Hnd as [Hk' Hnd].
    apply elem_of_cons in Hin as [[= -> ->]|Hin].
    + destruct arg' as [e|raw]; simpl in H.
      * exists e. split; [done|].
        rewrite (cast_extensions_other _ _ _ _ H Hk'). by rewrite lookup_insert_eq.
      * destruct (KEY_TO_EXTENSION k' raw) as [?|e]; [done|]. simpl in H.
        exists e. split; [done|].
        rewrite (cast_extensions_other _ _ _ _ H Hk'). by rewrite lookup_insert_eq.
    + destruct arg' as [e|raw]; simpl in H.
      * by apply (IH _ H).
      * destruct (KEY_TO_EXTENSION k' raw) as [?|e]; [done|]. simpl in H.
        by apply (IH _ H).
Qed.

(** [__init__], when it returns: the extensions of the profile are the
    cast ones with the default of the basic constraints. *)
Lemma init_ret name subject algorithm extensions cn_in_san expires issuer_name description
    add_crl_url add_ocsp_url add_issuer_url add_issuer_alternative_name p :
  __init__ name subject algorithm extensions cn_in_san expires issuer_name description
    add_crl_url add_ocsp_url add_issuer_url add_issuer_alternative_name = ret p ->
  exists exts,
    cast_extensions (default [] extensions) ∅ = ret exts
    /\ Profiles.extensions p
       = setdefault_value BasicConstraints_key BasicConstraints_new exts.
Proof.
  unfold ProfileInit.__init__.
  destruct (parse_hash_algorithm algorithm) as [?|a]; simpl; [done|].
  destruct (cast_extensions _ _) as [?|exts]; simpl; [done|].
  intros [= <-]. by exists exts.
Qed.

(** X21. A profile has an extension under the keys it was given and under
    that of the basic constraints, and under no other key. *)
Theorem init_extension_keys name subject algorithm extensions cn_in_san expires issuer_name
    description add_crl_url add_ocsp_url add_issuer_url add_issuer_alternative_name p k :
  __init__ name subject algorithm extensions cn_in_san expires issuer_name description
    add_crl_url add_ocsp_url add_issuer_url add_issuer_alternative_name = ret p ->
  is_Some (Profiles.extensions p !! k)
  <-> k = BasicConstraints_key \/ k ∈ (default [] extensions).*1.
Proof.
  intros H. apply init_ret in H as (exts & Hc & ->).
  pose proof (cast_extensions_keys _ _ _ k Hc) as Hk.
  rewrite lookup_empty in Hk. unfold setdefault_value.
  destruct (exts !! BasicConstraints_key) as [b|] eqn:Hb.
  - rewrite Hk. split; [intros [?|[? ?]]; [by right|done]|].
    intros [->|?]; [|by left]. apply Hk. by eexists.
  - destruct (decide (k = BasicConstraints_key)) as [->|Hne].
    + rewrite lookup_insert_eq. split; [by left|by eexists].
    + rewrite lookup_insert_ne by done. rewrite Hk.
      split; [intros [?|[? ?]]; [by right|done]|]. intros [?|?]; [done|by left].
Qed.

(** X22. A profile holds each extension object it was given as it is, and for
    each serialized value the extension its class makes of it.  The basic
    constraints are the default ones only when none were given. *)
Theorem init_extension_values name subject algorithm extensions cn_in_san expires issuer_name
    description add_crl_url add_ocsp_url add_issuer_url add_issuer_alternative_name p :
  __init__ name subject algorithm extensions cn_in_san expires issuer_name description
    add_crl_url add_ocsp_url add_issuer_url add_issuer_alternative_name = ret p ->
  NoDup (default [] extensions).*1 ->
  (forall k e, (k, ArgExtension e) ∈ default [] extensions ->
               Profiles.extensions p !! k = Some e)
  /\ (forall k raw, (k, ArgSerialized raw) ∈ default [] extensions ->
        exists e, KEY_TO_EXTENSION k raw = ret e /\ Profiles.extensions p !! k = Some e)
  /\ (BasicConstraints_key ∉ (default [] extensions).*1 ->
      Profiles.extensions p !! BasicConstraints_key = Some BasicConstraints_new).
Proof.
  intros H Hnd. apply init_ret in H as (exts & Hc & ->).
  assert (forall k e, exts !! k = Some e ->
            setdefault_value BasicConstraints_key BasicConstraints_new exts !! k = Some e)
    as Hkeep.
  { intros k e Hk. unfold setdefault_value.
    destruct (exts !! BasicConstraints_key) eqn:Hb; [done|].
    rewrite lookup_insert_ne; [done|]. intros <-. congruence. }
  split_and!.
  - intros k e Hin.
    destruct (cast_extensions_item _ _ _ _ _ Hc Hnd Hin) as (e' & [= <-] & He).
    by apply Hkeep.
  - intros k raw Hin.
    destruct (cast_extensions_item _ _ _ _ _ Hc Hnd Hin) as (e & He & Hk).
    exists e. split; [done|]. by apply Hkeep.
  - intros Hb. unfold setdefault_value.
    rewrite (cast_extensions_other _ _ _ _ Hc Hb), lookup_empty.
    by rewrite lookup_insert_eq.
Qed.

End profile_init.

Section profiles_handler.
Import Profiles ProfileInit.

Variable CA_DEFAULT_PROFILE : string.

(** X23. Once a profile has been looked up, it is kept: every later lookup of
    the name returns the same profile and leaves the handler alone,
    whatever the settings would give by then.  No name and the name of the
    default profile are the same name. *)
Theorem getitem_memoises (get_profile get_profile' : string -> result Profile)
    (name name' : option string) (this this' : handler) (p : Profile) :
  __getitem__ CA_DEFAULT_PROFILE get_profile name this = (ret p, this') ->
  default CA_DEFAULT_PROFILE name' = default CA_DEFAULT_PROFILE name ->
  __getitem__ CA_DEFAULT_PROFILE get_profile' name' this' = (ret p, this').
Proof.
  unfold __getitem__. intros H ->.
  destruct (match this with Some profiles => profiles !! _ | None => None end)
    as [q|] eqn:Hcached.
  - injection H as <- <-. by rewrite Hcached.
  - destruct (get_profile _) as [e|q]; [done|]. injection H as <- <-.
    by rewrite lookup_insert_eq.
Qed.

(** X24. The dictionary of the handler after a lookup: under the name looked
    up the profile returned, or still nothing if the lookup raised; under
    every other name what it had. *)
Theorem getitem_handler_after (get_profile : string -> result Profile)
    (name : option string) (this : handler) (k : string) :
  let answer := __getitem__ CA_DEFAULT_PROFILE get_profile name this in
  default ∅ answer.2 !! k
  = if decide (k = default CA_DEFAULT_PROFILE name)
    then match answer.1 with inr p => Some p | inl _ => None end
    else default ∅ this !! k.
Proof.
  unfold __getitem__. simpl.
  destruct (match this with Some profiles => profiles !! _ | None => None end)
    as [q|] eqn:Hcached.
  - simpl. case_decide as Hk; [|done]. subst k. by destruct this.
  - assert (default ∅ this !! default CA_DEFAULT_PROFILE name = None) as Hnone.
    { destruct this; [done|]. apply lookup_empty. }
    destruct (get_profile _) as [e|q]; simpl; case_decide as Hk; subst; try done.
    + by rewrite lookup_insert_eq.
    + by rewrite lookup_insert_ne.
Qed.

End profiles_handler.

Lemma init_extension_keys_witness :
  is_Some (Profiles.extensions a_built_profile !! "ocsp_no_check")
  <-> "ocsp_no_check" = Profiles.BasicConstraints_key
      \/ "ocsp_no_check" ∈ [("ocsp_no_check", ProfileInit.ArgSerialized "{}")].*1.
Proof.
  apply (init_extension_keys
           (fun k raw => ret (Profiles.new (Profiles.OtherExtension k raw)))
           (fun _ => ret x509.SHA512)
           (Profiles.new (Profiles.BasicConstraints false None)) ∅ 730
           "example" (Some {[ "C" := "AT" ]}) None
           (Some [("ocsp_no_check", ProfileInit.ArgSerialized "{}")])
           true None None "" true true true true).
  vm_refl.
Defined.

Lemma init_extension_values_witness :
  Profiles.extensions a_built_profile !! Profiles.BasicConstraints_key
  = Some (Profiles.new (Profiles.BasicConstraints false None)).
Proof.
  refine (proj2 (proj2 (init_extension_values
           (fun k raw => ret (Profiles.new (Profiles.OtherExtension k raw)))
           (fun _ => ret x509.SHA512)
           (Profiles.new (Profiles.BasicConstraints false None)) ∅ 730
           "example" (Some {[ "C" := "AT" ]}) None
           (Some [("ocsp_no_check", ProfileInit.ArgSerialized "{}")])
           true None None "" true true true true a_built_profile _ _)) _).
  - vm_refl.
  - apply (bool_decide_unpack _). vm_cast_no_check I.
  - apply (bool_decide_unpack _). vm_cast_no_check I.
Defined.

Lemma getitem_memoises_witness :
  ProfileInit.__getitem__ "webserver" (fun _ => raise (ValueError "no settings"))
    (Some "webserver") (Some {[ "webserver" := a_built_profile ]})
  = (ret a_built_profile, Some {[ "webserver" := a_built_profile ]}).
Proof.
  apply (getitem_memoises "webserver" (fun _ => ret a_built_profile)
           (fun _ => raise (ValueError "no settings")) None (Some "webserver") None).
  - vm_refl.
  - reflexivity.
Defined.

(** ** The default authority and the profiles of the settings *)

Section default_ca.
Import Settings.

Variable upper : string -> string.

(** Stripping leaves no zero in front, and leaves a text alone that has
    none in front. *)
Lemma lstrip_zeros_head (s t : string) : lstrip_zeros s <> String "0" t.
Proof.
  induction s as [|a s IH]; simpl; [done|].
  destruct (Ascii.eqb_spec a "0") as [->|Hne]; [done|]. congruence.
Qed.

Lemma lstrip_zeros_id (s : string) :
  (forall t, s <> String "0" t) -> lstrip_zeros s = s.
Proof.
  destruct s as [|a s]; simpl; [done|]. intros H.
  destruct (Ascii.eqb_spec a "0") as [->|Hne]; [|done]. by destruct (H s).
Qed.

(** A colon is no character of the class, so a text of the class has
    none to remove. *)
Lemma remove_colons_hex (s : string) :
  has_invalid_character s = false -> remove_colons s = s.
Proof.
  induction s as [|a s IH]; simpl; [done|]. intros H.
  apply orb_false_elim in H as [Ha Hs]. apply negb_false_iff in Ha.
  destruct (Ascii.eqb_spec a ":") as [->|_]; [done|]. by rewrite IH.
Qed.

Lemma has_invalid_character_false (s : string) :
  has_invalid_character s = false <->
  forall a, a ∈ String.list_ascii_of_string s -> is_hex a = true.
Proof.
  induction s as [|a s IH]; simpl.
  - split; [|done]. intros _ a Ha. by apply elem_of_nil in Ha.
  - rewrite orb_false_iff, negb_false_iff, IH. split.
    + intros [Ha Hs] b Hb. apply elem_of_cons in Hb as [->|Hb]; auto.
    + intros H. split; [apply H; left|intros b Hb; apply H; by right].
Qed.

(** [CA_DEFAULT_CA], when the module does not raise. *)
Lemma CA_DEFAULT_CA_ret (configured : option string) (s : string) :
  CA_DEFAULT_CA upper configured = inr s ->
  has_invalid_character s = false /\ (s = "0" \/ forall t, s <> String "0" t).
Proof.
  unfold CA_DEFAULT_CA.
  destruct (String.eqb_spec (upper (remove_colons (default "" configured))) "0")
    as [->|Hne]; simpl.
  - intros [= <-]. by split; [|left].
  - destruct (has_invalid_character _) eqn:Hv; [done|]. intros [= <-].
    split; [done|]. right. intros t. apply lstrip_zeros_head.
Qed.

(** X25. The serial of the default authority has digits and the capitals A to
    F only, and no zero in front unless it is the serial 0 itself. *)
Theorem CA_DEFAULT_CA_canonical (configured : option string) (s : string) :
  CA_DEFAULT_CA upper configured = inr s ->
  (forall a, a ∈ String.list_ascii_of_string s -> is_hex a = true)
  /\ (s = "0" \/ forall t, s <> String "0" t).
Proof.
  intros H. apply CA_DEFAULT_CA_ret in H as [Hv Hz].
  split; [|done]. by apply has_invalid_character_false.
Qed.

(** X26. Sanitising is idempotent, given that [upper] leaves digits and
    capitals alone: the serial the module settles on is accepted as it is
    when it is configured. *)
Theorem CA_DEFAULT_CA_idempotent (configured : option string) (s : string) :
  (forall t, has_invalid_character t = false -> upper t = t) ->
  CA_DEFAULT_CA upper configured = inr s ->
  CA_DEFAULT_CA upper (Some s) = inr s.
Proof.
  intros Hupper H. apply CA_DEFAULT_CA_ret in H as [Hv Hz].
  unfold CA_DEFAULT_CA. simpl. rewrite (remove_colons_hex _ Hv), (Hupper _ Hv).
  destruct Hz as [->|Hz]; [done|].
  destruct (String.eqb_spec s "0") as [->|_]; simpl; [done|].
  rewrite (lstrip_zeros_id _ Hz). by rewrite Hv.
Qed.

End default_ca.

(** [ascii_upper] leaves digits and capitals alone. *)
Lemma upper_hex (t : string) :
  Settings.has_invalid_character t = false -> ascii_upper t = t.
Proof.
  induction t as [|a t IH]; simpl; [done|]. intros H.
  apply orb_false_elim in H as [Ha Ht]. apply negb_false_iff in Ha.
  rewrite (IH Ht). f_equal.
  destruct a as [[] [] [] [] [] [] [] []]; try done.
Qed.

Lemma CA_DEFAULT_CA_canonical_witness :
  Settings.CA_DEFAULT_CA ascii_upper (Some "00:3a:5f") = inr "3A5F"
  /\ ("3A5F" = "0" \/ forall t, "3A5F" <> String "0" t).
Proof.
  split; [vm_refl|].
  refine (proj2 (CA_DEFAULT_CA_canonical ascii_upper (Some "00:3a:5f") "3A5F" _)).
  vm_refl.
Defined.

Lemma CA_DEFAULT_CA_idempotent_witness :
  Settings.CA_DEFAULT_CA ascii_upper (Some "3A5F") = inr "3A5F".
Proof.
  apply (CA_DEFAULT_CA_idempotent ascii_upper (Some "00:3a:5f") "3A5F" upper_hex).
  vm_refl.
Defined.

Section profiles_of_settings.
Import Settings.

Variable V : Type.
Variable subject_as_tuple : V -> V.
Variable CA_DEFAULT_SUBJECT : V.
Variable True_ : V.

Local Abbreviation override := (Settings.override V subject_as_tuple).
Local Abbreviation overrides := (Settings.overrides V subject_as_tuple).
Local Abbreviation with_defaults := (Settings.with_defaults V CA_DEFAULT_SUBJECT True_).
Local Abbreviation CA_PROFILES :=
  (Settings.CA_PROFILES V subject_as_tuple CA_DEFAULT_SUBJECT True_).

(** The profile a round of the loop leaves under the name of the round. *)
Local Abbreviation overridden o before :=
  (match o with
   | None => None
   | Some given =>
       Some (alter subject_as_tuple "subject" given ∪ default (∅ : gmap string V) before)
   end).

Lemma override_other profiles name o ps k :
  override profiles name o = inr ps -> k <> name -> ps !! k = profiles !! k.
Proof.
  unfold Settings.override. intros H Hne.
  destruct o as [given|]; destruct (profiles !! name); try done;
    injection H as <-; by rewrite ?lookup_insert_ne, ?lookup_delete_ne.
Qed.

Lemma override_at profiles name o ps :
  override profiles name o = inr ps ->
  ps !! name = overridden o (profiles !! name)
  /\ (o = None -> is_Some (profiles !! name)).
Proof.
  unfold Settings.override. intros H.
  destruct o as [given|]; destruct (profiles !! name) as [b|]; try done;
    injection H as <-; simpl.
  - by rewrite lookup_insert_eq.
  - rewrite lookup_insert_eq. by rewrite (right_id ∅ (∪)).
  - rewrite lookup_delete_eq. split; [done|]. by eexists.
Qed.

Lemma overrides_other profiles items ps k :
  overrides profiles items = inr ps -> k ∉ items.*1 -> ps !! k = profiles !! k.
Proof.
  revert profiles. induction items as [|[name o] items IH]; intros profiles H Hk; simpl in *.
  - by injection H as <-.
  - apply not_elem_of_cons in Hk as [Hne Hk].
    destruct (override profiles name o) as [?|ps1] eqn:Ho; [done|].
    rewrite (IH _ H Hk). by apply (override_other _ _ _ _ _ Ho).
Qed.

(** With every name at most once among the items, the profile of a name
    is settled by the round of the name, which finds under it what the
    dictionary had at the start. *)
Lemma overrides_item profiles items ps name o :
  overrides profiles items = inr ps -> NoDup items.*1 -> (name, o) ∈ items ->
  ps !! name = overridden o (profiles !! name)
  /\ (o = None -> is_Some (profiles !! name)).
Proof.
  revert profiles. induction items as [|[name' o'] items IH]; intros profiles H Hnd Hin;
    simpl in *; [by apply elem_of_nil in Hin|].
  apply NoDup_cons in Hnd as [Hfresh Hnd].
  destruct (override profiles name' o') as [?|ps1] eqn:Ho; [done|].
  apply elem_of_cons in Hin as [[= -> ->]|Hin].
  - rewrite (overrides_other _ _ _ _ H Hfresh). by apply override_at.
  - assert (name <> name') as Hne.
    { intros ->. apply Hfresh. apply list_elem_of_fmap. by exists (name', o). }
    rewrite <- (override_other _ _ _ _ _ Ho Hne). by apply IH.
Qed.

Lemma with_defaults_keeps (p : gmap string V) k v :
  p !! k = Some v -> with_defaults p !! k = Some v.
Proof.
  intros Hk. unfold Settings.with_defaults.
  destruct (p !! "subject") eqn:Hs.
  - destruct (p !! "cn_in_san") eqn:Hc; [done|].
    rewrite lookup_insert_ne; [done|]. intros <-. congruence.
  - assert (k <> "subject") as Hne by (intros ->; congruence).
    rewrite (lookup_insert_ne _ "subject" "cn_in_san") by done.
    destruct (p !! "cn_in_san") eqn:Hc.
    + by rewrite lookup_insert_ne.
    + rewrite lookup_insert_ne by (intros <-; congruence). by rewrite lookup_insert_ne.
Qed.

(** [CA_PROFILES], when the module does not raise. *)
Lemma CA_PROFILES_ret builtin configured ps :
  CA_PROFILES builtin configured = inr ps ->
  exists profiles,
    overrides builtin (default [] configured) = inr profiles
    /\ ps = with_defaults <$> profiles.
Proof.
  unfold Settings.CA_PROFILES. destruct (overrides _ _) as [?|profiles]; [done|].
  intros [= <-]. by exists profiles.
Qed.

(** X27. Every profile of the settings has a subject and a value for
    [cn_in_san]. *)
Theorem CA_PROFILES_defaults builtin configured ps name (p : gmap string V) :
  CA_PROFILES builtin configured = inr ps ->
  ps !! name = Some p ->
  is_Some (p !! "subject") /\ is_Some (p !! "cn_in_san").
Proof.
  intros H Hp. apply CA_PROFILES_ret in H as (profiles & _ & ->).
  rewrite lookup_fmap in Hp. destruct (profiles !! name) as [q|]; [|done].
  injection Hp as <-. unfold Settings.with_defaults.
  destruct (q !! "subject") eqn:Hs;
    rewrite ?(lookup_insert_ne _ "subject" "cn_in_san") by done;
    destruct (q !! "cn_in_san") eqn:Hc;
    repeat first [ rewrite lookup_insert_eq | rewrite lookup_insert_ne by done
                 | rewrite Hs | rewrite Hc ];
    split; by eexists.
Qed.

(** X28. What the settings give for a profile wins over what is built in: the
    profile has every value given for it, a subject given as a dictionary
    turned into a tuple, and of a built-in profile of the name the values
    of the keys for which none is given. *)
Theorem CA_PROFILES_override builtin items ps name (given : gmap string V) :
  CA_PROFILES builtin (Some items) = inr ps ->
  NoDup items.*1 ->
  (name, Some given) ∈ items ->
  exists p,
    ps !! name = Some p
    /\ (forall k v, given !! k = Some v ->
          p !! k = Some (if decide (k = "subject") then subject_as_tuple v else v))
    /\ (forall b k v, builtin !! name = Some b -> given !! k = None -> b !! k = Some v ->
          p !! k = Some v).
Proof.
  intros H Hnd Hin. apply CA_PROFILES_ret in H as (profiles & Ho & ->). simpl in Ho.
  destruct (overrides_item _ _ _ _ _ Ho Hnd Hin) as [Hname _].
  rewrite lookup_fmap, Hname. simpl. eexists. split; [done|]. split.
  - intros k v Hk. apply with_defaults_keeps, lookup_union_Some_l.
    case_decide as Hs.
    + subst k. by rewrite lookup_alter_eq, Hk.
    + by rewrite lookup_alter_ne.
  - intros b k v -> Hk Hb. apply with_defaults_keeps. simpl.
    rewrite lookup_union_r; [done|].
    destruct (decide (k = "subject")) as [->|Hs].
    + by rewrite lookup_alter_eq, Hk.
    + by rewrite lookup_alter_ne.
Qed.

(** X29. A name the settings do not mention keeps its built-in profile, with
    the defaults; a name they give [None] for was built in and is gone; a
    name they give a dictionary for has a profile. *)
Theorem CA_PROFILES_names builtin items ps name :
  CA_PROFILES builtin (Some items) = inr ps ->
  NoDup items.*1 ->
  (name ∉ items.*1 -> ps !! name = with_defaults <$> builtin !! name)
  /\ ((name, None) ∈ items -> ps !! name = None /\ is_Some (builtin !! name))
  /\ (forall given, (name, Some given) ∈ items -> is_Some (ps !! name)).
Proof.
  intros H Hnd. apply CA_PROFILES_ret in H as (profiles & Ho & ->). simpl in Ho.
  split_and!.
  - intros Hk. by rewrite lookup_fmap, (overrides_other _ _ _ _ Ho Hk).
  - intros Hin. destruct (overrides_item _ _ _ _ _ Ho Hnd Hin) as [Hname Hsome].
    rewrite lookup_fmap, Hname. split; [done|]. by apply Hsome.
  - intros given Hin. destruct (overrides_item _ _ _ _ _ Ho Hnd Hin) as [Hname _].
    rewrite lookup_fmap, Hname. by eexists.
Qed.

End profiles_of_settings.

Lemma CA_PROFILES_defaults_witness :
  is_Some (configured_server !! "subject") /\ is_Some (configured_server !! "cn_in_san").
Proof.
  apply (CA_PROFILES_defaults string (fun v => v) "()" "True" builtin_profiles
           (Some configured_profiles) {[ "server" := configured_server ]} "server").
  - vm_refl.
  - vm_refl.
Defined.

Lemma CA_PROFILES_override_witness :
  exists p : gmap string string,
    ({[ "server" := configured_server ]} : gmap string (gmap string string)) !! "server"
    = Some p
    /\ p !! "cn_in_san" = Some "False"
    /\ p !! "description" = Some "A certificate for a server.".
Proof.
  destruct (CA_PROFILES_override string (fun v => v) "()" "True" builtin_profiles
              configured_profiles {[ "server" := configured_server ]} "server"
              {[ "cn_in_san" := "False" ]}) as (p & Hp & Hgiven & Hbuiltin).
  - vm_refl.
  - apply (bool_decide_unpack _). vm_cast_no_check I.
  - apply (bool_decide_unpack _). vm_cast_no_check I.
  - exists p. split; [exact Hp|]. split.
    + apply (Hgiven "cn_in_san" "False"). vm_refl.
    + apply (Hbuiltin {[ "description" := "A certificate for a server." ]}); vm_refl.
Defined.

Lemma CA_PROFILES_names_witness :
  ({[ "server" := configured_server ]} : gmap string (gmap string string)) !! "client" = None
  /\ is_Some (builtin_profiles !! "client").
Proof.
  refine (proj1 (proj2 (CA_PROFILES_names string (fun v => v) "()" "True" builtin_profiles
                          configured_profiles {[ "server" := configured_server ]} "client"
                          _ _)) _).
  - vm_refl.
  - apply (bool_decide_unpack _). vm_cast_no_check I.
  - apply (bool_decide_unpack _). vm_cast_no_check I.
Defined.

